(** * Merlin job service: a shallow embedding of [pkg/services/job/job.go]

    The development follows the Go source function by function.  Go strings
    are byte sequences and are modelled by [string] (a list of 8-bit
    [ascii]); a [uuid.UUID] is a 128-bit number; Go maps are [gmap]s; the
    mutable collaborators of the service (job repository, agent service,
    broadcast sink, SOCKS sink, file system, clock) form one explicit
    [World] record threaded through every operation.  A Go [error] result
    is the [Fail] outcome and a run-time panic (index out of range, failed
    type assertion) is the [Crash] outcome. *)

From Stdlib Require Import NArith ZArith String Ascii List Lia DecimalString.
From stdpp Require Import gmap strings list fin_maps.
Import ListNotations.

Local Open Scope string_scope.
Local Open Scope list_scope.

(** ** Byte-level helpers of the Go standard library *)

Module Bytes.

Definition of_string (s : string) : list N :=
  map N_of_ascii (list_ascii_of_string s).

Definition to_string (l : list N) : string :=
  string_of_list_ascii (map ascii_of_N l).

(** [strings.Join] *)
Fixpoint Join (elems : list string) (sep : string) : string :=
  match elems with
  | [] => ""
  | [x] => x
  | x :: rest => x ++ sep ++ Join rest sep
  end.

(** [s[:n]] for [n <= len(s)] *)
Fixpoint prefix (n : nat) (s : string) : string :=
  match n, s with
  | O, _ => ""
  | S n', String c s' => String c (prefix n' s')
  | S _, EmptyString => ""
  end.

(** [strings.ToLower], on the ASCII letters *)
Definition lower_ascii (c : ascii) : ascii :=
  let n := N_of_ascii c in
  if ((65 <=? n) && (n <=? 90))%N then ascii_of_N (n + 32) else c.

Fixpoint ToLower (s : string) : string :=
  match s with
  | EmptyString => EmptyString
  | String c s' => String (lower_ascii c) (ToLower s')
  end.

(** The white space [strings.TrimSpace] removes, restricted to one-byte
    characters: tab, line feed, vertical tab, form feed, carriage return
    and space. *)
Definition is_space (c : ascii) : bool :=
  let n := N_of_ascii c in
  (((9 <=? n) && (n <=? 13)) || (n =? 32))%N.

Fixpoint trim_left (s : string) : string :=
  match s with
  | EmptyString => EmptyString
  | String c s' => if is_space c then trim_left s' else s
  end.

Fixpoint rev_string (acc s : string) : string :=
  match s with
  | EmptyString => acc
  | String c s' => rev_string (String c acc) s'
  end.

Definition TrimSpace (s : string) : string :=
  rev_string "" (trim_left (rev_string "" (trim_left s))).

(** [%d] of a non-negative number *)
Definition decimal (n : N) : string :=
  NilZero.string_of_uint (N.to_uint n).

(** [strconv.Atoi]: an optional sign and at least one decimal digit, the
    value within the 64-bit [int] range; [None] is the conversion error. *)
Fixpoint atoi_digits (acc : Z) (s : string) : option Z :=
  match s with
  | EmptyString => Some acc
  | String c s' =>
      let n := Z.of_N (N_of_ascii c) in
      if ((48 <=? n) && (n <=? 57))%Z
      then atoi_digits (10 * acc + (n - 48))%Z s'
      else None
  end.

Definition atoi_unsigned (s : string) : option Z :=
  match s with
  | EmptyString => None
  | _ => atoi_digits 0%Z s
  end.

Definition Atoi (s : string) : option Z :=
  let r :=
    match s with
    | String "-" s' => Z.opp <$> atoi_unsigned s'
    | String "+" s' => atoi_unsigned s'
    | _ => atoi_unsigned s
    end in
  match r with
  | Some z => if ((- 2 ^ 63 <=? z) && (z <? 2 ^ 63))%Z then Some z else None
  | None => None
  end.

End Bytes.

(** ** [encoding/hex] and the [%x] verb on a string *)

Module Hex.

Definition digit (n : N) : ascii :=
  if (n <? 10)%N then ascii_of_N (48 + n) else ascii_of_N (87 + n).

Fixpoint encode (s : string) : string :=
  match s with
  | EmptyString => EmptyString
  | String c s' =>
      let n := N_of_ascii c in
      String (digit (N.shiftr n 4)) (String (digit (N.land n 15)) (encode s'))
  end.

End Hex.

(** ** [encoding/base64], the padded standard encoding *)

Module Base64.

Definition alphabet : string :=
  "ABCDEFGHIJKLMNOPQRSTUVWXYZabcdefghijklmnopqrstuvwxyz0123456789+/".

Definition enc (n : N) : ascii :=
  match String.get (N.to_nat n) alphabet with
  | Some c => c
  | None => "="%char
  end.

(** [StdEncoding.EncodeToString] *)
Fixpoint EncodeToString (s : string) : string :=
  match s with
  | EmptyString => EmptyString
  | String a EmptyString =>
      let x := N_of_ascii a in
      String (enc (N.shiftr x 2))
        (String (enc (N.shiftl (N.land x 3) 4)) "==")
  | String a (String b EmptyString) =>
      let x := N_of_ascii a in
      let y := N_of_ascii b in
      String (enc (N.shiftr x 2))
        (String (enc (N.lor (N.shiftl (N.land x 3) 4) (N.shiftr y 4)))
           (String (enc (N.shiftl (N.land y 15) 2)) "="))
  | String a (String b (String c rest)) =>
      let x := N_of_ascii a in
      let y := N_of_ascii b in
      let z := N_of_ascii c in
      String (enc (N.shiftr x 2))
        (String (enc (N.lor (N.shiftl (N.land x 3) 4) (N.shiftr y 4)))
           (String (enc (N.lor (N.shiftl (N.land y 15) 2) (N.shiftr z 6)))
              (String (enc (N.land z 63)) (EncodeToString rest))))
  end.

Definition dec (c : ascii) : option N :=
  let n := N_of_ascii c in
  if ((65 <=? n) && (n <=? 90))%N then Some (n - 65)%N
  else if ((97 <=? n) && (n <=? 122))%N then Some (n - 71)%N
  else if ((48 <=? n) && (n <=? 57))%N then Some (n + 4)%N
  else if (n =? 43)%N then Some 62%N
  else if (n =? 47)%N then Some 63%N
  else None.

(** The decoder skips carriage returns and line feeds wherever they are. *)
Fixpoint strip_newlines (s : string) : string :=
  match s with
  | EmptyString => EmptyString
  | String c s' =>
      let n := N_of_ascii c in
      if ((n =? 10) || (n =? 13))%N then strip_newlines s'
      else String c (strip_newlines s')
  end.

Definition byte1 (p q : N) : ascii :=
  ascii_of_N (N.lor (N.shiftl p 2) (N.shiftr q 4)).
Definition byte2 (q r : N) : ascii :=
  ascii_of_N (N.lor (N.shiftl (N.land q 15) 4) (N.shiftr r 2)).
Definition byte3 (r t : N) : ascii :=
  ascii_of_N (N.lor (N.shiftl (N.land r 3) 6) t).

(** One quantum of four characters at a time; padding is accepted only
    in the last quantum and nothing may follow it. *)
Fixpoint decode_quanta (s : string) : option string :=
  match s with
  | EmptyString => Some EmptyString
  | String a (String b (String c (String d rest))) =>
      match dec a, dec b with
      | Some p, Some q =>
          if Ascii.eqb c "=" then
            if Ascii.eqb d "=" then
              match rest with
              | EmptyString => Some (String (byte1 p q) EmptyString)
              | _ => None
              end
            else None
          else
            match dec c with
            | None => None
            | Some r =>
                if Ascii.eqb d "=" then
                  match rest with
                  | EmptyString =>
                      Some (String (byte1 p q) (String (byte2 q r) EmptyString))
                  | _ => None
                  end
                else
                  match dec d, decode_quanta rest with
                  | Some t, Some tl =>
                      Some (String (byte1 p q)
                              (String (byte2 q r) (String (byte3 r t) tl)))
                  | _, _ => None
                  end
            end
      | _, _ => None
      end
  | _ => None
  end.

(** [StdEncoding.DecodeString]; [None] is a [CorruptInputError]. *)
Definition DecodeString (s : string) : option string :=
  decode_quanta (strip_newlines s).

End Base64.

(** ** [crypto/sha256] *)

Module SHA256.

Local Open Scope N_scope.

Definition mask32 : N := 0xffffffff.

Definition add32 (a b : N) : N := N.land (a + b) mask32.

Definition rotr (n x : N) : N :=
  N.lor (N.shiftr x n) (N.land (N.shiftl x (32 - n)) mask32).

Definition Ch (x y z : N) : N :=
  N.lxor (N.land x y) (N.land (N.lxor x mask32) z).

Definition Maj (x y z : N) : N :=
  N.lxor (N.lxor (N.land x y) (N.land x z)) (N.land y z).

Definition bsig0 (x : N) : N :=
  N.lxor (N.lxor (rotr 2 x) (rotr 13 x)) (rotr 22 x).
Definition bsig1 (x : N) : N :=
  N.lxor (N.lxor (rotr 6 x) (rotr 11 x)) (rotr 25 x).
Definition ssig0 (x : N) : N :=
  N.lxor (N.lxor (rotr 7 x) (rotr 18 x)) (N.shiftr x 3).
Definition ssig1 (x : N) : N :=
  N.lxor (N.lxor (rotr 17 x) (rotr 19 x)) (N.shiftr x 10).

(** The constants are what FIPS 180-4 says they are: the first 32 bits of
    the fractional parts of the cube roots (for [K]) and of the square
    roots (for [H0]) of the first primes. *)
Fixpoint has_divisor (ps : list N) (n : N) : bool :=
  match ps with
  | [] => false
  | q :: ps' => (n mod q =? 0) || has_divisor ps' n
  end.

Fixpoint primes_from (fuel : nat) (count : nat) (n : N) (found : list N)
  : list N :=
  match fuel, count with
  | S fuel', S count' =>
      if has_divisor found n
      then primes_from fuel' count (n + 1) found
      else primes_from fuel' count' (n + 1) (found ++ [n])
  | _, _ => found
  end.

Definition primes (count : nat) : list N := primes_from 400 count 2 [].

(** The integer cube root, one bit at a time from bit [bits - 1] down. *)
Fixpoint cube_root (bits : nat) (x r : N) : N :=
  match bits with
  | O => r
  | S b =>
      let r' := r + N.shiftl 1 (N.of_nat b) in
      cube_root b x (if r' * r' * r' <=? x then r' else r)
  end.

Definition K : list N :=
  Eval vm_compute in
    map (fun q => N.land (cube_root 40 (N.shiftl q 96) 0) mask32) (primes 64).

Definition H0 : list N :=
  Eval vm_compute in
    map (fun q => N.land (N.sqrt (N.shiftl q 64)) mask32) (primes 8).

(** Big-endian bytes of a number, most significant first. *)
Fixpoint be_bytes (width : nat) (x : N) : list N :=
  match width with
  | O => []
  | S w => N.land (N.shiftr x (8 * N.of_nat w)) 255 :: be_bytes w x
  end.

Definition pad (msg : list N) : list N :=
  let len := List.length msg in
  let zeros := ((119 - len mod 64) mod 64)%nat in
  msg ++ [128] ++ repeat 0 zeros ++ be_bytes 8 (8 * N.of_nat len).

Fixpoint words (fuel : nat) (bs : list N) : list N :=
  match fuel, bs with
  | S f, a :: b :: c :: d :: rest =>
      N.lor (N.shiftl a 24) (N.lor (N.shiftl b 16) (N.lor (N.shiftl c 8) d))
      :: words f rest
  | _, _ => []
  end.

Fixpoint blocks (fuel : nat) (ws : list N) : list (list N) :=
  match fuel with
  | O => []
  | S f =>
      match ws with
      | [] => []
      | _ => firstn 16 ws :: blocks f (skipn 16 ws)
      end
  end.

(** The message schedule, kept most-recent-first while it grows. *)
Fixpoint extend (n : nat) (r : list N) : list N :=
  match n with
  | O => r
  | S n' =>
      let w := add32 (add32 (ssig1 (nth 1 r 0)) (nth 6 r 0))
                     (add32 (ssig0 (nth 14 r 0)) (nth 15 r 0)) in
      extend n' (w :: r)
  end.

Definition schedule (block : list N) : list N :=
  rev (extend 48 (rev block)).

Definition round (v : list N) (kw : N * N) : list N :=
  match v with
  | [a; b; c; d; e; f; g; h] =>
      let t1 := add32 (add32 (add32 h (bsig1 e)) (add32 (Ch e f g) (fst kw)))
                      (snd kw) in
      let t2 := add32 (bsig0 a) (Maj a b c) in
      [add32 t1 t2; a; b; c; add32 d t1; e; f; g]
  | _ => v
  end.

Fixpoint zip_add (xs ys : list N) : list N :=
  match xs, ys with
  | x :: xs', y :: ys' => add32 x y :: zip_add xs' ys'
  | _, _ => []
  end.

Definition compress (h : list N) (block : list N) : list N :=
  zip_add h (fold_left round (combine K (schedule block)) h).

(** [sha256.Sum256], as the 32 raw digest bytes *)
Definition Sum (msg : string) : string :=
  let bs := pad (Bytes.of_string msg) in
  let ws := words (List.length bs) bs in
  let h := fold_left compress (blocks (List.length ws) ws) H0 in
  Bytes.to_string (flat_map (be_bytes 4) h).

End SHA256.

(** ** [path/filepath], with the slash as separator *)

Module filepath.

Fixpoint split_rev (acc : string) (s : string) : string * string :=
  match s with
  | EmptyString => (EmptyString, acc)
  | String c s' =>
      if Ascii.eqb c "/" then (s, acc) else split_rev (String c acc) s'
  end.

(** [filepath.Split]: the directory part keeps its final slash, the file
    part is what follows the last slash. *)
Definition Split (path : string) : string * string :=
  let '(rdir, file) := split_rev "" (Bytes.rev_string "" path) in
  (Bytes.rev_string "" rdir, file).

Fixpoint components (cur : string) (s : string) : list string :=
  match s with
  | EmptyString => [Bytes.rev_string "" cur]
  | String c s' =>
      if Ascii.eqb c "/" then Bytes.rev_string "" cur :: components "" s'
      else components (String c cur) s'
  end.

Fixpoint clean_components (rooted : bool) (stack : list string)
  (cs : list string) : list string :=
  match cs with
  | [] => rev stack
  | c :: cs' =>
      if (String.eqb c "" || String.eqb c ".")%bool
      then clean_components rooted stack cs'
      else if String.eqb c ".." then
        match stack with
        | top :: stack' =>
            if String.eqb top ".."
            then clean_components rooted (c :: stack) cs'
            else clean_components rooted stack' cs'
        | [] =>
            if rooted then clean_components rooted [] cs'
            else clean_components rooted [c] cs'
        end
      else clean_components rooted (c :: stack) cs'
  end.

(** [filepath.Clean] *)
Definition Clean (path : string) : string :=
  let rooted := match path with String "/" _ => true | _ => false end in
  let body := Bytes.Join (clean_components rooted [] (components "" path)) "/" in
  if rooted then "/" ++ body
  else if String.eqb body "" then "." else body.

(** [filepath.Join]: empty elements are ignored and the result is cleaned. *)
Definition Join (elem : list string) : string :=
  match filter (fun e => negb (String.eqb e "")) elem with
  | [] => ""
  | es => Clean (Bytes.Join es "/")
  end.

Fixpoint drop_slashes (r : string) : string :=
  match r with
  | String "/" r' => drop_slashes r'
  | _ => r
  end.

(** [filepath.Base]: the last element of the path, trailing slashes
    removed first. *)
Definition Base (path : string) : string :=
  if String.eqb path "" then "."
  else
    let p := Bytes.rev_string "" (drop_slashes (Bytes.rev_string "" path)) in
    let f := snd (Split p) in
    if String.eqb f "" then "/" else f.

(** The directory that holds [path]: [Split]'s directory part without its
    final slash (the root stays the root). *)
Definition parent (path : string) : string :=
  let d := fst (Split path) in
  if String.eqb d "/" then d
  else Bytes.rev_string ""
         (match Bytes.rev_string "" d with
          | String "/" r => r
          | r => r
          end).

End filepath.

(** ** The part of the file system the service touches *)

Module os.

Record File := mkFile { content : string; perm : N }.

Record FileSystem := mkFS {
  dirs : gset string;
  files : gmap string File
}.

(** [ioutil.ReadFile]; [None] is the read error. *)
Definition ReadFile (fs : FileSystem) (name : string) : option string :=
  content <$> files fs !! name.

(** [os.Stat] followed by [os.IsNotExist] on its error. *)
Definition IsNotExist (fs : FileSystem) (name : string) : bool :=
  negb (bool_decide (name ∈ dirs fs)) && negb (bool_decide (is_Some (files fs !! name))).

(** [ioutil.WriteFile name data perm]: the file is created with [perm] when
    it does not exist and is truncated, keeping its mode, when it does; the
    call fails when [name] is a directory or lies in no existing directory. *)
Definition WriteFile (fs : FileSystem) (name : string) (data : string)
  (mode : N) : option FileSystem :=
  if bool_decide (name ∈ dirs fs) then None
  else if negb (bool_decide (filepath.parent name ∈ dirs fs)) then None
  else
    let m := match files fs !! name with
             | Some old => perm old
             | None => mode
             end in
    Some (mkFS (dirs fs) (<[name := mkFile data m]> (files fs))).

End os.

(** ** [uuid.UUID]: sixteen bytes, read as a 128-bit number *)

Definition UUID := N.

(** [uuid.Nil] *)
Definition uuid_Nil : UUID := 0%N.

(** The canonical text of a UUID, [UUID.String]. *)
Definition UUID_String (u : UUID) : string :=
  let h := Hex.encode (Bytes.to_string (SHA256.be_bytes 16 u)) in
  substring 0 8 h ++ "-" ++ substring 8 4 h ++ "-" ++ substring 12 4 h
    ++ "-" ++ substring 16 4 h ++ "-" ++ substring 20 12 h.

(** The all-ones identifier that addresses every known agent. *)
Definition broadcastID : UUID := (2 ^ 128 - 1)%N.

(** Instants of the server clock, [time.Time]; [0] is the zero time. *)
Definition Instant := nat.

(** ** Package [jobs]: the job model

    The package is imported by the service and its declarations are not
    part of the embedded file. *)

(** Modelled from the spec: the job type tags of package [jobs] (section
    4.1); [UNDEFINED] is the zero value of a job that was never typed. *)
Inductive JobType :=
| UNDEFINED | CONTROL | MODULE | NATIVE | CMD | FILETRANSFER
| SHELLCODE | SOCKS | RESULT | AGENTINFO.

#[global] Instance JobType_eq_dec : EqDecision JobType.
Proof. solve_decision. Defined.

(** Modelled from the spec: [jobs.String], the textual name of a type tag
    as it is stored in a [JobInfo] (section 3). *)
Definition jobs_String (t : JobType) : string :=
  match t with
  | UNDEFINED => "UNDEFINED" | CONTROL => "CONTROL" | MODULE => "MODULE"
  | NATIVE => "NATIVE" | CMD => "CMD" | FILETRANSFER => "FILETRANSFER"
  | SHELLCODE => "SHELLCODE" | SOCKS => "SOCKS" | RESULT => "RESULT"
  | AGENTINFO => "AGENTINFO"
  end.

(** Modelled from the spec: the payload shapes of package [jobs] (section
    4.1), with the field names the service uses. *)
Record Command := mkCommand {
  Command_Command : string;
  Command_Args : list string
}.

Record FileTransfer := mkFileTransfer {
  FileLocation : string;
  FileBlob : string;
  IsDownload : bool
}.

Record Shellcode := mkShellcode {
  Method : string;
  Bytes_ : string;
  PID : N
}.

Record Socks := mkSocks {
  Socks_ID : UUID;
  Socks_Index : N;
  Socks_Data : string;
  Socks_Close : bool
}.

Record Results := mkResults {
  Stdout : string;
  Stderr : string
}.

(** Modelled from the spec: [messages.AgentInfo], whose fields the service
    never inspects. *)
Record AgentInfo := mkAgentInfo { AgentInfo_raw : string }.

(** The [Payload interface{}] field: the dynamic type is the constructor,
    [PNil] is the nil interface. *)
Inductive Payload :=
| PNil
| PCommand (c : Command)
| PFileTransfer (f : FileTransfer)
| PShellcode (s : Shellcode)
| PSocks (s : Socks)
| PResults (r : Results)
| PAgentInfo (a : AgentInfo).

Record Job := mkJob {
  Job_ID : string;
  Job_AgentID : UUID;
  Job_Token : UUID;
  Job_Type : JobType;
  Job_Payload : Payload
}.

(** [var job jobs.Job] *)
Definition zeroJob : Job := mkJob "" uuid_Nil uuid_Nil UNDEFINED PNil.

(** Modelled from the spec: the status values of a [JobInfo] (section 3);
    [RETURNED] is named by the table printers of the service. *)
Inductive Status := CREATED | SENT | RETURNED | COMPLETE | CANCELED | ACTIVE.

#[global] Instance Status_eq_dec : EqDecision Status.
Proof. solve_decision. Defined.

(** Modelled from the spec: [jobs.Info], the tracking record (section 3). *)
Record JobInfo := mkInfo {
  Info_ID : string;
  Info_AgentID : UUID;
  Info_Type : string;
  Info_Token : UUID;
  Info_Status : Status;
  Info_Command : string;
  Info_Created : Instant;
  Info_Sent : Instant;
  Info_Completed : Instant
}.

(** Modelled from the spec: [Info.Complete], the transition to the
    terminal status, stamped with the completion instant. *)
Definition Info_Complete (i : JobInfo) (now : Instant) : JobInfo :=
  mkInfo (Info_ID i) (Info_AgentID i) (Info_Type i) (Info_Token i) COMPLETE
         (Info_Command i) (Info_Created i) (Info_Sent i) now.

(** Modelled from the spec: [Info.Active], the status of a SOCKS job that
    produced a frame and is not closed. *)
Definition Info_Active (i : JobInfo) : JobInfo :=
  mkInfo (Info_ID i) (Info_AgentID i) (Info_Type i) (Info_Token i) ACTIVE
         (Info_Command i) (Info_Created i) (Info_Sent i) (Info_Completed i).

Definition Info_with_status (i : JobInfo) (s : Status) : JobInfo :=
  mkInfo (Info_ID i) (Info_AgentID i) (Info_Type i) (Info_Token i) s
         (Info_Command i) (Info_Created i) (Info_Sent i) (Info_Completed i).

Definition Info_sent_at (i : JobInfo) (now : Instant) : JobInfo :=
  mkInfo (Info_ID i) (Info_AgentID i) (Info_Type i) (Info_Token i) SENT
         (Info_Command i) (Info_Created i) now (Info_Completed i).

(** ** Package [jobs/memory]: the in-memory repository *)

Module memory.

(** Modelled from the spec: the repository of package [jobs/memory]
    (section 4.2): the queued jobs of every agent and the tracking records
    by identifier. *)
Record Repository := mkRepo {
  queue : gmap N (list Job);
  infos : gmap string JobInfo
}.

(** [memory.NewRepository] *)
Definition NewRepository : Repository := mkRepo ∅ ∅.

(** Modelled from the spec: [add(job, info)] inserts both and fails when
    [info.id] is already present. *)
Definition Add (r : Repository) (job : Job) (info : JobInfo)
  : option Repository :=
  match infos r !! Info_ID info with
  | Some _ => None
  | None =>
      Some (mkRepo
              (<[Job_AgentID job :=
                   default [] (queue r !! Job_AgentID job) ++ [job]]> (queue r))
              (<[Info_ID info := info]> (infos r)))
  end.

(** Modelled from the spec: [get_info(id)]; [None] is NotFound. *)
Definition GetInfo (r : Repository) (id : string) : option JobInfo :=
  infos r !! id.

(** Modelled from the spec: [update_info(info)] replaces by id and fails
    when the id is unknown. *)
Definition UpdateInfo (r : Repository) (info : JobInfo) : option Repository :=
  match infos r !! Info_ID info with
  | Some _ => Some (mkRepo (queue r) (<[Info_ID info := info]> (infos r)))
  | None => None
  end.

Definition mark (f : JobInfo -> JobInfo) (m : gmap string JobInfo)
  (job : Job) : gmap string JobInfo :=
  match m !! Job_ID job with
  | Some i => <[Job_ID job := f i]> m
  | None => m
  end.

(** Modelled from the spec: [get_jobs(agent_id)] removes and returns the
    queued jobs of the agent in insertion order and marks the record of
    each one as sent. *)
Definition GetJobs (r : Repository) (agentID : UUID) (now : Instant)
  : list Job * Repository :=
  let js := default [] (queue r !! agentID) in
  (js, mkRepo (delete agentID (queue r))
              (fold_left (mark (fun i => Info_sent_at i now)) js (infos r))).

(** Modelled from the spec: [clear(agent_id)] removes the queued jobs of
    one agent; their records become [CANCELED]. *)
Definition Clear (r : Repository) (agentID : UUID) : Repository :=
  let js := default [] (queue r !! agentID) in
  mkRepo (delete agentID (queue r))
         (fold_left (mark (fun i => Info_with_status i CANCELED)) js (infos r)).

(** Modelled from the spec: [get_all()], the snapshot of the records. *)
Definition GetAll (r : Repository) : gmap string JobInfo := infos r.

(** Every record is stored under its own identifier. *)
Definition wf (r : Repository) : Prop :=
  forall k i, infos r !! k = Some i -> Info_ID i = k.

End memory.

(** ** Errors, panics and outcomes *)

Inductive Site := InHandler | InCheckJob.

(** One constructor for every [fmt.Errorf] of the service (and for the
    errors its collaborators hand back), carrying the formatted values.
    The names follow the taxonomy of the specification. *)
Inductive Error :=
| ErrArguments (kind : string) (received : list string)
| ErrIO (path : string)
| ErrAtoi (text : string)
| ErrUnknownKind
| ErrNoAgents
| ErrUnknownAgent (agentID : UUID)
| ErrUnknownJob (site : Site) (id : string)
| ErrInvalidAgent (id : string) (agentID : UUID)
| ErrBadToken (id : string) (agentID : UUID) (expected got : UUID)
| ErrAlreadyTerminal (id : string) (agentID : UUID) (status : Status)
    (completed : Instant)
| ErrNotValidAgent (agentID : UUID)
| ErrAgentsDir (dir : string)
| ErrDecodeBlob
| ErrWriting (location : string)
| ErrAgentLog (agentID : UUID)
| ErrBoth (first second : Error)
| ErrUpdateAgentInfo (agentID : UUID)
| ErrUpdateInfo (id : string).

Inductive Panic := IndexOutOfRange | SliceBounds | TypeAssertion.

Inductive Outcome (A : Type) :=
| Ok (a : A)
| Fail (e : Error)
| Crash (p : Panic).

Arguments Ok {A} a.
Arguments Fail {A} e.
Arguments Crash {A} p.

(** ** Messages

    A message is kept as the format it was built from together with the
    formatted values, one constructor for every format string of the
    service. *)
Inductive Text :=
| TxtLoadingAssembly (src hash : string)
| TxtUploading (src size hashHex dst : string)
| TxtDownloading (src : string)
| TxtCreatedJob (t : JobType) (id command : string)
| TxtResultsForJob (id : string)
| TxtStdout (out : string)
| TxtStderr (err : string)
| TxtRaw (body : string)
| TxtResultsJob (id : string) (agentID : UUID) (at_ : Instant)
| TxtResultsFor (agentID : UUID) (at_ : Instant)
| TxtDownloaded (location : string) (size : nat) (agentID : UUID)
    (dst : string)
| TxtInvalidAgent (id : string) (agentID : UUID)
| TxtError (e : Error)
| TxtNoToken (t : JobType) (e : Error).

Inductive Level := Note | Success | Warn.

(** Modelled from the spec: [messageAPI.UserMessage], the operator-visible
    message of the broadcast sink (section 6), with the level, the instant
    and the text the service fills in. *)
Record UserMessage := mkUserMessage {
  UM_Level : Level;
  UM_Time : Instant;
  UM_Message : Text
}.

(** ** The world of the service *)

Record World := mkWorld {
  jobRepo : memory.Repository;      (* s.jobRepo *)
  agents : list UUID;               (* the agents of s.agentService *)
  agentInfo : list (UUID * AgentInfo);  (* what UpdateAgentInfo stored *)
  agentLog : list (UUID * Text);    (* the per-agent log files, oldest first *)
  broadcast : list UserMessage;     (* messageAPI.SendBroadcastMessage *)
  socksIn : list Job;               (* socks.In *)
  stdout : list Text;               (* fmt.Printf *)
  fs : os.FileSystem;
  clock : Instant;                  (* the next value of time.Now() *)
  entropy : nat;                    (* random identifiers drawn so far *)
  coreDebug : bool;                 (* core.Debug *)
  CurrentDir : string               (* core.CurrentDir *)
}.

Definition with_repo (w : World) (r : memory.Repository) : World :=
  mkWorld r (agents w) (agentInfo w) (agentLog w) (broadcast w) (socksIn w)
          (stdout w) (fs w) (clock w) (entropy w) (coreDebug w) (CurrentDir w).

Definition with_fs (w : World) (f : os.FileSystem) : World :=
  mkWorld (jobRepo w) (agents w) (agentInfo w) (agentLog w) (broadcast w)
          (socksIn w) (stdout w) f (clock w) (entropy w) (coreDebug w)
          (CurrentDir w).

(** [time.Now()]: the clock is read and moves on. *)
Definition Now (w : World) : Instant * World :=
  (clock w,
   mkWorld (jobRepo w) (agents w) (agentInfo w) (agentLog w) (broadcast w)
           (socksIn w) (stdout w) (fs w) (S (clock w)) (entropy w)
           (coreDebug w) (CurrentDir w)).

(** Modelled from the spec: [messageAPI.SendBroadcastMessage], the sink
    for operator-visible messages (section 6); it keeps what it is sent. *)
Definition SendBroadcastMessage (w : World) (m : UserMessage) : World :=
  mkWorld (jobRepo w) (agents w) (agentInfo w) (agentLog w)
          (broadcast w ++ [m]) (socksIn w) (stdout w) (fs w) (clock w)
          (entropy w) (coreDebug w) (CurrentDir w).

(** Modelled from the spec: [socks.In], the inbound sink of the SOCKS
    layer (section 6); it keeps the jobs it is handed. *)
Definition socks_In (w : World) (job : Job) : World :=
  mkWorld (jobRepo w) (agents w) (agentInfo w) (agentLog w) (broadcast w)
          (socksIn w ++ [job]) (stdout w) (fs w) (clock w) (entropy w)
          (coreDebug w) (CurrentDir w).

(** [fmt.Printf] *)
Definition Printf (w : World) (t : Text) : World :=
  mkWorld (jobRepo w) (agents w) (agentInfo w) (agentLog w) (broadcast w)
          (socksIn w) (stdout w ++ [t]) (fs w) (clock w) (entropy w)
          (coreDebug w) (CurrentDir w).

(** *** Package [services/agent], as the service consumes it *)

(** Modelled from the spec: [Exist(id)] of the Agent Directory (section 6). *)
Definition Exist (w : World) (id : UUID) : bool :=
  bool_decide (id ∈ agents w).

(** Modelled from the spec: [Agents()], the known agents; an agent handle
    is represented by the identifier its [ID()] returns. *)
Definition Agents (w : World) : list UUID := agents w.

(** Modelled from the spec: [Agent(id)]; [None] is the error for an
    unknown agent. *)
Definition Agent (w : World) (id : UUID) : option UUID :=
  if Exist w id then Some id else None.

(** Modelled from the spec: [Log(msg)] of an agent handle appends to the
    log of that agent. *)
Definition agent_Log (w : World) (a : UUID) (t : Text) : World :=
  mkWorld (jobRepo w) (agents w) (agentInfo w) (agentLog w ++ [(a, t)])
          (broadcast w) (socksIn w) (stdout w) (fs w) (clock w) (entropy w)
          (coreDebug w) (CurrentDir w).

(** Modelled from the spec: [Log(id, msg)] of the Agent Directory; the
    error is that of an unknown agent. *)
Definition agentService_Log (w : World) (id : UUID) (t : Text)
  : option World :=
  if Exist w id then Some (agent_Log w id t) else None.

(** Modelled from the spec: [UpdateAgentInfo(id, info)] of the Agent
    Directory; the error is that of an unknown agent. *)
Definition UpdateAgentInfo (w : World) (id : UUID) (info : AgentInfo)
  : option World :=
  if Exist w id then
    Some (mkWorld (jobRepo w) (agents w) (agentInfo w ++ [(id, info)])
                  (agentLog w) (broadcast w) (socksIn w) (stdout w) (fs w)
                  (clock w) (entropy w) (coreDebug w) (CurrentDir w))
  else None.

(** ** The job service *)

Definition LF : string := String (ascii_of_N 10) EmptyString.

(** A job as a case of [Add] leaves it: type and payload set, the other
    fields at their zero value. *)
Definition typed (t : JobType) (p : Payload) : Job :=
  mkJob "" uuid_Nil uuid_Nil t p.

(** The cases that take the command name from [jobArgs[0]] and the
    arguments from [jobArgs[1:]] when [keep] holds of the length. *)
Definition named_by_first (t : JobType) (keep : nat -> bool)
  (jobArgs : list string) : Outcome (Job * list string) :=
  match jobArgs with
  | [] => Crash IndexOutOfRange
  | a0 :: rest =>
      Ok (typed t (PCommand
                     (mkCommand a0 (if keep (length jobArgs) then rest else []))),
          jobArgs)
  end.

Definition plain (t : JobType) (name : string) (args : list string)
  (jobArgs : list string) : Outcome (Job * list string) :=
  Ok (typed t (PCommand (mkCommand name args)), jobArgs).

(** [uint32(i)] *)
Definition uint32 (i : Z) : N := Z.to_N (i mod 2 ^ 32).

(** The [switch jobType] of [Add]: the job that is built and the argument
    vector as the case leaves it. *)
Definition build (files : os.FileSystem) (jobType : string)
  (jobArgs : list string) : Outcome (Job * list string) :=
  if String.eqb jobType "agentInfo" then plain CONTROL "agentInfo" [] jobArgs
  else if String.eqb jobType "download" then
    match jobArgs with
    | [] => Crash IndexOutOfRange
    | a0 :: _ =>
        Ok (typed FILETRANSFER (PFileTransfer (mkFileTransfer a0 "" false)),
            jobArgs)
    end
  else if String.eqb jobType "cd" then plain NATIVE "cd" jobArgs jobArgs
  else if String.eqb jobType "changelistener" then
    named_by_first CONTROL (fun n => Nat.leb 2 n) jobArgs
  else if String.eqb jobType "CreateProcess" then
    plain MODULE jobType jobArgs jobArgs
  else if String.eqb jobType "env" then plain NATIVE jobType jobArgs jobArgs
  else if String.eqb jobType "exit" then
    named_by_first CONTROL (fun _ => false) jobArgs
  else if String.eqb jobType "ifconfig" then plain NATIVE jobType [] jobArgs
  else if String.eqb jobType "initialize" then plain CONTROL jobType [] jobArgs
  else if String.eqb jobType "invoke-assembly" then
    if Nat.ltb (length jobArgs) 1 then Fail (ErrArguments jobType jobArgs)
    else plain MODULE "clr" (jobType :: jobArgs) jobArgs
  else if String.eqb jobType "ja3" then
    named_by_first CONTROL (fun n => Nat.eqb n 2) jobArgs
  else if String.eqb jobType "killdate" then
    named_by_first CONTROL (fun n => Nat.eqb n 2) jobArgs
  else if String.eqb jobType "killprocess" then
    plain NATIVE "killprocess" jobArgs jobArgs
  else if String.eqb jobType "link" then plain MODULE "link" jobArgs jobArgs
  else if String.eqb jobType "listener" then
    plain MODULE "listener" jobArgs jobArgs
  else if String.eqb jobType "list-assemblies" then
    plain MODULE "clr" ["list-assemblies"] jobArgs
  else if String.eqb jobType "load-assembly" then
    match jobArgs with
    | [] => Fail (ErrArguments jobType jobArgs)
    | a0 :: rest =>
        match os.ReadFile files a0 with
        | None => Fail (ErrIO a0)
        | Some assembly =>
            let name := match rest with
                        | [] => filepath.Base a0
                        | a1 :: _ => a1
                        end in
            let jobArgs' := jobArgs ++ [SHA256.Sum assembly] in
            plain MODULE "clr"
                  [jobType; Base64.EncodeToString assembly; name] jobArgs'
        end
    end
  else if String.eqb jobType "load-clr" then
    if Nat.ltb (length jobArgs) 1 then Fail (ErrArguments jobType jobArgs)
    else plain MODULE "clr" (jobType :: jobArgs) jobArgs
  else if String.eqb jobType "ls" then
    plain NATIVE "ls" (if Nat.ltb 0 (length jobArgs) then jobArgs else ["./"]) jobArgs
  else if String.eqb jobType "maxretry" then
    named_by_first CONTROL (fun n => Nat.eqb n 2) jobArgs
  else if String.eqb jobType "memory" then plain MODULE jobType jobArgs jobArgs
  else if String.eqb jobType "memfd" then
    match jobArgs with
    | [] => Fail (ErrArguments jobType jobArgs)
    | a0 :: rest =>
        match os.ReadFile files a0 with
        | None => Fail (ErrIO a0)
        | Some executable =>
            plain MODULE jobType
                  (Base64.EncodeToString executable :: rest) jobArgs
        end
    end
  else if String.eqb jobType "Minidump" then
    plain MODULE jobType jobArgs jobArgs
  else if String.eqb jobType "netstat" then plain MODULE jobType jobArgs jobArgs
  else if String.eqb jobType "nslookup" then
    plain NATIVE jobType jobArgs jobArgs
  else if String.eqb jobType "padding" then
    named_by_first CONTROL (fun n => Nat.eqb n 2) jobArgs
  else if String.eqb jobType "pipes" then plain MODULE "pipes" [] jobArgs
  else if String.eqb jobType "ps" then plain MODULE "ps" [] jobArgs
  else if String.eqb jobType "pwd" then
    named_by_first NATIVE (fun _ => false) jobArgs
  else if String.eqb jobType "rm" then
    (* jobArgs[0:1]; the slice is taken to have no capacity beyond its
       length, so slicing an empty vector is out of bounds *)
    match jobArgs with
    | [] => Crash SliceBounds
    | a0 :: _ => plain NATIVE jobType [a0] jobArgs
    end
  else if (String.eqb jobType "run" || String.eqb jobType "exec")%bool then
    named_by_first CMD (fun n => Nat.ltb 1 n) jobArgs
  else if String.eqb jobType "runas" then plain MODULE jobType jobArgs jobArgs
  else if String.eqb jobType "sdelete" then plain NATIVE jobType jobArgs jobArgs
  else if String.eqb jobType "shell" then plain CMD jobType jobArgs jobArgs
  else if String.eqb jobType "shellcode" then
    match jobArgs with
    | [] => Crash IndexOutOfRange
    | method :: rest =>
        if String.eqb method "self" then
          match rest with
          | [] => Crash IndexOutOfRange
          | a1 :: _ =>
              Ok (typed SHELLCODE (PShellcode (mkShellcode method a1 0)),
                  jobArgs)
          end
        else if (String.eqb method "remote"
                 || String.eqb method "rtlcreateuserthread"
                 || String.eqb method "userapc")%bool then
          match rest with
          | [] => Crash IndexOutOfRange
          | a1 :: rest' =>
              match Bytes.Atoi a1 with
              | None => Fail (ErrAtoi a1)
              | Some i =>
                  match rest' with
                  | [] => Crash IndexOutOfRange
                  | a2 :: _ =>
                      Ok (typed SHELLCODE
                            (PShellcode (mkShellcode method a2 (uint32 i))),
                          jobArgs)
                  end
              end
          end
        else Ok (typed SHELLCODE (PShellcode (mkShellcode method "" 0)),
                 jobArgs)
    end
  else if String.eqb jobType "skew" then
    named_by_first CONTROL (fun n => Nat.eqb n 2) jobArgs
  else if String.eqb jobType "sleep" then
    named_by_first CONTROL (fun n => Nat.eqb n 2) jobArgs
  else if String.eqb jobType "ssh" then plain MODULE jobType jobArgs jobArgs
  else if String.eqb jobType "token" then plain MODULE jobType jobArgs jobArgs
  else if String.eqb jobType "touch" then plain NATIVE jobType jobArgs jobArgs
  else if String.eqb jobType "unlink" then plain MODULE "unlink" jobArgs jobArgs
  else if String.eqb jobType "upload" then
    if Nat.ltb (length jobArgs) 2 then Fail (ErrArguments jobType jobArgs)
    else
      match os.ReadFile files (nth 0 jobArgs "") with
      | None => Fail (ErrIO (nth 0 jobArgs ""))
      | Some uploadFile =>
          let hash := SHA256.Sum uploadFile in
          let jobArgs1 := if Nat.ltb 2 (length jobArgs)
                          then <[2 := hash]> jobArgs
                          else jobArgs ++ [hash] in
          let size := Bytes.decimal (N.of_nat (String.length uploadFile)) in
          let jobArgs2 := if Nat.ltb 3 (length jobArgs1)
                          then <[3 := size]> jobArgs1
                          else jobArgs1 ++ [size] in
          Ok (typed FILETRANSFER
                (PFileTransfer
                   (mkFileTransfer (nth 1 jobArgs2 "")
                                   (Base64.EncodeToString uploadFile) true)),
              jobArgs2)
      end
  else if String.eqb jobType "uptime" then plain MODULE "uptime" [] jobArgs
  else Fail ErrUnknownKind.

(** The [%+v] of a payload, for the summary of a job whose type has no
    case of its own in [buildJob]. *)
Definition fmt_payload (p : Payload) : string :=
  match p with
  | PNil => "<nil>"
  | PCommand c =>
      "{Command:" ++ Command_Command c ++ " Args:["
        ++ Bytes.Join (Command_Args c) " " ++ "]}"
  | PFileTransfer f =>
      "{FileLocation:" ++ FileLocation f ++ " FileBlob:" ++ FileBlob f
        ++ " IsDownload:" ++ (if IsDownload f then "true" else "false") ++ "}"
  | PShellcode c =>
      "{Method:" ++ Method c ++ " Bytes:" ++ Bytes_ c ++ " PID:"
        ++ Bytes.decimal (PID c) ++ "}"
  | PSocks c =>
      "{ID:" ++ UUID_String (Socks_ID c) ++ " Index:"
        ++ Bytes.decimal (Socks_Index c) ++ " Data:" ++ Socks_Data c
        ++ " Close:" ++ (if Socks_Close c then "true" else "false") ++ "}"
  | PResults r => "{Stdout:" ++ Stdout r ++ " Stderr:" ++ Stderr r ++ "}"
  | PAgentInfo a => "{" ++ AgentInfo_raw a ++ "}"
  end.

(** The arguments of a summary, cut after 30 bytes. *)
Definition truncate30 (args : string) : string :=
  if Nat.ltb 30 (String.length args) then Bytes.prefix 30 args ++ "..." else args.

(** The [switch job.Type] of [buildJob]: the summary of the job, with the
    lines it writes to the log of the agent on the way. *)
Definition describe (w : World) (agent : UUID) (job : Job)
  (jobArgs : list string) : Outcome string * World :=
  match Job_Type job with
  | CONTROL | MODULE | NATIVE =>
      match Job_Payload job with
      | PCommand cmd =>
          let logged : Outcome World :=
            if bool_decide (Job_Type job = MODULE) then
              if String.eqb (Bytes.ToLower (Command_Command cmd)) "clr" then
                match Command_Args cmd with
                | [] => Crash IndexOutOfRange
                | a0 :: _ =>
                    if String.eqb (Bytes.ToLower a0) "load-assembly" then
                      if Nat.ltb 2 (length jobArgs) then
                        Ok (agent_Log w agent
                              (TxtLoadingAssembly (nth 0 jobArgs "")
                                                  (nth 2 jobArgs "")))
                      else Ok w
                    else Ok w
                end
              else Ok w
            else Ok w in
          match logged with
          | Ok w1 =>
              let args := truncate30 (Bytes.Join (Command_Args cmd) " ") in
              (Ok (Command_Command cmd ++ " " ++ args)%string, w1)
          | Fail e => (Fail e, w)
          | Crash p => (Crash p, w)
          end
      | _ => (Crash TypeAssertion, w)
      end
  | CMD =>
      match Job_Payload job with
      | PCommand cmd =>
          let args := truncate30 (Bytes.Join (Command_Args cmd) " ") in
          if String.eqb (Bytes.ToLower (Command_Command cmd)) "shell" then
            (Ok (Bytes.TrimSpace (Command_Command cmd ++ " " ++ args)%string), w)
          else
            (Ok (Bytes.TrimSpace
                   ("run " ++ Command_Command cmd ++ " " ++ args)%string), w)
      | _ => (Crash TypeAssertion, w)
      end
  | FILETRANSFER =>
      match Job_Payload job with
      | PFileTransfer cmd =>
          if IsDownload cmd then
            if Nat.ltb 2 (length jobArgs) then
              match nth_error jobArgs 3 with
              | None => (Crash IndexOutOfRange, w)
              | Some a3 =>
                  (Ok ("upload " ++ nth 0 jobArgs "" ++ " " ++ nth 1 jobArgs "")%string,
                   agent_Log w agent
                     (TxtUploading (nth 0 jobArgs "") a3
                                   (Hex.encode (nth 2 jobArgs ""))
                                   (nth 1 jobArgs "")))
              end
            else (Ok "", w)
          else
            if Nat.ltb 0 (length jobArgs) then
              (Ok ("download " ++ nth 0 jobArgs "")%string,
               agent_Log w agent (TxtDownloading (nth 0 jobArgs "")))
            else (Ok "", w)
      | _ => (Crash TypeAssertion, w)
      end
  | SHELLCODE =>
      match Job_Payload job with
      | PShellcode cmd =>
          (Ok ("shellcode " ++ Method cmd ++ " " ++ Bytes.decimal (PID cmd)
                 ++ " length "
                 ++ Bytes.decimal (N.of_nat (String.length (Bytes_ cmd))))%string,
           w)
      | _ => (Crash TypeAssertion, w)
      end
  | SOCKS =>
      match Job_Payload job with
      | PSocks conn =>
          (Ok ("SOCKS connection " ++ UUID_String (Socks_ID conn) ++ " packet "
                 ++ Bytes.decimal (Socks_Index conn))%string, w)
      | _ => (Crash TypeAssertion, w)
      end
  | _ =>
      (Ok (jobs_String (Job_Type job) ++ " "
             ++ fmt_payload (Job_Payload job))%string,
       Printf w (TxtRaw ("DEFAULT" ++ LF)%string))
  end.

Section Builder.

(** The random source behind [jobs.NewInfo]: the identifier and the token
    of the [n]-th record created by the process. *)
Variable rand : nat -> string * UUID.

(** Modelled from the spec: [jobs.NewInfo] gives a record a fresh
    identifier and token, the status [CREATED] and the creation instant
    (section 3). *)
Definition NewInfo (w : World) (agentID : UUID) (jobType command : string)
  : JobInfo * World :=
  let '(now, w1) := Now w in
  (mkInfo (fst (rand (entropy w))) agentID jobType (snd (rand (entropy w)))
          CREATED command now 0 0,
   mkWorld (jobRepo w1) (agents w1) (agentInfo w1) (agentLog w1)
           (broadcast w1) (socksIn w1) (stdout w1) (fs w1) (clock w1)
           (S (entropy w1)) (coreDebug w1) (CurrentDir w1)).

(** [buildJob] works on the job behind the pointer it is given: the job
    it returns is that job after the call. *)
Definition buildJob (w : World) (agentID : UUID) (job : Job)
  (jobArgs : list string) : Outcome unit * Job * World :=
  match Agent w agentID with
  | None => (Fail (ErrUnknownAgent agentID), job, w)
  | Some agent =>
      let job1 := mkJob (Job_ID job) agentID (Job_Token job) (Job_Type job)
                        (Job_Payload job) in
      match describe w agent job1 jobArgs with
      | (Fail e, w1) => (Fail e, job1, w1)
      | (Crash p, w1) => (Crash p, job1, w1)
      | (Ok command, w1) =>
          let '(jobInfo, w2) :=
            NewInfo w1 agentID (jobs_String (Job_Type job1)) command in
          let job2 :=
            if bool_decide (Job_Token job1 = uuid_Nil)
            then mkJob (Job_ID job1) (Job_AgentID job1) (Info_Token jobInfo)
                       (Job_Type job1) (Job_Payload job1)
            else job1 in
          let job3 :=
            if String.eqb (Job_ID job2) ""
            then mkJob (Info_ID jobInfo) (Job_AgentID job2) (Job_Token job2)
                       (Job_Type job2) (Job_Payload job2)
            else job2 in
          (* the job and its record go to the repository; whatever the
             repository reports back is dropped *)
          let w3 := match memory.Add (jobRepo w2) job3 jobInfo with
                    | Some r => with_repo w2 r
                    | None => w2
                    end in
          let w4 := agent_Log w3 agent
                      (TxtCreatedJob (Job_Type job3) (Job_ID job3) command) in
          (Ok tt, job3, w4)
      end
  end.

(** One line of the [results] text of [AddJobChannel]. *)
Inductive ResultLine :=
| CreatingForAll
| CreatedFor (id : string) (agentID : UUID) (at_ : Instant).

(** The [for _, a := range agents] of [AddJobChannel]; every iteration is
    handed the same job pointer. *)
Fixpoint forAgents (w : World) (known : list UUID) (job : Job)
  (jobArgs : list string) (results : list ResultLine)
  : list ResultLine * Outcome unit * Job * World :=
  match known with
  | [] => (results, Ok tt, job, w)
  | a :: rest =>
      match buildJob w a job jobArgs with
      | (Ok _, job1, w1) =>
          let '(now, w2) := Now w1 in
          forAgents w2 rest job1 jobArgs
                    (results ++ [CreatedFor (Job_ID job1) a now])
      | (Fail e, job1, w1) => (results, Fail e, job1, w1)
      | (Crash p, job1, w1) => (results, Crash p, job1, w1)
      end
  end.

Definition AddJobChannel (w : World) (agentID : UUID) (job : Job)
  (jobArgs : list string) : list ResultLine * Outcome unit * Job * World :=
  let known := Agents w in
  if String.eqb (UUID_String agentID) "ffffffff-ffff-ffff-ffff-ffffffffffff"
  then
    if Nat.leb (length known) 0 then ([], Fail ErrNoAgents, job, w)
    else forAgents w known job jobArgs [CreatingForAll]
  else
    match buildJob w agentID job jobArgs with
    | (Ok _, job1, w1) =>
        let '(now, w2) := Now w1 in
        ([CreatedFor (Job_ID job1) agentID now], Ok tt, job1, w2)
    | (Fail e, job1, w1) => ([], Fail e, job1, w1)
    | (Crash p, job1, w1) => ([], Crash p, job1, w1)
    end.

Definition Add (w : World) (agentID : UUID) (jobType : string)
  (jobArgs : list string) : list ResultLine * Outcome unit * World :=
  match build (fs w) jobType jobArgs with
  | Ok (job, jobArgs') =>
      let '(results, err, _, w') := AddJobChannel w agentID job jobArgs' in
      (results, err, w')
  | Fail e => ([], Fail e, w)
  | Crash p => ([], Crash p, w)
  end.

(** One turn of the endless [for] of [socksJobs]: a frame of the SOCKS
    layer is built into a job against its agent. *)
Definition socksJobs_step (w : World) (job : Job) : Outcome unit * World :=
  let '(err, _, w') := buildJob w (Job_AgentID job) job [] in (err, w').

End Builder.

(** [checkJob] reads the world and changes nothing: [None] is the nil
    error. *)
Definition checkJob (w : World) (job : Job) : option Error :=
  if negb (Exist w (Job_AgentID job)) then
    Some (ErrInvalidAgent (Job_ID job) (Job_AgentID job))
  else
    match memory.GetInfo (jobRepo w) (Job_ID job) with
    | None => Some (ErrUnknownJob InCheckJob (Job_ID job))
    | Some j =>
        if negb (bool_decide (Job_Token job = Info_Token j)) then
          Some (ErrBadToken (Job_ID job) (Job_AgentID job) (Info_Token j)
                            (Job_Token job))
        else if bool_decide (Info_Status j = COMPLETE) then
          Some (ErrAlreadyTerminal (Job_ID job) (Job_AgentID job) COMPLETE
                                   (Info_Completed j))
        else if bool_decide (Info_Status j = CANCELED) then
          Some (ErrAlreadyTerminal (Job_ID job) (Job_AgentID job) CANCELED 0)
        else None
    end.

(** [Clear] and [Get] pass through to the repository ([Get] stamps the
    drained records with the current instant). *)
Definition Clear (w : World) (agentID : UUID) : World :=
  with_repo w (memory.Clear (jobRepo w) agentID).

Definition Get (w : World) (agentID : UUID) : list Job * World :=
  let '(now, w1) := Now w in
  let '(js, r) := memory.GetJobs (jobRepo w1) agentID now in
  (js, with_repo w1 r).

(** The error path shared by the three failures of [fileTransfer]: the
    error is written to the log of the agent and returned. *)
Definition log_and_fail (w : World) (agentID : UUID) (errorMessage : Error)
  : Outcome unit * World :=
  match agentService_Log w agentID (TxtError errorMessage) with
  | None => (Fail (ErrBoth errorMessage (ErrAgentLog agentID)), w)
  | Some w1 => (Fail errorMessage, w1)
  end.

(** The mode [0600] *)
Definition mode_0600 : N := 384%N.

Definition fileTransfer (w : World) (agentID : UUID) (p : FileTransfer)
  : Outcome unit * World :=
  if negb (Exist w agentID) then (Fail (ErrNotValidAgent agentID), w)
  else if IsDownload p then
    let agentsDir := filepath.Join [CurrentDir w; "data"; "agents"] in
    let f := snd (filepath.Split (FileLocation p)) in
    if os.IsNotExist (fs w) agentsDir then
      log_and_fail w agentID (ErrAgentsDir agentsDir)
    else
      let '(t1, w1) := Now w in
      let '(t2, w2) := Now w1 in
      let w3 := SendBroadcastMessage w2
                  (mkUserMessage Success t1 (TxtResultsFor agentID t2)) in
      match Base64.DecodeString (FileBlob p) with
      | None => log_and_fail w3 agentID ErrDecodeBlob
      | Some downloadBlob =>
          let downloadFile :=
            filepath.Join [agentsDir; UUID_String agentID; f] in
          match os.WriteFile (fs w3) downloadFile downloadBlob mode_0600 with
          | None => log_and_fail w3 agentID (ErrWriting (FileLocation p))
          | Some fs' =>
              let w4 := with_fs w3 fs' in
              let successMessage :=
                TxtDownloaded (FileLocation p) (String.length downloadBlob)
                              agentID downloadFile in
              let '(t3, w5) := Now w4 in
              let w6 := SendBroadcastMessage w5
                          (mkUserMessage Success t3 successMessage) in
              match agentService_Log w6 agentID successMessage with
              | None => (Fail (ErrAgentLog agentID), w6)
              | Some w7 => (Ok tt, w7)
              end
          end
      end
  else (Ok tt, w).

(** The [switch job.Type] of [Handler]. *)
Definition dispatch (w : World) (agent : UUID) (job : Job)
  : Outcome unit * World :=
  match Job_Type job with
  | RESULT =>
      let w1 := agent_Log w agent (TxtResultsForJob (Job_ID job)) in
      let '(t1, w2) := Now w1 in
      let '(t2, w3) := Now w2 in
      let w4 := SendBroadcastMessage w3
                  (mkUserMessage Note t1
                     (TxtResultsJob (Job_ID job) (Job_AgentID job) t2)) in
      match Job_Payload job with
      | PResults result =>
          let w6 :=
            if Nat.ltb 0 (String.length (Stdout result)) then
              let w5 := agent_Log w4 agent (TxtStdout (Stdout result)) in
              let '(t, w5') := Now w5 in
              SendBroadcastMessage w5'
                (mkUserMessage Success t (TxtRaw (Stdout result)))
            else w4 in
          let w8 :=
            if Nat.ltb 0 (String.length (Stderr result)) then
              let w7 := agent_Log w6 agent (TxtStderr (Stderr result)) in
              let '(t, w7') := Now w7 in
              SendBroadcastMessage w7'
                (mkUserMessage Warn t (TxtRaw (Stderr result)))
            else w6 in
          (Ok tt, w8)
      | _ => (Crash TypeAssertion, w4)
      end
  | AGENTINFO =>
      match Job_Payload job with
      | PAgentInfo info =>
          match UpdateAgentInfo w (Job_AgentID job) info with
          | Some w1 => (Ok tt, w1)
          | None => (Fail (ErrUpdateAgentInfo (Job_AgentID job)), w)
          end
      | _ => (Crash TypeAssertion, w)
      end
  | FILETRANSFER =>
      match Job_Payload job with
      | PFileTransfer p => fileTransfer w (Job_AgentID job) p
      | _ => (Crash TypeAssertion, w)
      end
  | SOCKS => (Ok tt, socks_In w job)
  | _ => (Ok tt, w)
  end.

(** The update of the tracking record that closes one turn of [Handler]. *)
Definition advance (w : World) (job : Job) (jobInfo : JobInfo)
  : Outcome unit * World :=
  let stepped : Outcome (JobInfo * World) :=
    if bool_decide (Job_Type job = SOCKS) then
      match Job_Payload job with
      | PSocks conn =>
          if Socks_Close conn then
            let '(now, w1) := Now w in Ok (Info_Complete jobInfo now, w1)
          else Ok (Info_Active jobInfo, w)
      | _ => Crash TypeAssertion
      end
    else
      let '(now, w1) := Now w in Ok (Info_Complete jobInfo now, w1) in
  match stepped with
  | Ok (jobInfo', w1) =>
      match memory.UpdateInfo (jobRepo w1) jobInfo' with
      | Some r => (Ok tt, with_repo w1 r)
      | None => (Fail (ErrUpdateInfo (Info_ID jobInfo')), w1)
      end
  | Fail e => (Fail e, w)
  | Crash p => (Crash p, w)
  end.

(** The body of the [for _, job := range agentJobs] of [Handler]. *)
Definition handleJob (w : World) (job : Job) : Outcome unit * World :=
  if Exist w (Job_AgentID job) then
    match Agent w (Job_AgentID job) with
    | None => (Fail (ErrUnknownAgent (Job_AgentID job)), w)
    | Some agent =>
        match memory.GetInfo (jobRepo w) (Job_ID job) with
        | None => (Fail (ErrUnknownJob InHandler (Job_ID job)), w)
        | Some jobInfo =>
            let checked : Outcome World :=
              match checkJob w job with
              | Some err =>
                  if negb (bool_decide (Job_Type job = RESULT)) then Fail err
                  else if coreDebug w
                       then Ok (Printf w (TxtNoToken (Job_Type job) err))
                       else Ok w
              | None => Ok w
              end in
            match checked with
            | Fail e => (Fail e, w)
            | Crash p => (Crash p, w)
            | Ok w1 =>
                match dispatch w1 agent job with
                | (Ok _, w2) => advance w2 job jobInfo
                | failed => failed
                end
            end
        end
    end
  else
    let '(now, w1) := Now w in
    (Ok tt,
     SendBroadcastMessage w1
       (mkUserMessage Warn now
          (TxtInvalidAgent (Job_ID job) (Job_AgentID job)))).

(** [Handler]: the jobs of the batch in order; the first error ends it. *)
Fixpoint Handler (w : World) (agentJobs : list Job) : Outcome unit * World :=
  match agentJobs with
  | [] => (Ok tt, w)
  | job :: rest =>
      match handleJob w job with
      | (Ok _, w1) => Handler w1 rest
      | failed => failed
      end
  end.

(** ** The factory of the service

    The package variable [memoryService] holds nil or the address of the
    one [Service]; every [go memoryService.socksJobs()] adds a worker. *)
Record Process := mkProcess {
  memoryService : option nat;   (* nil, or the address of the Service *)
  allocated : nat;              (* Service values allocated so far *)
  workers : list nat            (* the service each running worker serves *)
}.

Definition boot : Process := mkProcess None 0 [].

Definition NewJobService (p : Process) : nat * Process :=
  let p1 := match memoryService p with
            | None => mkProcess (Some (allocated p)) (S (allocated p)) (workers p)
            | Some _ => p
            end in
  let svc := default 0 (memoryService p1) in
  (svc, mkProcess (memoryService p1) (allocated p1) (workers p1 ++ [svc])).

(** [n] calls of the factory in a row: what each call returned, and the
    process after the last one. *)
Fixpoint calls (n : nat) (p : Process) : list nat * Process :=
  match n with
  | O => ([], p)
  | S n' =>
      let '(svc, p1) := NewJobService p in
      let '(rest, p2) := calls n' p1 in
      (svc :: rest, p2)
  end.

(** [WithJobMemoryRepository] *)
Definition WithJobMemoryRepository : memory.Repository := memory.NewRepository.

(** The directory [fileTransfer] looks for, and the file it writes for a
    transfer [p] of agent [agentID]. *)
Definition agentsDir (w : World) : string :=
  filepath.Join [CurrentDir w; "data"; "agents"].

Definition downloadFile (w : World) (agentID : UUID) (p : FileTransfer)
  : string :=
  filepath.Join [agentsDir w; UUID_String agentID;
                 snd (filepath.Split (FileLocation p))].

(** ** Notions the properties are stated with *)

(** The status the specification gives to the record of an accepted job:
    ACTIVE for a SOCKS frame that does not close the connection, COMPLETE
    for a closing SOCKS frame and for every other type. *)
Definition expected_status (job : Job) : Status :=
  match Job_Type job, Job_Payload job with
  | SOCKS, PSocks conn => if Socks_Close conn then COMPLETE else ACTIVE
  | _, _ => COMPLETE
  end.

(** What [describe] leaves alone in the world. *)
Definition keeps (w w1 : World) : Prop :=
  jobRepo w1 = jobRepo w /\ entropy w1 = entropy w /\ agents w1 = agents w
  /\ clock w1 = clock w /\ fs w1 = fs w.

(** The jobs [describe] summarises without a panic: the payload has the
    dynamic type its type tag calls for, a [clr] module command has a
    first argument, and an upload has its size at index 3 whenever it has
    its digest at index 2. *)
Definition describable (job : Job) (jobArgs : list string) : bool :=
  match Job_Type job, Job_Payload job with
  | CONTROL, PCommand _ | NATIVE, PCommand _ | CMD, PCommand _ => true
  | MODULE, PCommand cmd =>
      negb (String.eqb (Bytes.ToLower (Command_Command cmd)) "clr")
      || negb (Nat.eqb (length (Command_Args cmd)) 0)
  | FILETRANSFER, PFileTransfer p =>
      negb (IsDownload p) || negb (Nat.ltb 2 (length jobArgs))
      || Nat.ltb 3 (length jobArgs)
  | SHELLCODE, PShellcode _ | SOCKS, PSocks _ => true
  | UNDEFINED, _ | RESULT, _ | AGENTINFO, _ => true
  | _, _ => false
  end.

(** The kinds whose case in [Add] reads [jobArgs[0]] (or slices
    [jobArgs[0:1]]) without looking at the length first. *)
Definition unguarded_kinds : list string :=
  ["download"; "changelistener"; "exit"; "ja3"; "killdate"; "maxretry";
   "padding"; "pwd"; "rm"; "run"; "exec"; "shellcode"; "skew"; "sleep"].

(** ** A small world to run the service in *)

(** The [n]-th record gets the identifier [job<n>] and the token
    [1000 + n]. *)
Definition demo_rand (n : nat) : string * UUID :=
  (("job" ++ Bytes.decimal (N.of_nat n))%string, (1000 + N.of_nat n)%N).

Definition agentA : UUID := 0x0a0a0a0a0a0a0a0a0a0a0a0a0a0a0a0a%N.
Definition agentB : UUID := 0x0b0b0b0b0b0b0b0b0b0b0b0b0b0b0b0b%N.
Definition agentC : UUID := 0x0c0c0c0c0c0c0c0c0c0c0c0c0c0c0c0c%N.

(** The agents directory, the directory of agent A, and one five-byte
    file to upload. *)
Definition demo_fs : os.FileSystem :=
  os.mkFS
    {[ "/srv/merlin/data/agents";
       "/srv/merlin/data/agents/0a0a0a0a-0a0a-0a0a-0a0a-0a0a0a0a0a0a" ]}
    {[ "/tmp/x" := os.mkFile "hello" 420%N ]}.

(** A fresh service with the given agents. *)
Definition demo_world (known : list UUID) : World :=
  mkWorld memory.NewRepository known [] [] [] [] [] demo_fs 1 0 false
          "/srv/merlin".

(** A record of agent A with token 1000, and the world that tracks it. *)
Definition tracked (id : string) (t : JobType) (s : Status) : JobInfo :=
  mkInfo id agentA (jobs_String t) 1000%N s "" 1 2 0.

Definition world_with (i : JobInfo) : World :=
  mkWorld (memory.mkRepo ∅ {[ Info_ID i := i ]}) [agentA] [] [] [] [] []
          demo_fs 5 1 false "/srv/merlin".

(** The world of [world_with], before any identifier was drawn: the next
    record will be given the identifier [job0], which is taken. *)
Definition taken_world : World :=
  mkWorld (memory.mkRepo ∅ {[ "job0" := tracked "job0" CMD SENT ]}) [agentA]
          [] [] [] [] [] demo_fs 5 0 false "/srv/merlin".

(** Inbound jobs of agent A for the record [job0]. *)
Definition result_job (token : UUID) : Job :=
  mkJob "job0" agentA token RESULT (PResults (mkResults "uid=0(root)" "")).

Definition socks_job (close : bool) : Job :=
  mkJob "job0" agentA 1000%N SOCKS (PSocks (mkSocks 77%N 0%N "" close)).

Definition agentinfo_job : Job :=
  mkJob "job0" agentA 1000%N AGENTINFO (PAgentInfo (mkAgentInfo "linux/amd64")).

Definition passwd_job (download : bool) : Job :=
  mkJob "job0" agentA 1000%N FILETRANSFER
        (PFileTransfer (mkFileTransfer "/etc/passwd" "Zm9v" download)).

Definition passwd_dest : string :=
  "/srv/merlin/data/agents/0a0a0a0a-0a0a-0a0a-0a0a-0a0a0a0a0a0a/passwd".

(** ** Tactics for the cases of [build] *)

Ltac build_branch H :=
  unfold plain, named_by_first, typed in H;
  repeat match type of H with
         | context [match ?x with _ => _ end] =>
             destruct x eqn:?; try discriminate H
         | context [if ?b then _ else _] =>
             destruct b eqn:?; try discriminate H
         end;
  injection H as <- <-.

Ltac build_chain H kind tac :=
  lazymatch type of H with
  | context [String.eqb kind ?s] =>
      let E := fresh "E" in
      destruct (String.eqb kind s) eqn:E; cbn [orb] in H;
      [ apply String.eqb_eq in E; subst kind; build_branch H; tac
      | clear E; build_chain H kind tac ]
  | _ => try discriminate H
  end.

Ltac upload_case :=
  unfold describable; cbn [Job_Type Job_Payload IsDownload negb orb];
  repeat match goal with
         | H : Nat.ltb _ _ = true |- _ => apply Nat.ltb_lt in H
         | H : Nat.ltb _ _ = false |- _ => apply Nat.ltb_ge in H
         end;
  apply orb_true_iff; right; apply Nat.ltb_lt;
  rewrite ?length_app in *; rewrite ?length_insert in *;
  cbn [length] in *; lia.

(** ** The rest of the job service *)

(** Modelled from the spec: [clear_all()] of the repository cancels the
    queued jobs of every agent (section 4.2). *)
Definition memory_ClearAll (r : memory.Repository) : memory.Repository :=
  fold_left memory.Clear (map fst (map_to_list (memory.queue r))) r.

(** [ClearAll] passes through to the repository. *)
Definition ClearAll (w : World) : World :=
  with_repo w (memory_ClearAll (jobRepo w)).

Section Tables.

(** [Time.Format(time.RFC3339)] and the [%d] of a status constant: the
    clock format and the numbering of package [jobs] are not part of the
    service. *)
Variable RFC3339 : Instant -> string.
Variable status_number : Status -> N.

(** The [switch job.Status()] of [GetTableActive]. *)
Definition status_text_active (s : Status) : string :=
  match s with
  | ACTIVE => "Active"
  | CREATED => "Created"
  | SENT => "Sent"
  | RETURNED => "Returned"
  | _ => "Unknown job status: " ++ Bytes.decimal (status_number s)
  end.

(** The [switch job.Status()] of [GetTableAll], which has no case for
    [ACTIVE]. *)
Definition status_text_all (s : Status) : string :=
  match s with
  | CREATED => "Created"
  | SENT => "Sent"
  | RETURNED => "Returned"
  | _ => "Unknown job status: " ++ Bytes.decimal (status_number s)
  end.

(** [job.Status() != jobs.COMPLETE && job.Status() != jobs.CANCELED] *)
Definition listed (job : JobInfo) : bool :=
  negb (bool_decide (Info_Status job = COMPLETE))
  && negb (bool_decide (Info_Status job = CANCELED)).

(** The text of the sent column: empty for the zero time. *)
Definition sent_text (job : JobInfo) : string :=
  if negb (Nat.eqb (Info_Sent job) 0) then RFC3339 (Info_Sent job) else "".

(** The body of the loop of [GetTableActive]: the rows one record adds. *)
Definition active_rows (agentID : UUID) (entry : string * JobInfo)
  : list (list string) :=
  let '(id, job) := entry in
  if bool_decide (Info_AgentID job = agentID) then
    if listed job then
      [[id; Info_Command job; status_text_active (Info_Status job);
        RFC3339 (Info_Created job); sent_text job]]
    else []
  else [].

(** [GetTableActive]; the records are visited in the order of
    [map_to_list], Go leaves the order of a map range open. *)
Definition GetTableActive (w : World) (agentID : UUID)
  : Outcome (list (list string)) :=
  if negb (Exist w agentID) then Fail (ErrNotValidAgent agentID)
  else Ok (flat_map (active_rows agentID)
                    (map_to_list (memory.GetAll (jobRepo w)))).

(** The body of the loop of [GetTableAll]. *)
Definition all_rows (entry : string * JobInfo) : list (list string) :=
  let '(id, job) := entry in
  if listed job then
    [[UUID_String (Info_AgentID job); id; Info_Command job;
      status_text_all (Info_Status job); RFC3339 (Info_Created job);
      sent_text job]]
  else [].

Definition GetTableAll (w : World) : list (list string) :=
  flat_map all_rows (map_to_list (memory.GetAll (jobRepo w))).

End Tables.

(** ** The vocabulary of [Add] *)

(** The [case] labels of the [switch jobType] of [Add], in source order. *)
Definition job_kinds : list string :=
  ["agentInfo"; "download"; "cd"; "changelistener"; "CreateProcess"; "env";
   "exit"; "ifconfig"; "initialize"; "invoke-assembly"; "ja3"; "killdate";
   "killprocess"; "link"; "listener"; "list-assemblies"; "load-assembly";
   "load-clr"; "ls"; "maxretry"; "memory"; "memfd"; "Minidump"; "netstat";
   "nslookup"; "padding"; "pipes"; "ps"; "pwd"; "rm"; "run"; "exec"; "runas";
   "sdelete"; "shell"; "shellcode"; "skew"; "sleep"; "ssh"; "token"; "touch";
   "unlink"; "upload"; "uptime"].

Definition is_job_kind (kind : string) : bool :=
  existsb (String.eqb kind) job_kinds.

(** The [job.Type] each case of [Add] assigns. *)
Definition kinds_of_type (t : JobType) : list string :=
  match t with
  | CONTROL =>
      ["agentInfo"; "changelistener"; "exit"; "initialize"; "ja3"; "killdate";
       "maxretry"; "padding"; "skew"; "sleep"]
  | NATIVE =>
      ["cd"; "env"; "ifconfig"; "killprocess"; "ls"; "nslookup"; "pwd"; "rm";
       "sdelete"; "touch"]
  | CMD => ["run"; "exec"; "shell"]
  | MODULE =>
      ["CreateProcess"; "invoke-assembly"; "link"; "listener";
       "list-assemblies"; "load-assembly"; "load-clr"; "memory"; "memfd";
       "Minidump"; "netstat"; "pipes"; "ps"; "runas"; "ssh"; "token";
       "unlink"; "uptime"]
  | FILETRANSFER => ["download"; "upload"]
  | SHELLCODE => ["shellcode"]
  | _ => []
  end.

(** Two records that are the same job: they agree on everything but the
    status and the completion instant. *)
Definition same_job (i i' : JobInfo) : Prop :=
  Info_ID i' = Info_ID i /\ Info_AgentID i' = Info_AgentID i
  /\ Info_Type i' = Info_Type i /\ Info_Token i' = Info_Token i
  /\ Info_Command i' = Info_Command i /\ Info_Created i' = Info_Created i
  /\ Info_Sent i' = Info_Sent i.

(** What [Handler] never touches: the known agents, the queues, the set
    of recorded identifiers, the random source and the settings. *)
Definition handler_frame (w w' : World) : Prop :=
  agents w' = agents w
  /\ memory.queue (jobRepo w') = memory.queue (jobRepo w)
  /\ dom (memory.infos (jobRepo w')) = dom (memory.infos (jobRepo w))
  /\ entropy w' = entropy w
  /\ CurrentDir w' = CurrentDir w
  /\ coreDebug w' = coreDebug w.

(** The records after are the records before, each the same job. *)
Definition records_kept (w w' : World) : Prop :=
  memory.wf (jobRepo w) ->
  memory.wf (jobRepo w')
  /\ forall id i', memory.infos (jobRepo w') !! id = Some i' ->
       exists i, memory.infos (jobRepo w) !! id = Some i /\ same_job i i'.

(** ** Tactics for the names [build] does not know *)

Ltac refute_branch H :=
  unfold plain, named_by_first, typed in H;
  repeat match type of H with
         | context [match ?x with _ => _ end] =>
             destruct x eqn:?; try discriminate H
         | context [if ?b then _ else _] =>
             destruct b eqn:?; try discriminate H
         end;
  try discriminate H.

Ltac refute_chain H kind :=
  lazymatch type of H with
  | context [String.eqb kind ?s] =>
      let E := fresh "E" in
      destruct (String.eqb kind s) eqn:E; cbn [orb] in H |- *;
      [ solve [refute_branch H] | refute_chain H kind ]
  | _ => idtac
  end.

(** ** Notions for the base64 round trip *)

(** Every byte. *)
Definition all_ascii : list ascii := map ascii_of_nat (seq 0 256).

(** The four characters of a quantum, as [EncodeToString] computes them. *)
Definition q1 (a : ascii) : N := N.shiftr (N_of_ascii a) 2.
Definition q2 (a b : ascii) : N :=
  N.lor (N.shiftl (N.land (N_of_ascii a) 3) 4) (N.shiftr (N_of_ascii b) 4).
Definition q3 (b c : ascii) : N :=
  N.lor (N.shiftl (N.land (N_of_ascii b) 15) 2) (N.shiftr (N_of_ascii c) 6).
Definition q4 (c : ascii) : N := N.land (N_of_ascii c) 63.

(** A six-bit value whose character decodes back to it, is not the
    padding and is not dropped as a line break. *)
Definition sextet_ok (n : N) : Prop :=
  Base64.dec (Base64.enc n) = Some n
  /\ Ascii.eqb (Base64.enc n) "=" = false
  /\ Base64.strip_newlines (String (Base64.enc n) "")
     = String (Base64.enc n) "".

#[local] Instance sextet_ok_dec (n : N) : Decision (sextet_ok n).
Proof. unfold sextet_ok. apply _. Defined.

(** ** Names and paths *)

(** A string without a slash, and a name that is one path element: no
    slash, not empty, not [.] and not [..]. *)
Fixpoint slash_free (s : string) : bool :=
  match s with
  | EmptyString => true
  | String c s' => negb (Ascii.eqb c "/") && slash_free s'
  end.

Definition plain_name (f : string) : bool :=
  slash_free f && negb (String.eqb f "") && negb (String.eqb f ".")
  && negb (String.eqb f "..").

(** Whether a path starts at the root, and the elements [filepath.Clean]
    keeps of it. *)
Definition rooted (path : string) : bool :=
  match path with String "/" _ => true | _ => false end.

Definition cleaned (path : string) : list string :=
  filepath.clean_components (rooted path) [] (filepath.components "" path).

(** The directory of an agent under the agents directory. *)
Definition agentDir (w : World) (agentID : UUID) : string :=
  filepath.Join [agentsDir w; UUID_String agentID].

(** A clock format and a numbering of the statuses to run the tables
    with. *)
Definition demo_time (t : Instant) : string := Bytes.decimal (N.of_nat t).

Definition demo_status_number (s : Status) : N :=
  match s with
  | CREATED => 1 | SENT => 2 | RETURNED => 3 | COMPLETE => 4
  | CANCELED => 5 | ACTIVE => 6
  end%N.

(** * Package [cli/menu]: the agent menu of the console

    The menu works on two package variables, [agent] and [platform], and
    on the current menu; everything else it does is a call into another
    package.  A call that only has an effect is recorded in the trace, in
    the order of the source; a call whose answer the menu looks at is a
    parameter of the model. *)

Module menu.

(** The menus [Set] is called with in this file. *)
Inductive Menu := MAIN | AGENT.

(** The levels of [messages.UserMessage] this file fills in. *)
Inductive Level := Info | Warn | Plain.

(** [messages.UserMessage] without its instant, which is [time.Now()]. *)
Record UserMessage := mkUserMessage {
  UM_Level : Level;
  UM_Message : string;
  UM_Error : bool
}.

(** The functions of [agentAPI] whose answer goes to the message channel
    unread. *)
Inductive API :=
| CD | ClearJobs | Download | ExecuteAssembly | ExecutePE | ExecuteShellcode
| Exit | GroupAdd | GroupRemove | IFConfig | InvokeAssembly | JA3
| KillProcess | KillDate | ListAssemblies | LoadAssembly | LoadCLR | LS
| MaxRetry | MEMFD | Note | NSLOOKUP | Padding | PWD | CMD | SharpGen
| SecureDelete | Skew | Sleep | Upload | Remove.

(** A table handed to [tablewriter]; both tables of this file are set
    left-aligned and without border. *)
Record Table := mkTable {
  caption : option string;
  header : list string;
  rows : list (list string)
}.

Inductive Event :=
| Send (m : UserMessage)         (* core.MessageChannel <- m *)
| SendAPI (f : API) (agentID : UUID) (args : list string)
                                 (* core.MessageChannel <- agentAPI.f(...) *)
| GoSendAPI (f : API) (agentID : UUID) (args : list string)
                                 (* go func() { the same }() *)
| Confirm (question : string) (answer : bool)   (* core.Confirm *)
| DisplayTable (columns : list string) (body : list (list string))
                                 (* core.DisplayTable *)
| Println                        (* fmt.Println() *)
| Render (t : Table)             (* table.Render() *)
| CoreExit                       (* core.Exit() *)
| ExecuteCommand (name : string) (args : list string).
                                 (* core.ExecuteCommand *)

(** The package variables, the current menu and what was done so far.
    What follows a [CoreExit] in a trace is what the code goes on to do
    when that call returns. *)
Record CLI := mkCLI {
  agent : UUID;
  platform : string;
  current : Menu;
  trace : list Event
}.

Definition emit (st : CLI) (e : Event) : CLI :=
  mkCLI (agent st) (platform st) (current st) (trace st ++ [e]).

(** [Set(m)] *)
Definition Set_ (st : CLI) (m : Menu) : CLI :=
  mkCLI (agent st) (platform st) m (trace st).

Inductive Color := Green | Yellow | Red | Blue.

(** A completion item of [readline]: [PcItem] with its children, or
    [PcItemDynamic] with its callback. *)
Inductive Completer :=
| PcItem (name : string) (pc : list Completer)
| PcItemDynamic (callback : string -> list string).

Definition item_name (c : Completer) : option string :=
  match c with
  | PcItem name _ => Some name
  | PcItemDynamic _ => None
  end.

Section Console.

(** The answers of the other packages. *)
Variable confirm : string -> bool.                              (* core.Confirm *)
Variable GetAgents : list UUID.                                 (* agentAPI.GetAgents *)
Variable GetAgentInfo : UUID -> list (list string) * UserMessage.
Variable GetJobsForAgent : UUID -> list (list string) * UserMessage.
Variable GetAgentStatus : UUID -> string * UserMessage.
Variable GetAgentsRows : list string * list (list string).
Variable FromString : string -> option UUID.                    (* uuid.FromString *)
Variable colored : Color -> string -> string.                   (* color.GreenString, ... *)

(** [displayJobTable] *)
Definition displayJobTable (st : CLI) (rows : list (list string)) : CLI :=
  let table := mkTable None ["ID"; "Command"; "Status"; "Created"; "Sent"]
                       rows in
  emit (emit (emit st Println) (Render table)) Println.

(** [agentListCompleter] *)
Definition agentListCompleter : string -> list string :=
  fun line => map UUID_String GetAgents.

(** The three lists of [completerAgent]: the commands of every agent,
    those of Windows agents and those of Linux agents. *)
Definition completer_core : list Completer :=
  [PcItem "back" []; PcItem "cd" []; PcItem "clear" [];
   PcItem "download" []; PcItem "exit" [];
   PcItem "group" [PcItem "add" []; PcItem "remove" []];
   PcItem "help" []; PcItem "ifconfig" []; PcItem "info" [];
   PcItem "interact" [PcItemDynamic agentListCompleter];
   PcItem "ja3" []; PcItem "jobs" []; PcItem "kill" [];
   PcItem "killdate" []; PcItem "ls" []; PcItem "maxretry" [];
   PcItem "note" []; PcItem "padding" []; PcItem "pwd" [];
   PcItem "run" []; PcItem "main" []; PcItem "sdelete" [];
   PcItem "shell" []; PcItem "skew" []; PcItem "sleep" [];
   PcItem "status" []; PcItem "upload" []].

Definition completer_windows : list Completer :=
  [PcItem "execute-assembly" []; PcItem "execute-pe" [];
   PcItem "execute-shellcode"
     [PcItem "self" []; PcItem "remote" []; PcItem "RtlCreateUserThread" []];
   PcItem "invoke-assembly" []; PcItem "list-assemblies" [];
   PcItem "load-assembly" []; PcItem "sharpgen" []].

Definition completer_linux : list Completer := [PcItem "memfd" []].

(** [completerAgent]: the items handed to [readline.NewPrefixCompleter]. *)
Definition completerAgent (st : CLI) : list Completer :=
  let p := Bytes.ToLower (platform st) in
  if String.eqb p "linux" then completer_core ++ completer_linux
  else if String.eqb p "windows" then completer_core ++ completer_windows
  else completer_core.

(** The rows of [helpAgent]. *)
Definition help_base : list (list string) :=
  [["cd"; "Change directories"; "cd ../../ OR cd c:\\Users"];
   ["clear"; "Clear any UNSENT jobs from the queue"; ""];
   ["back"; "Return to the main menu"; ""];
   ["exit"; "Instruct the agent to exit and quit running"; ""];
   ["download"; "Download a file from the agent"; "download <remote_file>"];
   ["ifconfig"; "Displays host network adapter information"; ""];
   ["info"; "Display all information about the agent"; ""];
   ["ja3"; "Set the agent's JA3 client signature";
    "ja3 <ja3 signature string>"];
   ["jobs"; "Display all active jobs for the agent"; ""];
   ["kill"; "Kill a running process by its numerical identifier (pid)";
    "kill <pid>"];
   ["killdate"; "Set the epoch date/time the agent will quit running";
    "killdate <epoch date>"];
   ["ls"; "List directory contents";
    "ls /etc OR ls C:\\Users OR ls C:/Users"];
   ["main"; "Return to the main menu"; ""];
   ["maxretry";
    "Set the maximum amount of times the agent can fail to check in before it dies";
    "maxretery <number>"];
   ["note"; "Add a server-side note to the agent"; ""];
   ["nslookup"; "DNS query on host or ip"; "nslookup 8.8.8.8"];
   ["padding";
    "Set the maximum amount of random data appended to every message";
    "padding <number>"];
   ["pwd"; "Display the current working directory"; "pwd"];
   ["run"; "Execute a program directly, without using a shell";
    "run ping -c 3 8.8.8.8"];
   ["sdelete"; "Securely delete a file"; "sdelete <file path>"];
   ["shell"; "Execute a command on the agent using the host's default shell";
    "shell ping -c 3 8.8.8.8"];
   ["skew";
    "Set the amount of skew, or jitter, that an agent will use to checkin";
    "skew <number>"];
   ["sleep"; "Set the agent's sleep interval using Go time format";
    "sleep 30s"];
   ["status"; "Print the current status of the agent"; ""];
   ["upload"; "Upload a file to the agent";
    "upload <local_file> <remote_file>"];
   ["*"; "Anything else will be execute on the host operating system"; ""]].

Definition help_windows : list (list string) :=
  [["execute-assembly"; "Execute a .NET 4.0 assembly";
    "execute-assembly <assembly path> [<assembly args>, <spawnto path>, <spawnto args>]"];
   ["execute-pe"; "Execute a Windows PE (EXE)";
    "execute-pe <pe path> [<pe args>, <spawnto path>, <spawnto args>]"];
   ["execute-shellcode"; "Execute shellcode";
    "self, remote <pid>, RtlCreateUserThread <pid>"];
   ["invoke-assembly";
    "Invoke, or execute, a .NET assembly that was previously loaded into the agent's process";
    "<assembly name>, <assembly args>"];
   ["load-assembly"; "Load a .NET assembly into the agent's process";
    "<assembly path> [<assembly name>]"];
   ["list-assemblies";
    "List the .NET assemblies that are loaded into the agent's process"; ""];
   ["sharpgen"; "Use SharpGen to compile and execute a .NET assembly";
    "sharpgen <code> [<spawnto path>, <spawnto args>]"]].

Definition help_linux : list (list string) :=
  [["memfd"; "Execute Linux file in memory"; "<file path> [<arguments>]"]].

(** What [helpAgent] has appended to its table when it renders it. *)
Definition help_rows (st : CLI) : list (list string) :=
  if String.eqb (platform st) "windows" then help_base ++ help_windows
  else if String.eqb (platform st) "linux" then help_base ++ help_linux
  else help_base.

(** [helpAgent] *)
Definition helpAgent (st : CLI) : CLI :=
  let table := mkTable (Some "Agent Help Menu")
                       ["Command"; "Description"; "Options"]
                       (help_rows st) in
  let st1 := emit (emit (emit st Println) (Render table)) Println in
  emit st1
    (Send (mkUserMessage Info
             "Visit the wiki for additional information https://merlin-c2.readthedocs.io/en/latest/server/menu/agents.html"
             false)).

(** The [for i := range agentInfo] of [setAgent]: [None] is the panic of
    an index out of range. *)
Fixpoint scan_platform (agentInfo : list (list string)) (platform : string)
  : option string :=
  match agentInfo with
  | [] => Some platform
  | row :: rest =>
      match row with
      | [] => None
      | key :: values =>
          if String.eqb (Bytes.ToLower key) "platform" then
            match values with
            | [] => None
            | value :: _ => scan_platform rest value
            end
          else scan_platform rest platform
      end
  end.

(** The [for _, id := range agentList] of [setAgent]; a [return] in the
    body ends the walk. *)
Fixpoint setAgent_loop (st : CLI) (agentID : UUID) (agentList : list UUID)
  : Outcome CLI :=
  match agentList with
  | [] => Ok st
  | id :: rest =>
      if bool_decide (agentID = id) then
        let st1 := mkCLI agentID (platform st) (current st) (trace st) in
        let '(agentInfo, m) := GetAgentInfo (agent st1) in
        if UM_Error m then Ok (emit st1 (Send m))
        else
          match scan_platform agentInfo (platform st1) with
          | None => Crash IndexOutOfRange
          | Some p =>
              let st2 := mkCLI (agent st1) p (current st1) (trace st1) in
              if String.eqb (platform st2) "" then
                Ok (emit st2
                      (Send (mkUserMessage Warn
                               "Unable to determine the agent's platform. Try again after next checkin..."
                               true)))
              else setAgent_loop st2 agentID rest
          end
      else setAgent_loop st agentID rest
  end.

(** [setAgent] *)
Definition setAgent (st : CLI) (agentID : UUID) : Outcome CLI :=
  setAgent_loop st agentID GetAgents.

(** [interactAgent] *)
Definition interactAgent (st : CLI) (id : string) : Outcome CLI :=
  match FromString id with
  | None =>
      Ok (emit st
            (Send (mkUserMessage Warn
                     ("There was an error interacting with agent " ++ id)%string
                     true)))
  | Some agentID =>
      let st1 := mkCLI agentID (platform st) (current st) (trace st) in
      match setAgent st1 agentID with
      | Ok st2 => Ok (Set_ st2 AGENT)
      | failed => failed
      end
  end.

(** [removeAgent] *)
Definition removeAgent (st : CLI) (id : string) : CLI :=
  match FromString id with
  | None =>
      emit st
        (Send (mkUserMessage Warn
                 ("There was an error interacting with agent " ++ id)%string true))
  | Some i => emit st (SendAPI Remove i [])
  end.

Definition group_usage : UserMessage :=
  mkUserMessage Warn "Invalid arguments: 'group <add | remove> <groupname>"
                true.

(** [handlerAgent] *)
Definition handlerAgent (st : CLI) (cmd : list string) : Outcome CLI :=
  match cmd with
  | [] => Ok st
  | c :: _ =>
      let case := String.eqb c in
      let send f := Ok (emit st (SendAPI f (agent st) cmd)) in
      let send0 f := Ok (emit st (SendAPI f (agent st) [])) in
      let go f := Ok (emit st (GoSendAPI f (agent st) cmd)) in
      if case "back" then Ok (Set_ st MAIN)
      else if case "cd" then send CD
      else if (case "clear" || case "c")%bool then send0 ClearJobs
      else if case "download" then send Download
      else if (case "execute-assembly" || case "assembly")%bool
      then go ExecuteAssembly
      else if (case "execute-pe" || case "pe")%bool then go ExecutePE
      else if (case "execute-shellcode" || case "shinject")%bool
      then send ExecuteShellcode
      else if case "exit" then
        if Nat.ltb 1 (length cmd) then
          if String.eqb (Bytes.ToLower (nth 1 cmd "")) "-y"
          then Ok (Set_ (emit st (SendAPI Exit (agent st) cmd)) MAIN)
          else Ok st
        else
          let q := "Are you sure that you want to exit the agent?" in
          let st1 := emit st (Confirm q (confirm q)) in
          if confirm q
          then Ok (Set_ (emit st1 (SendAPI Exit (agent st1) cmd)) MAIN)
          else Ok st1
      else if case "group" then
        if negb (Nat.eqb (length cmd) 3) then Ok (emit st (Send group_usage))
        else if String.eqb (nth 1 cmd "") "add"
        then Ok (emit st (SendAPI GroupAdd (agent st) [nth 2 cmd ""]))
        else if String.eqb (nth 1 cmd "") "remove"
        then Ok (emit st (SendAPI GroupRemove (agent st) [nth 2 cmd ""]))
        else Ok (emit st (Send group_usage))
      else if (case "?" || case "help")%bool then Ok (helpAgent st)
      else if (case "ifconfig" || case "ipconfig")%bool then send0 IFConfig
      else if case "info" then
        let '(rows, message) := GetAgentInfo (agent st) in
        if UM_Error message then Ok (emit st (Send message))
        else Ok (emit st (DisplayTable [] rows))
      else if case "interact" then
        if Nat.ltb 1 (length cmd) then interactAgent st (nth 1 cmd "")
        else Ok st
      else if case "invoke-assembly" then send InvokeAssembly
      else if case "ja3" then send JA3
      else if case "jobs" then
        let '(jobs, message) := GetJobsForAgent (agent st) in
        let st1 := if negb (String.eqb (UM_Message message) "")
                   then emit st (Send message) else st in
        Ok (displayJobTable st1 jobs)
      else if case "kill" then send KillProcess
      else if case "killdate" then send KillDate
      else if case "list-assemblies" then send0 ListAssemblies
      else if case "load-assembly" then send LoadAssembly
      else if case "load-clr" then send LoadCLR
      else if case "ls" then send LS
      else if case "main" then Ok (Set_ st MAIN)
      else if case "maxretry" then send MaxRetry
      else if case "memfd" then send MEMFD
      else if case "note" then
        if Nat.ltb 1 (length cmd)
        then Ok (emit st (SendAPI Note (agent st) (tl cmd)))
        else Ok (emit st (SendAPI Note (agent st) []))
      else if case "nslookup" then send NSLOOKUP
      else if case "padding" then send Padding
      else if case "pwd" then send PWD
      else if case "quit" then
        let st1 :=
          if Nat.ltb 1 (length cmd) then
            if String.eqb (Bytes.ToLower (nth 1 cmd "")) "-y"
            then emit st CoreExit else st
          else st in
        let q := "Are you sure you want to quit Merlin?" in
        let st2 := emit st1 (Confirm q (confirm q)) in
        if confirm q then Ok (emit st2 CoreExit) else Ok st2
      else if (case "run" || case "shell" || case "exec")%bool then send CMD
      else if case "sessions" then
        let '(header, rows) := GetAgentsRows in
        Ok (emit st (DisplayTable header rows))
      else if case "sharpgen" then go SharpGen
      else if case "sdelete" then send SecureDelete
      else if case "skew" then send Skew
      else if case "sleep" then send Sleep
      else if case "status" then
        let '(status, message) := GetAgentStatus (agent st) in
        let st1 := if UM_Error message then emit st (Send message) else st in
        let who := UUID_String (agent st) in
        let text :=
          if String.eqb status "Active"
          then colored Green (who ++ " agent is active" ++ LF)%string
          else if String.eqb status "Delayed"
          then colored Yellow (who ++ " agent is delayed" ++ LF)%string
          else if String.eqb status "Dead"
          then colored Red (who ++ " agent is dead" ++ LF)%string
          else colored Blue (who ++ " agent is " ++ status ++ LF)%string in
        Ok (emit st1 (Send (mkUserMessage Plain text false)))
      else if case "upload" then send Upload
      else
        if Nat.ltb 1 (length cmd)
        then Ok (emit st (ExecuteCommand c (tl cmd)))
        else Ok (emit st (ExecuteCommand c []))
  end.

End Console.

(** The [case] labels of the [switch cmd[0]] of [handlerAgent]. *)
Definition handled : list string :=
  ["back"; "cd"; "clear"; "c"; "download"; "execute-assembly"; "assembly";
   "execute-pe"; "pe"; "execute-shellcode"; "shinject"; "exit"; "group";
   "?"; "help"; "ifconfig"; "ipconfig"; "info"; "interact";
   "invoke-assembly"; "ja3"; "jobs"; "kill"; "killdate"; "list-assemblies";
   "load-assembly"; "load-clr"; "ls"; "main"; "maxretry"; "memfd"; "note";
   "nslookup"; "padding"; "pwd"; "quit"; "run"; "shell"; "exec"; "sessions";
   "sharpgen"; "sdelete"; "skew"; "sleep"; "status"; "upload"].

(** The events that run a program on the host of the console. *)
Definition runs_on_host (e : Event) : bool :=
  match e with
  | ExecuteCommand _ _ => true
  | _ => false
  end.

(** [st'] is [st] after further events, none of them on the host. *)
Definition quiet (st st' : CLI) : Prop :=
  exists new,
    trace st' = trace st ++ new
    /\ Forall (fun e => runs_on_host e = false) new.

(** A row of agent information that the platform walk of [setAgent] can
    read, and a row that names the platform. *)
Definition readable_row (row : list string) : bool :=
  match row with
  | [] => false
  | [key] => negb (String.eqb (Bytes.ToLower key) "platform")
  | _ => true
  end.

Definition names_platform (row : list string) : bool :=
  match row with
  | key :: _ => String.eqb (Bytes.ToLower key) "platform"
  | [] => false
  end.

(** [l1] is included in [l2], names in [skip] apart. *)
Definition included (skip l1 l2 : list string) : bool :=
  forallb (fun n => existsb (String.eqb n) skip || existsb (String.eqb n) l2)
          l1.

(** The names a completion list offers at its top level. *)
Definition offered (cs : list Completer) : list string :=
  omap item_name cs.

(** The commands a help table documents: its first column. *)
Definition documented (rows : list (list string)) : list string :=
  omap head rows.

(** A console on agent A with no confirmation given, A the one known
    agent, on Linux. *)
Definition demo_message : UserMessage := mkUserMessage Info "" false.

Definition demo_FromString (id : string) : option UUID :=
  if String.eqb id "0a0a0a0a-0a0a-0a0a-0a0a-0a0a0a0a0a0a" then Some agentA
  else if String.eqb id "0b0b0b0b-0b0b-0b0b-0b0b-0b0b0b0b0b0b" then Some agentB
  else None.

Definition demo_info (a : UUID) : list (list string) * UserMessage :=
  ([["ID"; UUID_String a]; ["platform"; "windows/amd64"];
    ["Platform"; "linux/amd64"]; ["Note"]],
   demo_message).

Definition demo_console : CLI := mkCLI agentA "linux" AGENT [].

Definition demo_run : CLI -> list string -> Outcome CLI :=
  handlerAgent (fun _ => false) [agentA] demo_info
               (fun _ => ([], demo_message)) (fun _ => ("Active", demo_message))
               ([], []) demo_FromString (fun _ s => s).

End menu.

(** * Properties *)

(** ** The standard-library models on known values *)

Example sha256_hello :
  Hex.encode (SHA256.Sum "hello")
  = "2cf24dba5fb0a30e26e83b2ac5b9e29e1b161e5c1fa7425e73043362938b9824".
Proof. vm_compute. reflexivity. Qed.

Example sha256_empty :
  Hex.encode (SHA256.Sum "")
  = "e3b0c44298fc1c149afbf4c8996fb92427ae41e4649b934ca495991b7852b855".
Proof. vm_compute. reflexivity. Qed.

Example base64_hello : Base64.EncodeToString "hello" = "aGVsbG8=".
Proof. reflexivity. Qed.

Example base64_foo : Base64.DecodeString "Zm9v" = Some "foo".
Proof. reflexivity. Qed.

Example base64_unpadded_is_corrupt : Base64.DecodeString "aGVsbG8" = None.
Proof. reflexivity. Qed.

Example broadcastID_text :
  UUID_String broadcastID = "ffffffff-ffff-ffff-ffff-ffffffffffff".
Proof. vm_compute. reflexivity. Qed.

Example split_passwd : filepath.Split "/etc/passwd" = ("/etc/", "passwd").
Proof. reflexivity. Qed.

(** ** The repository keeps every record under its own identifier *)

Lemma wf_NewRepository : memory.wf memory.NewRepository.
Proof. intros k i H. unfold memory.NewRepository in H. simpl in H.
  rewrite lookup_empty in H. discriminate. Qed.

Lemma wf_insert (r : memory.Repository) (q : gmap N (list Job)) (i : JobInfo) :
  memory.wf r ->
  memory.wf (memory.mkRepo q (<[Info_ID i := i]> (memory.infos r))).
Proof.
  intros Hwf k j. simpl. rewrite lookup_insert.
  case_decide as Hk.
  - intros [= <-]. exact Hk.
  - apply Hwf.
Qed.

Lemma wf_Add (r r' : memory.Repository) (job : Job) (i : JobInfo) :
  memory.wf r -> memory.Add r job i = Some r' -> memory.wf r'.
Proof.
  unfold memory.Add. intros Hwf.
  destruct (memory.infos r !! Info_ID i); [discriminate |].
  intros [= <-]. now apply wf_insert.
Qed.

Lemma wf_UpdateInfo (r r' : memory.Repository) (i : JobInfo) :
  memory.wf r -> memory.UpdateInfo r i = Some r' -> memory.wf r'.
Proof.
  unfold memory.UpdateInfo. intros Hwf.
  destruct (memory.infos r !! Info_ID i); [| discriminate].
  intros [= <-]. now apply wf_insert.
Qed.

(** ** What one turn of [Handler] leaves alone *)

Lemma log_and_fail_keeps (w w' : World) (a : UUID) (e : Error) (o : Outcome unit) :
  log_and_fail w a e = (o, w') ->
  jobRepo w' = jobRepo w /\ agents w' = agents w /\ fs w' = fs w
  /\ broadcast w' = broadcast w /\ o <> Ok tt.
Proof.
  unfold log_and_fail, agentService_Log.
  destruct (Exist w a); intros [= <- <-]; simpl; repeat split; discriminate.
Qed.

Lemma fileTransfer_keeps (w w' : World) (a : UUID) (p : FileTransfer)
  (o : Outcome unit) :
  fileTransfer w a p = (o, w') ->
  jobRepo w' = jobRepo w /\ agents w' = agents w.
Proof.
  unfold fileTransfer.
  destruct (negb (Exist w a)) eqn:Hex; [intros [= <- <-]; auto |].
  destruct (IsDownload p); [| intros [= <- <-]; auto].
  destruct (os.IsNotExist _ _).
  { intros H. apply log_and_fail_keeps in H. tauto. }
  simpl.
  destruct (Base64.DecodeString _) as [blob |].
  2:{ intros H. apply log_and_fail_keeps in H. simpl in H. tauto. }
  destruct (os.WriteFile _ _ _ _) as [fs' |].
  2:{ intros H. apply log_and_fail_keeps in H. simpl in H. tauto. }
  unfold agentService_Log, Exist. simpl.
  destruct (bool_decide _); intros [= <- <-]; auto.
Qed.

Lemma dispatch_keeps (w w' : World) (a : UUID) (job : Job) (o : Outcome unit) :
  dispatch w a job = (o, w') ->
  jobRepo w' = jobRepo w /\ agents w' = agents w.
Proof.
  unfold dispatch.
  destruct (Job_Type job); try (intros [= <- <-]; auto; fail).
  - (* FILETRANSFER *)
    destruct (Job_Payload job); try (intros [= <- <-]; auto; fail).
    apply fileTransfer_keeps.
  - (* RESULT *)
    simpl.
    destruct (Job_Payload job) as [| | | | | r |];
      try (intros [= <- <-]; auto; fail).
    destruct (Nat.ltb 0 (String.length (Stdout r)));
      destruct (Nat.ltb 0 (String.length (Stderr r)));
      intros [= <- <-]; auto.
  - (* AGENTINFO *)
    destruct (Job_Payload job); try (intros [= <- <-]; auto; fail).
    unfold UpdateAgentInfo.
    destruct (Exist w (Job_AgentID job)); intros [= <- <-]; auto.
Qed.

Lemma advance_ok_inv (w w' : World) (job : Job) (info : JobInfo) :
  advance w job info = (Ok tt, w') ->
  exists info',
    memory.UpdateInfo (jobRepo w) info' = Some (jobRepo w')
    /\ Info_ID info' = Info_ID info
    /\ Info_Token info' = Info_Token info
    /\ Info_AgentID info' = Info_AgentID info
    /\ Info_Status info' = expected_status job
    /\ agents w' = agents w.
Proof.
  unfold advance, expected_status.
  destruct (Job_Type job) eqn:Ht; simpl;
    try (destruct (memory.UpdateInfo _ _) as [r |] eqn:Hu;
         [| intros Hno; discriminate Hno];
         intros [= <-]; refine (ex_intro _ _ (conj Hu _));
         destruct (Job_Payload job); simpl; tauto).
  destruct (Job_Payload job) as [| | | | conn | |];
    try (intros Hcrash; discriminate Hcrash).
  destruct (Socks_Close conn); simpl;
    (destruct (memory.UpdateInfo _ _) as [r |] eqn:Hu;
     [| intros Hno; discriminate Hno]);
    intros [= <-]; refine (ex_intro _ _ (conj Hu _)); simpl; tauto.
Qed.

Lemma handleJob_ok_inv (w w' : World) (job : Job) :
  Exist w (Job_AgentID job) = true ->
  handleJob w job = (Ok tt, w') ->
  exists info w2,
    memory.GetInfo (jobRepo w) (Job_ID job) = Some info
    /\ jobRepo w2 = jobRepo w /\ agents w2 = agents w
    /\ advance w2 job info = (Ok tt, w').
Proof.
  intros Hex. unfold handleJob, Agent. rewrite Hex.
  destruct (memory.GetInfo _ _) as [info |]; [| discriminate].
  destruct (checkJob w job) as [err |].
  - destruct (negb _); [discriminate |].
    destruct (coreDebug w).
    + destruct (dispatch _ _ _) as [[[] | e | p] w2] eqn:Hd; try discriminate.
      intros Ha. apply dispatch_keeps in Hd as [Hr Hg]. simpl in Hr, Hg.
      exists info, w2. auto.
    + destruct (dispatch _ _ _) as [[[] | e | p] w2] eqn:Hd; try discriminate.
      intros Ha. apply dispatch_keeps in Hd as [Hr Hg].
      exists info, w2. auto.
  - destruct (dispatch _ _ _) as [[[] | e | p] w2] eqn:Hd; try discriminate.
    intros Ha. apply dispatch_keeps in Hd as [Hr Hg].
    exists info, w2. auto.
Qed.

(** An accepted job leaves its record in the repository, under the same
    identifier and token, in the status the job calls for. *)
Lemma handleJob_ok_record (w w' : World) (job : Job) :
  memory.wf (jobRepo w) ->
  Exist w (Job_AgentID job) = true ->
  handleJob w job = (Ok tt, w') ->
  exists info info',
    memory.GetInfo (jobRepo w) (Job_ID job) = Some info
    /\ memory.GetInfo (jobRepo w') (Job_ID job) = Some info'
    /\ Info_Token info' = Info_Token info
    /\ Info_Status info' = expected_status job
    /\ agents w' = agents w.
Proof.
  intros Hwf Hex H.
  destruct (handleJob_ok_inv _ _ _ Hex H) as (info & w2 & Hg & Hr & Hag & Ha).
  destruct (advance_ok_inv _ _ _ _ Ha) as (info' & Hu & Hid & Htok & _ & Hst & Hag').
  exists info, info'. repeat split; auto; [| congruence].
  unfold memory.GetInfo in *.
  pose proof (Hwf _ _ Hg) as Hkey.
  unfold memory.UpdateInfo in Hu. rewrite Hr in Hu.
  destruct (memory.infos (jobRepo w) !! Info_ID info'); [| discriminate].
  injection Hu as Hu. rewrite <- Hu. simpl.
  rewrite Hid, Hkey. apply lookup_insert_eq.
Qed.

(** A job of a type other than RESULT that fails the check ends the batch
    and leaves the world as it was. *)
Lemma handleJob_check_fails (w : World) (job : Job) (info : JobInfo)
  (err : Error) :
  Exist w (Job_AgentID job) = true ->
  memory.GetInfo (jobRepo w) (Job_ID job) = Some info ->
  checkJob w job = Some err ->
  Job_Type job <> RESULT ->
  handleJob w job = (Fail err, w).
Proof.
  intros Hex Hg Hc Ht. unfold handleJob, Agent. rewrite Hex, Hg, Hc.
  rewrite bool_decide_eq_false_2 by exact Ht. reflexivity.
Qed.

(** A job that passes the check is accepted as soon as its dispatch
    succeeds. *)
Lemma handleJob_accepts (w w2 : World) (job : Job) (info : JobInfo) :
  memory.wf (jobRepo w) ->
  Exist w (Job_AgentID job) = true ->
  memory.GetInfo (jobRepo w) (Job_ID job) = Some info ->
  checkJob w job = None ->
  dispatch w (Job_AgentID job) job = (Ok tt, w2) ->
  (Job_Type job = SOCKS -> exists conn, Job_Payload job = PSocks conn) ->
  exists w', handleJob w job = (Ok tt, w').
Proof.
  intros Hwf Hex Hg Hc Hd Hs.
  unfold handleJob, Agent. rewrite Hex, Hg, Hc, Hd.
  destruct (dispatch_keeps _ _ _ _ _ Hd) as [Hr _].
  pose proof (Hwf _ _ Hg) as Hkey. unfold memory.GetInfo in Hg.
  unfold advance, memory.UpdateInfo.
  destruct (bool_decide (Job_Type job = SOCKS)) eqn:Ht.
  - apply bool_decide_eq_true in Ht. destruct (Hs Ht) as [conn ->].
    destruct (Socks_Close conn); simpl; rewrite Hr, Hkey, Hg; eauto.
  - simpl. rewrite Hr, Hkey, Hg. eauto.
Qed.

(** A SOCKS frame that passes the check is always accepted. *)
Lemma Handler_accepts_socks (w : World) (job : Job) (info : JobInfo)
  (conn : Socks) :
  memory.wf (jobRepo w) ->
  Exist w (Job_AgentID job) = true ->
  memory.GetInfo (jobRepo w) (Job_ID job) = Some info ->
  checkJob w job = None ->
  Job_Type job = SOCKS ->
  Job_Payload job = PSocks conn ->
  exists w', Handler w [job] = (Ok tt, w').
Proof.
  intros Hwf Hex Hg Hc Ht Hp.
  destruct (handleJob_accepts w (socks_In w job) job info Hwf Hex Hg Hc)
    as [w' Hh].
  - unfold dispatch. rewrite Ht. reflexivity.
  - intros _. eauto.
  - exists w'. simpl. rewrite Hh. reflexivity.
Qed.

Lemma checkJob_bad_token (w : World) (job : Job) (info : JobInfo) :
  Exist w (Job_AgentID job) = true ->
  memory.GetInfo (jobRepo w) (Job_ID job) = Some info ->
  Job_Token job <> Info_Token info ->
  checkJob w job
  = Some (ErrBadToken (Job_ID job) (Job_AgentID job) (Info_Token info)
                      (Job_Token job)).
Proof.
  intros Hex Hg Ht. unfold checkJob. rewrite Hex, Hg. simpl.
  rewrite bool_decide_eq_false_2 by exact Ht. reflexivity.
Qed.

Lemma checkJob_complete (w : World) (job : Job) (info : JobInfo) :
  Exist w (Job_AgentID job) = true ->
  memory.GetInfo (jobRepo w) (Job_ID job) = Some info ->
  Job_Token job = Info_Token info ->
  Info_Status info = COMPLETE ->
  checkJob w job
  = Some (ErrAlreadyTerminal (Job_ID job) (Job_AgentID job) COMPLETE
                             (Info_Completed info)).
Proof.
  intros Hex Hg Ht Hs. unfold checkJob. rewrite Hex, Hg. simpl.
  rewrite bool_decide_eq_true_2 by exact Ht. simpl.
  rewrite bool_decide_eq_true_2 by exact Hs. reflexivity.
Qed.

Lemma wf_world_with (i : JobInfo) : memory.wf (jobRepo (world_with i)).
Proof.
  intros k j. simpl. rewrite lookup_singleton.
  case_decide as Hk; [intros [= <-]; exact Hk | discriminate].
Qed.

(** ** Token check on inbound jobs *)

(** C1, as amended: an inbound job of a type other than RESULT whose token
    differs from the token of its tracking record ends the batch with the
    bad-token error and leaves the whole world (repository, agent log,
    broadcast messages, files) as it was. *)
Theorem C1_bad_token_rejected (w : World) (job : Job) (rest : list Job)
  (info : JobInfo) :
  Exist w (Job_AgentID job) = true ->
  memory.GetInfo (jobRepo w) (Job_ID job) = Some info ->
  Job_Token job <> Info_Token info ->
  Job_Type job <> RESULT ->
  Handler w (job :: rest)
  = (Fail (ErrBadToken (Job_ID job) (Job_AgentID job) (Info_Token info)
                       (Job_Token job)), w).
Proof.
  intros Hex Hg Htok Ht. simpl.
  rewrite (handleJob_check_fails w job info _ Hex Hg
             (checkJob_bad_token w job info Hex Hg Htok) Ht).
  reflexivity.
Qed.

Lemma C1_bad_token_rejected_witness :
  let w := world_with (tracked "job0" FILETRANSFER SENT) in
  let job := mkJob "job0" agentA 7%N FILETRANSFER
                   (PFileTransfer (mkFileTransfer "/etc/passwd" "Zm9v" true)) in
  Handler w [job; result_job 1000%N]
  = (Fail (ErrBadToken "job0" agentA 1000%N 7%N), w).
Proof.
  intros w job.
  apply (C1_bad_token_rejected w job [result_job 1000%N]
           (tracked "job0" FILETRANSFER SENT)).
  - reflexivity.
  - reflexivity.
  - discriminate.
  - discriminate.
Defined.

(** C1, as stated, fails on a RESULT job: the job with the wrong token is
    processed, its record becomes COMPLETE, two lines reach the agent log
    and its output is broadcast at the success level. *)
Lemma C1_result_with_bad_token_is_processed :
  let w := world_with (tracked "job0" CMD SENT) in
  let job := result_job 7%N in
  Job_Type job = RESULT
  /\ (exists info, memory.GetInfo (jobRepo w) (Job_ID job) = Some info
                   /\ Job_Token job <> Info_Token info)
  /\ fst (Handler w [job]) = Ok tt
  /\ Info_Status <$> memory.GetInfo (jobRepo (snd (Handler w [job]))) "job0"
     = Some COMPLETE
  /\ agentLog (snd (Handler w [job]))
     = [(agentA, TxtResultsForJob "job0"); (agentA, TxtStdout "uid=0(root)")]
  /\ map UM_Level (broadcast (snd (Handler w [job]))) = [Note; Success]
  /\ ~ (exists e, Handler w [job] = (Fail e, w)).
Proof.
  intros w job. split; [reflexivity |]. split.
  { exists (tracked "job0" CMD SENT). split; [reflexivity | discriminate]. }
  split; [vm_compute; reflexivity |].
  split; [vm_compute; reflexivity |].
  split; [vm_compute; reflexivity |].
  split; [vm_compute; reflexivity |].
  intros [e H]. apply (f_equal fst) in H. vm_compute in H. discriminate H.
Qed.

(** ** Jobs with an unknown identifier *)

(** C3: [Handler] looks the record up before it looks at the type, so a
    job of a known agent whose identifier is not in the repository ends the
    batch with the unknown-job error whatever its type, RESULT included;
    nothing is written and the rest of the batch is not processed. *)
Theorem C3_unknown_id_ends_batch (w : World) (job : Job) (rest : list Job) :
  Exist w (Job_AgentID job) = true ->
  memory.GetInfo (jobRepo w) (Job_ID job) = None ->
  Handler w (job :: rest) = (Fail (ErrUnknownJob InHandler (Job_ID job)), w).
Proof.
  intros Hex Hg. simpl. unfold handleJob, Agent. rewrite Hex, Hg. reflexivity.
Qed.

Lemma C3_unknown_id_ends_batch_witness :
  let w := world_with (tracked "job0" CMD SENT) in
  let stray := mkJob "" agentA uuid_Nil RESULT
                     (PResults (mkResults "" "exec format error")) in
  Job_Type stray = RESULT
  /\ Handler w [stray; result_job 1000%N]
     = (Fail (ErrUnknownJob InHandler ""), w).
Proof.
  intros w stray. split; [reflexivity |].
  apply (C3_unknown_id_ends_batch w stray [result_job 1000%N]);
    reflexivity.
Defined.

(** ** Status of the record of an accepted job *)



Example C6_open_frame_is_active :
  Info_Status
    <$> memory.GetInfo
          (jobRepo (snd (Handler (world_with (tracked "job0" SOCKS SENT))
                                 [socks_job false]))) "job0"
  = Some ACTIVE.
Proof. vm_compute. reflexivity. Qed.

Example C6_second_close_frame :
  let w := world_with (tracked "job0" SOCKS SENT) in
  fst (Handler w [socks_job true; socks_job true])
  = Fail (ErrAlreadyTerminal "job0" agentA COMPLETE 5).
Proof. vm_compute. reflexivity. Qed.

(** ** Once-only completion *)

Lemma checkJob_none_token (w : World) (job : Job) (info : JobInfo) :
  memory.GetInfo (jobRepo w) (Job_ID job) = Some info ->
  checkJob w job = None ->
  Job_Token job = Info_Token info.
Proof.
  intros Hg. unfold checkJob. rewrite Hg.
  destruct (negb (Exist _ _)); [discriminate |].
  case_bool_decide; [auto | discriminate].
Qed.

(** C7, as amended: after [Handler] has accepted a job and left its record
    COMPLETE, a further job with the same identifier and token whose type
    is not RESULT ends its batch with the already-terminal error: nothing
    is dispatched again and the world, the stored record included, stays
    as it was. *)
Theorem C7_completed_job_rejected (w w' : World) (job again : Job)
  (rest : list Job) :
  memory.wf (jobRepo w) ->
  Exist w (Job_AgentID job) = true ->
  checkJob w job = None ->
  Handler w [job] = (Ok tt, w') ->
  expected_status job = COMPLETE ->
  Job_ID again = Job_ID job ->
  Job_Token again = Job_Token job ->
  Exist w' (Job_AgentID again) = true ->
  Job_Type again <> RESULT ->
  exists info',
    memory.GetInfo (jobRepo w') (Job_ID job) = Some info'
    /\ Info_Status info' = COMPLETE
    /\ Handler w' (again :: rest)
       = (Fail (ErrAlreadyTerminal (Job_ID again) (Job_AgentID again)
                                   COMPLETE (Info_Completed info')), w').
Proof.
  intros Hwf Hex Hc H Hst Hid Htok Hex' Ht. simpl in H.
  destruct (handleJob w job) as [[[] | e | p] w1] eqn:Hh; try discriminate H.
  injection H as <-.
  destruct (handleJob_ok_record _ _ _ Hwf Hex Hh)
    as (info & info' & Hg & Hg' & Htk & Hs & Hag).
  exists info'. split; [exact Hg' |]. split; [congruence |].
  pose proof (checkJob_none_token _ _ _ Hg Hc) as Hjt.
  simpl. rewrite <- Hid in Hg'.
  rewrite (handleJob_check_fails w1 again info' _ Hex' Hg'
             (checkJob_complete w1 again info' Hex' Hg'
                ltac:(congruence) ltac:(congruence)) Ht).
  reflexivity.
Qed.

Lemma C7_completed_job_rejected_witness :
  let w := world_with (tracked "job0" CONTROL SENT) in
  let w' := snd (Handler w [agentinfo_job]) in
  exists info',
    memory.GetInfo (jobRepo w') "job0" = Some info'
    /\ Info_Status info' = COMPLETE
    /\ Handler w' [agentinfo_job; result_job 1000%N]
       = (Fail (ErrAlreadyTerminal "job0" agentA COMPLETE
                                   (Info_Completed info')), w').
Proof.
  intros w w'.
  apply (C7_completed_job_rejected w w' agentinfo_job agentinfo_job
           [result_job 1000%N]).
  - apply wf_world_with.
  - reflexivity.
  - reflexivity.
  - vm_compute. reflexivity.
  - reflexivity.
  - reflexivity.
  - reflexivity.
  - reflexivity.
  - discriminate.
Defined.

(** C7, as stated, fails on a RESULT job: handled a second time with the
    same identifier and token it is accepted again, it adds two more lines
    to the agent log and two more broadcast messages, and the completion
    instant of the stored record moves. *)
Lemma C7_result_is_processed_twice :
  let w := world_with (tracked "job0" CMD SENT) in
  let job := result_job 1000%N in
  let w1 := snd (Handler w [job]) in
  let w2 := snd (Handler w1 [job]) in
  fst (Handler w [job]) = Ok tt
  /\ Info_Status <$> memory.GetInfo (jobRepo w1) "job0" = Some COMPLETE
  /\ fst (Handler w1 [job]) = Ok tt
  /\ length (agentLog w1) = 2 /\ length (agentLog w2) = 4
  /\ length (broadcast w1) = 2 /\ length (broadcast w2) = 4
  /\ memory.GetInfo (jobRepo w2) "job0" <> memory.GetInfo (jobRepo w1) "job0"
  /\ ~ (exists e, Handler w1 [job] = (Fail e, w1)).
Proof.
  intros w job w1 w2.
  repeat (split; [vm_compute; reflexivity |]).
  split.
  - intros H. vm_compute in H. discriminate H.
  - intros [e H]. apply (f_equal fst) in H. vm_compute in H. discriminate H.
Qed.

(** ** Files sent by an agent *)

Lemma advance_complete (w : World) (job : Job) (info : JobInfo) :
  memory.wf (jobRepo w) ->
  memory.GetInfo (jobRepo w) (Job_ID job) = Some info ->
  Job_Type job <> SOCKS ->
  exists w',
    advance w job info = (Ok tt, w')
    /\ fs w' = fs w /\ broadcast w' = broadcast w /\ agentLog w' = agentLog w
    /\ memory.GetInfo (jobRepo w') (Job_ID job)
       = Some (Info_Complete info (clock w)).
Proof.
  intros Hwf Hg Ht. unfold advance.
  rewrite bool_decide_eq_false_2 by exact Ht. simpl.
  unfold memory.UpdateInfo. simpl.
  pose proof (Hwf _ _ Hg) as Hkey. unfold memory.GetInfo in Hg.
  rewrite Hkey, Hg. eexists. split; [reflexivity |]. simpl.
  repeat (split; [reflexivity |]).
  unfold memory.GetInfo. simpl. apply lookup_insert_eq.
Qed.

Section FileTransfer.

Variables (w : World) (a : UUID) (p : FileTransfer).

Hypothesis known : Exist w a = true.
Hypothesis from_agent : IsDownload p = true.

Lemma fileTransfer_no_agents_dir :
  os.IsNotExist (fs w) (agentsDir w) = true ->
  fileTransfer w a p
  = (Fail (ErrAgentsDir (agentsDir w)),
     agent_Log w a (TxtError (ErrAgentsDir (agentsDir w)))).
Proof.
  intros Hno. unfold fileTransfer. rewrite known, from_agent. simpl negb.
  cbv iota. fold (agentsDir w). rewrite Hno.
  unfold log_and_fail, agentService_Log. rewrite known. reflexivity.
Qed.

Lemma fileTransfer_write_fails (blob : string) :
  os.IsNotExist (fs w) (agentsDir w) = false ->
  Base64.DecodeString (FileBlob p) = Some blob ->
  filepath.parent (downloadFile w a p) ∉ os.dirs (fs w) ->
  exists w',
    fileTransfer w a p = (Fail (ErrWriting (FileLocation p)), w')
    /\ fs w' = fs w.
Proof.
  intros Hyes Hdec Hpar. unfold fileTransfer.
  rewrite known, from_agent. simpl negb. cbv iota. fold (agentsDir w).
  rewrite Hyes. simpl. rewrite Hdec. fold (downloadFile w a p).
  set (dest := downloadFile w a p) in *.
  unfold os.WriteFile. simpl.
  rewrite (bool_decide_eq_false_2 _ Hpar). simpl.
  destruct (bool_decide (dest ∈ os.dirs (fs w)));
    unfold log_and_fail, agentService_Log, Exist; simpl;
    unfold Exist in known; rewrite known; eexists; split; reflexivity.
Qed.

Lemma fileTransfer_lands (blob : string) :
  os.IsNotExist (fs w) (agentsDir w) = false ->
  Base64.DecodeString (FileBlob p) = Some blob ->
  filepath.parent (downloadFile w a p) ∈ os.dirs (fs w) ->
  downloadFile w a p ∉ os.dirs (fs w) ->
  exists w',
    fileTransfer w a p = (Ok tt, w')
    /\ os.files (fs w') !! downloadFile w a p
       = Some (os.mkFile blob
                 (match os.files (fs w) !! downloadFile w a p with
                  | Some old => os.perm old
                  | None => mode_0600
                  end))
    /\ broadcast w'
       = broadcast w
         ++ [mkUserMessage Success (clock w) (TxtResultsFor a (S (clock w)));
             mkUserMessage Success (S (S (clock w)))
               (TxtDownloaded (FileLocation p) (String.length blob) a
                              (downloadFile w a p))]
    /\ agentLog w'
       = agentLog w
         ++ [(a, TxtDownloaded (FileLocation p) (String.length blob) a
                               (downloadFile w a p))].
Proof.
  intros Hyes Hdec Hpar Hdst. unfold fileTransfer.
  rewrite known, from_agent. simpl negb. cbv iota. fold (agentsDir w).
  rewrite Hyes. simpl. rewrite Hdec. fold (downloadFile w a p).
  set (dest := downloadFile w a p) in *.
  unfold os.WriteFile. simpl.
  rewrite (bool_decide_eq_false_2 _ Hdst).
  rewrite (bool_decide_eq_true_2 _ Hpar). simpl.
  unfold agentService_Log, Exist. simpl. unfold Exist in known.
  rewrite known. eexists. split; [reflexivity |]. simpl.
  split; [apply lookup_insert_eq |].
  split; [| reflexivity].
  rewrite <- app_assoc. reflexivity.
Qed.

End FileTransfer.

Lemma handleJob_filetransfer (w : World) (job : Job) (p : FileTransfer)
  (info : JobInfo) :
  Exist w (Job_AgentID job) = true ->
  memory.GetInfo (jobRepo w) (Job_ID job) = Some info ->
  checkJob w job = None ->
  Job_Type job = FILETRANSFER ->
  Job_Payload job = PFileTransfer p ->
  handleJob w job
  = match fileTransfer w (Job_AgentID job) p with
    | (Ok _, w2) => advance w2 job info
    | failed => failed
    end.
Proof.
  intros Hex Hg Hc Ht Hp.
  unfold handleJob, Agent, dispatch. rewrite Hex, Hg, Hc, Ht, Hp.
  reflexivity.
Qed.

Lemma last_two {A : Type} (l : list A) (x y : A) :
  last (l ++ [x; y]) = Some y.
Proof.
  change (l ++ [x; y]) with (l ++ [x] ++ [y]).
  rewrite app_assoc. apply last_snoc.
Qed.

(** C4, as amended: a FILETRANSFER job of a known agent that passes the
    job check, with [IsDownload] true and a payload that is valid base64,
    has its decoded bytes written to
    [<cwd>/data/agents/<agent>/<file part of the location>]; a file that
    did not exist is created with mode 0600 (an existing one keeps its
    mode), and a success message naming the destination is the last
    message broadcast.  When the agents directory does not exist, or the
    directory that should hold the file does not, the batch ends with an
    error and the file system is left as it was. *)
Theorem C4_download_lands (w : World) (job : Job) (p : FileTransfer)
  (info : JobInfo) (blob : string) :
  memory.wf (jobRepo w) ->
  Exist w (Job_AgentID job) = true ->
  memory.GetInfo (jobRepo w) (Job_ID job) = Some info ->
  checkJob w job = None ->
  Job_Type job = FILETRANSFER ->
  Job_Payload job = PFileTransfer p ->
  IsDownload p = true ->
  Base64.DecodeString (FileBlob p) = Some blob ->
  let dest := downloadFile w (Job_AgentID job) p in
  (os.IsNotExist (fs w) (agentsDir w) = true ->
   fst (Handler w [job]) = Fail (ErrAgentsDir (agentsDir w))
   /\ fs (snd (Handler w [job])) = fs w)
  /\ (os.IsNotExist (fs w) (agentsDir w) = false ->
      filepath.parent dest ∉ os.dirs (fs w) ->
      fst (Handler w [job]) = Fail (ErrWriting (FileLocation p))
      /\ fs (snd (Handler w [job])) = fs w)
  /\ (os.IsNotExist (fs w) (agentsDir w) = false ->
      filepath.parent dest ∈ os.dirs (fs w) ->
      dest ∉ os.dirs (fs w) ->
      exists w',
        Handler w [job] = (Ok tt, w')
        /\ os.files (fs w') !! dest
           = Some (os.mkFile blob
                     (match os.files (fs w) !! dest with
                      | Some old => os.perm old
                      | None => mode_0600
                      end))
        /\ last (broadcast w')
           = Some (mkUserMessage Success (S (S (clock w)))
                     (TxtDownloaded (FileLocation p) (String.length blob)
                                    (Job_AgentID job) dest))).
Proof.
  intros Hwf Hex Hg Hc Ht Hp Hdl Hdec dest.
  simpl Handler.
  rewrite (handleJob_filetransfer w job p info Hex Hg Hc Ht Hp).
  split; [| split].
  - intros Hno.
    rewrite (fileTransfer_no_agents_dir w _ p Hex Hdl Hno). auto.
  - intros Hyes Hpar.
    destruct (fileTransfer_write_fails w _ p Hex Hdl blob Hyes Hdec Hpar)
      as (w1 & -> & Hfs). auto.
  - intros Hyes Hpar Hdst.
    destruct (fileTransfer_lands w _ p Hex Hdl blob Hyes Hdec Hpar Hdst)
      as (w1 & Hft & Hfile & Hb & _).
    rewrite Hft.
    pose proof (fileTransfer_keeps _ _ _ _ _ Hft) as [Hr _].
    destruct (advance_complete w1 job info) as (w2 & -> & Hfs & Hb2 & _).
    + rewrite Hr. exact Hwf.
    + rewrite Hr. exact Hg.
    + rewrite Ht. discriminate.
    + exists w2. split; [reflexivity |]. rewrite Hfs, Hb2, Hb.
      split; [exact Hfile |].
      apply last_two.
Qed.

Lemma C4_download_lands_witness :
  let w := world_with (tracked "job0" FILETRANSFER SENT) in
  exists w',
    Handler w [passwd_job true] = (Ok tt, w')
    /\ os.files (fs w') !! passwd_dest = Some (os.mkFile "foo" mode_0600)
    /\ last (broadcast w')
       = Some (mkUserMessage Success 7
                 (TxtDownloaded "/etc/passwd" 3 agentA passwd_dest)).
Proof.
  intros w.
  apply (C4_download_lands w (passwd_job true)
           (mkFileTransfer "/etc/passwd" "Zm9v" true)
           (tracked "job0" FILETRANSFER SENT) "foo").
  - apply wf_world_with.
  - reflexivity.
  - reflexivity.
  - reflexivity.
  - reflexivity.
  - reflexivity.
  - reflexivity.
  - reflexivity.
  - vm_compute. reflexivity.
  - vm_compute. reflexivity.
  - intros H. vm_compute in H. discriminate H.
Defined.

(** C4, as stated, fails: with [IsDownload] false the transfer is
    accepted and nothing is written or broadcast. *)
Lemma C4_upload_flag_writes_nothing :
  let w := world_with (tracked "job0" FILETRANSFER SENT) in
  let w' := snd (Handler w [passwd_job false]) in
  Base64.DecodeString "Zm9v" = Some "foo"
  /\ fst (Handler w [passwd_job false]) = Ok tt
  /\ fs w' = fs w
  /\ os.files (fs w') !! passwd_dest = None
  /\ broadcast w' = [].
Proof.
  intros w w'. repeat split; vm_compute; reflexivity.
Qed.

(** ** What the builder does with an uploaded file *)

(** C5, as amended: for [upload] with arguments [src :: dst :: rest] and a
    readable [src], the job built is a FILETRANSFER whose location is
    [dst], whose blob is the base64 text of the file and whose
    [IsDownload] is true; the raw 32-byte SHA-256 digest of the file (the
    digest itself, not its hexadecimal text) is stored at index 2 of the
    argument vector and the decimal length at index 3, appended when the
    vector was that short and written over what was there otherwise.  For
    [load-assembly] the raw digest is appended to the argument vector. *)
Theorem C5_upload_digest_is_raw (files : os.FileSystem) (src dst : string)
  (rest : list string) (data : string) :
  os.ReadFile files src = Some data ->
  (exists args',
     build files "upload" (src :: dst :: rest)
     = Ok (typed FILETRANSFER
             (PFileTransfer
                (mkFileTransfer dst (Base64.EncodeToString data) true)),
           args')
     /\ args' !! 0 = Some src /\ args' !! 1 = Some dst
     /\ args' !! 2 = Some (SHA256.Sum data)
     /\ args' !! 3 = Some (Bytes.decimal (N.of_nat (String.length data)))
     /\ length args' = Nat.max 4 (2 + length rest)
     /\ (rest = [] ->
         args' = [src; dst; SHA256.Sum data;
                  Bytes.decimal (N.of_nat (String.length data))]))
  /\ (exists name,
        build files "load-assembly" (src :: rest)
        = Ok (typed MODULE
                (PCommand
                   (mkCommand "clr"
                      ["load-assembly"; Base64.EncodeToString data; name])),
              (src :: rest) ++ [SHA256.Sum data])).
Proof.
  intros Hread. split.
  - unfold build. cbn [String.eqb Ascii.eqb Bool.eqb orb].
    cbn [length Nat.ltb Nat.leb nth]. rewrite Hread.
    destruct rest as [| a2 [| a3 rest']]; eexists;
      (split; [reflexivity |]); cbn; repeat split; try reflexivity;
      try discriminate; lia.
  - unfold build. cbn [String.eqb Ascii.eqb Bool.eqb orb].
    rewrite Hread. unfold plain. eexists. reflexivity.
Qed.

Lemma C5_upload_digest_is_raw_witness :
  os.ReadFile demo_fs "/tmp/x" = Some "hello"
  /\ (exists args',
        build demo_fs "upload" ["/tmp/x"; "/c/x"]
        = Ok (typed FILETRANSFER
                (PFileTransfer (mkFileTransfer "/c/x" "aGVsbG8=" true)),
              args')
        /\ args' !! 0 = Some "/tmp/x" /\ args' !! 1 = Some "/c/x"
        /\ args' !! 2 = Some (SHA256.Sum "hello")
        /\ args' !! 3 = Some "5"
        /\ length args' = 4
        /\ (@nil string = [] ->
            args' = ["/tmp/x"; "/c/x"; SHA256.Sum "hello"; "5"]))
     /\ (exists name,
           build demo_fs "load-assembly" ["/tmp/x"]
           = Ok (typed MODULE
                   (PCommand
                      (mkCommand "clr" ["load-assembly"; "aGVsbG8="; name])),
                 ["/tmp/x"; SHA256.Sum "hello"])).
Proof.
  split; [reflexivity |].
  apply (C5_upload_digest_is_raw demo_fs "/tmp/x" "/c/x" [] "hello").
  reflexivity.
Defined.

(** C5, as stated, fails: for the five-byte file [hello] the value placed
    at index 2 of the argument vector is the 32-byte digest itself, not
    its 64-character hexadecimal text [2cf24dba...]; the same holds for
    the value [load-assembly] appends. *)
Lemma C5_digest_is_not_hex :
  let hex :=
    "2cf24dba5fb0a30e26e83b2ac5b9e29e1b161e5c1fa7425e73043362938b9824" in
  Hex.encode (SHA256.Sum "hello") = hex
  /\ (exists job args',
        build demo_fs "upload" ["/tmp/x"; "/c/x"] = Ok (job, args')
        /\ args' !! 2 <> Some hex
        /\ String.length <$> args' !! 2 = Some 32)
  /\ (exists job args',
        build demo_fs "load-assembly" ["/tmp/x"] = Ok (job, args')
        /\ last args' <> Some hex
        /\ String.length <$> last args' = Some 32).
Proof.
  intros hex. split; [vm_compute; reflexivity |]. split.
  - eexists. eexists. split; [vm_compute; reflexivity |]. split.
    + intros H. vm_compute in H. discriminate H.
    + vm_compute. reflexivity.
  - eexists. eexists. split; [vm_compute; reflexivity |]. split.
    + intros H. vm_compute in H. discriminate H.
    + vm_compute. reflexivity.
Qed.

Example S2_upload_summary :
  let '(results, err, w) :=
    Add demo_rand (demo_world [agentA]) agentA "upload" ["/tmp/x"; "/c/x"] in
  err = Ok tt
  /\ Info_Command <$> memory.GetInfo (jobRepo w) "job0"
     = Some "upload /tmp/x /c/x"
  /\ head (agentLog w)
     = Some (agentA,
             TxtUploading "/tmp/x" "5"
               "2cf24dba5fb0a30e26e83b2ac5b9e29e1b161e5c1fa7425e73043362938b9824"
               "/c/x").
Proof. vm_compute. repeat split; reflexivity. Qed.

(** ** Argument vectors that are too short *)

(** C8: [Add] with no arguments panics for [download], and for every kind
    of [unguarded_kinds], instead of returning an error; for [shellcode]
    with a method and nothing else it panics one index later.  The guarded
    kinds return the arguments error. *)
Theorem C8_short_argument_vector_panics (rand : nat -> string * UUID)
  (w : World) (a : UUID) :
  Add rand w a "download" [] = ([], Crash IndexOutOfRange, w)
  /\ Forall (fun kind => exists p, Add rand w a kind [] = ([], Crash p, w))
            unguarded_kinds
  /\ Add rand w a "shellcode" ["self"] = ([], Crash IndexOutOfRange, w)
  /\ Add rand w a "upload" ["/tmp/x"]
     = ([], Fail (ErrArguments "upload" ["/tmp/x"]), w).
Proof.
  split; [reflexivity |]. split; [| split; reflexivity].
  unfold unguarded_kinds.
  repeat (apply Forall_cons; split; [eexists; reflexivity |]).
  apply Forall_nil. exact I.
Qed.

(** ** The factory *)

Lemma calls_after_first (n : nat) (p : Process) (svc : nat) :
  memoryService p = Some svc ->
  calls n p
  = (repeat svc n,
     mkProcess (Some svc) (allocated p) (workers p ++ repeat svc n)).
Proof.
  revert p. induction n as [| n IH]; intros p Hp.
  - simpl. rewrite app_nil_r. destruct p; simpl in *; subst; reflexivity.
  - destruct p as [ms al ws]. simpl in Hp. subst ms.
    cbn [calls NewJobService memoryService allocated workers default
         from_option id].
    rewrite (IH (mkProcess (Some svc) al (ws ++ [svc])) eq_refl).
    cbn [allocated workers repeat].
    rewrite <- app_assoc. reflexivity.
Qed.

(** C9: every call of [NewJobService] returns the one service, and every
    call starts a SOCKS worker of its own: after [n + 1] calls in a fresh
    process there is one service and there are [n + 1] workers. *)
Theorem C9_every_call_starts_a_worker (n : nat) :
  calls (S n) boot
  = (repeat 0 (S n), mkProcess (Some 0) 1 (repeat 0 (S n))).
Proof.
  change (calls (S n) boot)
    with (let '(rest, p2) := calls n (mkProcess (Some 0) 1 [0]) in
          (0 :: rest, p2)).
  rewrite (calls_after_first n _ 0) by reflexivity. reflexivity.
Qed.

Example C9_two_calls_two_workers :
  length (workers (snd (calls 2 boot))) = 2
  /\ fst (calls 2 boot) = [0; 0].
Proof. split; reflexivity. Qed.

(** ** Jobs built by [Add] *)

(** Every job [build] returns still has the zero identifier and token. *)
Lemma build_zero_fields (files : os.FileSystem) (kind : string)
  (args args' : list string) (job : Job) :
  build files kind args = Ok (job, args') ->
  Job_ID job = "" /\ Job_Token job = uuid_Nil.
Proof.
  intros H. unfold build in H.
  build_chain H kind ltac:(split; reflexivity).
Qed.

Lemma describe_describable (w : World) (a : UUID) (job : Job)
  (jobArgs : list string) :
  describable job jobArgs = true ->
  exists command w1,
    describe w a job jobArgs = (Ok command, w1) /\ keeps w w1.
Proof.
  unfold describable, describe, keeps.
  destruct (Job_Type job); destruct (Job_Payload job) as [| c | f | | | |];
    try discriminate; intros H;
    try (do 2 eexists; split; [reflexivity | simpl; tauto]).
  - (* MODULE *)
    rewrite bool_decide_eq_true_2 by reflexivity.
    destruct (String.eqb (Bytes.ToLower (Command_Command c)) "clr").
    + destruct (Command_Args c) as [| a0 rest]; [discriminate H |].
      destruct (String.eqb (Bytes.ToLower a0) "load-assembly");
        [destruct (Nat.ltb 2 (length jobArgs)) |];
        do 2 eexists; (split; [reflexivity | simpl; tauto]).
    + do 2 eexists; split; [reflexivity | simpl; tauto].
  - (* CMD *)
    destruct (String.eqb (Bytes.ToLower (Command_Command c)) "shell");
      do 2 eexists; (split; [reflexivity | simpl; tauto]).
  - (* FILETRANSFER *)
    destruct (IsDownload f); simpl in H.
    + destruct (Nat.ltb 2 (length jobArgs)); simpl in H.
      * apply Nat.ltb_lt in H.
        destruct (nth_error jobArgs 3) eqn:Hn.
        -- do 2 eexists; split; [reflexivity | simpl; tauto].
        -- apply nth_error_None in Hn. lia.
      * do 2 eexists; split; [reflexivity | simpl; tauto].
    + destruct (Nat.ltb 0 (length jobArgs));
        do 2 eexists; (split; [reflexivity | simpl; tauto]).
Qed.

(** Every job [build] returns is one [describe] can summarise. *)
Lemma build_describable (files : os.FileSystem) (kind : string)
  (args args' : list string) (job : Job) (a : UUID) :
  build files kind args = Ok (job, args') ->
  describable (mkJob (Job_ID job) a (Job_Token job) (Job_Type job)
                     (Job_Payload job)) args' = true.
Proof.
  intros H. unfold build in H.
  build_chain H kind ltac:(first [reflexivity | upload_case]).
Qed.

(** [buildJob] for a known agent and a job [describe] can summarise: it
    returns nil, the last line of the agent log is the "Created job" line,
    and the repository is the old one whenever the identifier drawn for
    the record is already in use. *)
Lemma buildJob_ok (rand : nat -> string * UUID) (w : World) (a : UUID)
  (job : Job) (jobArgs : list string) :
  Exist w a = true ->
  describable (mkJob (Job_ID job) a (Job_Token job) (Job_Type job)
                     (Job_Payload job)) jobArgs = true ->
  exists command job' w',
    buildJob rand w a job jobArgs = (Ok tt, job', w')
    /\ agents w' = agents w
    /\ fs w' = fs w
    /\ last (agentLog w')
       = Some (a, TxtCreatedJob (Job_Type job) (Job_ID job') command)
    /\ Job_ID job'
       = (if String.eqb (Job_ID job) "" then fst (rand (entropy w))
          else Job_ID job)
    /\ Job_Token job'
       = (if bool_decide (Job_Token job = uuid_Nil)
          then snd (rand (entropy w)) else Job_Token job)
    /\ (is_Some (memory.infos (jobRepo w) !! fst (rand (entropy w))) ->
        jobRepo w' = jobRepo w).
Proof.
  intros Hex Hd.
  destruct (describe_describable w a _ jobArgs Hd)
    as (command & w1 & Hdesc & Hr & He & Hag & Hc & Hfs).
  unfold buildJob, Agent. rewrite Hex, Hdesc.
  destruct job as [jid jag jtok jty jpl].
  unfold NewInfo, Now. cbn [fst snd Job_Token Job_ID Job_Type Job_Payload
    Job_AgentID jobRepo agents agentInfo agentLog broadcast socksIn stdout fs
    clock entropy coreDebug CurrentDir Info_Token Info_ID].
  rewrite He.
  destruct (bool_decide (jtok = uuid_Nil));
    cbn [fst snd Job_Token Job_ID Job_Type Job_Payload Job_AgentID];
    destruct (String.eqb jid "");
    cbn [fst snd Job_Token Job_ID Job_Type Job_Payload Job_AgentID];
    exists command; do 2 eexists; (split; [reflexivity |]);
    (split; [| split; [| split; [| split; [| split]]]]);
    try reflexivity;
    try (destruct (memory.Add _ _ _); simpl; assumption);
    try (destruct (memory.Add _ _ _); simpl; apply last_snoc);
    (intros [dup Hdup]; unfold memory.Add;
     cbn [Info_ID jobRepo]; rewrite Hr, Hdup; simpl;
     first [exact Hr | reflexivity]).
Qed.

(** ** The result of the repository's [Add] is dropped *)

(** C10: when the identifier drawn for the new record is already in the
    repository, so that the repository's [Add] fails and stores nothing,
    [buildJob] still returns nil and still writes the "Created job" line
    to the log of the agent, and [Add], called for that one agent, reports
    the job as created. *)
Theorem C10_repository_failure_is_dropped (rand : nat -> string * UUID)
  (w : World) (a : UUID) (kind : string) (args args' : list string)
  (job : Job) (dup : JobInfo) :
  Exist w a = true ->
  UUID_String a <> "ffffffff-ffff-ffff-ffff-ffffffffffff" ->
  build (fs w) kind args = Ok (job, args') ->
  memory.infos (jobRepo w) !! fst (rand (entropy w)) = Some dup ->
  exists command job' w1 at_ w2,
    buildJob rand w a job args' = (Ok tt, job', w1)
    /\ jobRepo w1 = jobRepo w
    /\ last (agentLog w1)
       = Some (a, TxtCreatedJob (Job_Type job) (fst (rand (entropy w)))
                                command)
    /\ Add rand w a kind args
       = ([CreatedFor (fst (rand (entropy w))) a at_], Ok tt, w2)
    /\ jobRepo w2 = jobRepo w.
Proof.
  intros Hex Hbc Hb Hdup.
  destruct (build_zero_fields _ _ _ _ _ Hb) as [Hid Htok].
  destruct (buildJob_ok rand w a job args' Hex
              (build_describable _ _ _ _ _ a Hb))
    as (command & job' & w1 & Hbj & _ & _ & Hlog & Hjid & _ & Hrepo).
  rewrite Hid in Hjid. simpl in Hjid. rewrite Hjid in Hlog.
  specialize (Hrepo (ex_intro _ dup Hdup)).
  exists command, job', w1. do 2 eexists.
  split; [exact Hbj |]. split; [exact Hrepo |]. split; [exact Hlog |].
  unfold Add. rewrite Hb. unfold AddJobChannel.
  rewrite (proj2 (String.eqb_neq _ _) Hbc). rewrite Hbj, Hjid.
  unfold Now. cbn. split; [reflexivity | exact Hrepo].
Qed.

Lemma C10_repository_failure_is_dropped_witness :
  exists command job' w1 at_ w2,
    buildJob demo_rand taken_world agentA
             (typed MODULE (PCommand (mkCommand "ps" []))) []
    = (Ok tt, job', w1)
    /\ jobRepo w1 = jobRepo taken_world
    /\ last (agentLog w1) = Some (agentA, TxtCreatedJob MODULE "job0" command)
    /\ Add demo_rand taken_world agentA "ps" []
       = ([CreatedFor "job0" agentA at_], Ok tt, w2)
    /\ jobRepo w2 = jobRepo taken_world.
Proof.
  apply (C10_repository_failure_is_dropped demo_rand taken_world agentA "ps"
           [] [] (typed MODULE (PCommand (mkCommand "ps" [])))
           (tracked "job0" CMD SENT)).
  - reflexivity.
  - vm_compute. discriminate.
  - reflexivity.
  - reflexivity.
Defined.

Example C10_record_of_the_new_job_is_missing :
  let '(_, err, w) := Add demo_rand taken_world agentA "ps" [] in
  err = Ok tt
  /\ memory.GetInfo (jobRepo w) "job0" = Some (tracked "job0" CMD SENT)
  /\ size (memory.infos (jobRepo w)) = 1
  /\ memory.queue (jobRepo w) !! agentA = None.
Proof. vm_compute. repeat split; reflexivity. Qed.

(** ** Failures of the builder leave the world alone *)

Lemma describe_outcome (w w1 : World) (a : UUID) (job : Job)
  (jobArgs : list string) (o : Outcome string) :
  describe w a job jobArgs = (o, w1) ->
  agents w1 = agents w /\ (forall e, o <> Fail e).
Proof.
  unfold describe.
  destruct (Job_Type job); destruct (Job_Payload job) as [| c | f | | | |];
    try (intros [= <- <-]; split; [reflexivity | discriminate]).
  - (* MODULE *)
    rewrite bool_decide_eq_true_2 by reflexivity.
    destruct (String.eqb (Bytes.ToLower (Command_Command c)) "clr").
    + destruct (Command_Args c) as [| a0 rest].
      * intros [= <- <-]; split; [reflexivity | discriminate].
      * destruct (String.eqb (Bytes.ToLower a0) "load-assembly");
          [destruct (Nat.ltb 2 (length jobArgs)) |];
          intros [= <- <-]; split; try reflexivity; discriminate.
    + intros [= <- <-]; split; [reflexivity | discriminate].
  - (* CMD *)
    destruct (String.eqb (Bytes.ToLower (Command_Command c)) "shell");
      intros [= <- <-]; split; try reflexivity; discriminate.
  - (* FILETRANSFER *)
    destruct (IsDownload f).
    + destruct (Nat.ltb 2 (length jobArgs)).
      * destruct (nth_error jobArgs 3);
          intros [= <- <-]; split; try reflexivity; discriminate.
      * intros [= <- <-]; split; [reflexivity | discriminate].
    + destruct (Nat.ltb 0 (length jobArgs));
        intros [= <- <-]; split; try reflexivity; discriminate.
Qed.

Section BuilderFailures.

Variable rand : nat -> string * UUID.

Lemma buildJob_outcome (w w' : World) (a : UUID) (job job' : Job)
  (jobArgs : list string) (o : Outcome unit) :
  buildJob rand w a job jobArgs = (o, job', w') ->
  agents w' = agents w
  /\ (forall e, o = Fail e -> Exist w a = false /\ w' = w).
Proof.
  unfold buildJob, Agent.
  destruct (Exist w a) eqn:Hex.
  - destruct (describe _ _ _ _) as [[command | e | p] w1] eqn:Hd;
      destruct (describe_outcome _ _ _ _ _ _ Hd) as [Hag Hnf].
    + unfold NewInfo, Now. cbn [fst snd].
      destruct (memory.Add _ _ _); intros [= <- <- <-]; simpl;
        (split; [exact Hag | intros e He; discriminate He]).
    + exfalso. exact (Hnf e eq_refl).
    + intros [= <- <- <-]. split; [exact Hag | intros e He; discriminate He].
  - intros [= <- <- <-]. split; [reflexivity | intros e _; auto].
Qed.

Lemma forAgents_never_fails (known : list UUID) :
  forall (w w' : World) (job job' : Job) (jobArgs : list string)
         (results results' : list ResultLine) (e : Error),
    (forall a, a ∈ known -> a ∈ agents w) ->
    forAgents rand w known job jobArgs results
    <> (results', Fail e, job', w').
Proof.
  induction known as [| a rest IH]; intros w w' job job' jobArgs results
    results' e Hknown; [discriminate |].
  cbn [forAgents].
  destruct (buildJob rand w a job jobArgs) as [[[[] | e1 | p] job1] w1] eqn:Hb;
    destruct (buildJob_outcome _ _ _ _ _ _ _ Hb) as [Hag Hf].
  - unfold Now. cbn [fst snd]. apply IH. intros x Hx. simpl. rewrite Hag.
    apply Hknown. now apply list_elem_of_further.
  - destruct (Hf e1 eq_refl) as [Hex _].
    unfold Exist in Hex. apply bool_decide_eq_false in Hex.
    exfalso. apply Hex, Hknown. apply list_elem_of_here.
  - discriminate.
Qed.

(** X12. Whenever [Add] returns an error, the world (the job queue and
    the tracking records included) is the world it was called in. *)
Lemma Add_failure_keeps_world (w w' : World) (a : UUID) (kind : string)
  (args : list string) (results : list ResultLine) (e : Error) :
  Add rand w a kind args = (results, Fail e, w') -> w' = w.
Proof.
  unfold Add.
  destruct (build (fs w) kind args) as [[job args'] | e1 | p];
    [| intros [= _ _ <-]; reflexivity | discriminate].
  unfold AddJobChannel, Agents.
  destruct (String.eqb (UUID_String a) _).
  - destruct (Nat.leb (length (agents w)) 0);
      [intros [= _ _ <-]; reflexivity |].
    destruct (forAgents rand w (agents w) job args' [CreatingForAll])
      as [[[r o] j] w1] eqn:Hfa.
    intros [= -> -> ->]. exfalso.
    exact (forAgents_never_fails _ _ _ _ _ _ _ _ _ (fun _ H => H) Hfa).
  - destruct (buildJob rand w a job args') as [[[[] | e1 | p] job1] w1] eqn:Hb;
      [unfold Now; cbn [fst snd]; discriminate | | discriminate].
    intros [= _ -> ->].
    destruct (buildJob_outcome _ _ _ _ _ _ _ Hb) as [_ Hf].
    now destruct (Hf e eq_refl).
Qed.

(** A broadcast submission with no known agent fails and changes nothing. *)
Lemma broadcast_without_agents (w : World) (job : Job)
  (jobArgs : list string) :
  agents w = [] ->
  AddJobChannel rand w broadcastID job jobArgs = ([], Fail ErrNoAgents, job, w).
Proof.
  intros Hno. unfold AddJobChannel, Agents.
  rewrite broadcastID_text, Hno. reflexivity.
Qed.

End BuilderFailures.

(** ** Broadcast submissions *)

(** [buildJob] on a fresh identifier: the job it leaves behind the
    pointer, the record it stores and the queue it extends. *)
Lemma buildJob_fresh (rand : nat -> string * UUID) (w : World) (a : UUID)
  (job : Job) (jobArgs : list string) :
  Exist w a = true ->
  describable (mkJob (Job_ID job) a (Job_Token job) (Job_Type job)
                     (Job_Payload job)) jobArgs = true ->
  memory.infos (jobRepo w) !! fst (rand (entropy w)) = None ->
  exists command w',
    let job' :=
      mkJob (if String.eqb (Job_ID job) "" then fst (rand (entropy w))
             else Job_ID job)
            a
            (if bool_decide (Job_Token job = uuid_Nil)
             then snd (rand (entropy w)) else Job_Token job)
            (Job_Type job) (Job_Payload job) in
    buildJob rand w a job jobArgs = (Ok tt, job', w')
    /\ agents w' = agents w
    /\ entropy w' = S (entropy w)
    /\ memory.infos (jobRepo w')
       = <[fst (rand (entropy w)) :=
             mkInfo (fst (rand (entropy w))) a (jobs_String (Job_Type job))
                    (snd (rand (entropy w))) CREATED command (clock w) 0 0]>
           (memory.infos (jobRepo w))
    /\ memory.queue (jobRepo w')
       = <[a := default [] (memory.queue (jobRepo w) !! a) ++ [job']]>
           (memory.queue (jobRepo w)).
Proof.
  intros Hex Hd Hfresh.
  destruct (describe_describable w a _ jobArgs Hd)
    as (command & w1 & Hdesc & Hr & He & Hag & Hc & Hfs).
  unfold buildJob, Agent. rewrite Hex, Hdesc.
  destruct job as [jid jag jtok jty jpl].
  unfold NewInfo, Now, memory.Add.
  cbn [fst snd Job_Token Job_ID Job_Type Job_Payload
    Job_AgentID jobRepo agents agentInfo agentLog broadcast socksIn stdout fs
    clock entropy coreDebug CurrentDir Info_Token Info_ID].
  rewrite He, Hr, Hc, Hfresh.
  exists command.
  destruct (bool_decide (jtok = uuid_Nil));
    cbn [fst snd Job_Token Job_ID Job_Type Job_Payload Job_AgentID];
    destruct (String.eqb jid "");
    cbn [fst snd Job_Token Job_ID Job_Type Job_Payload Job_AgentID];
    eexists; (split; [reflexivity |]); simpl; rewrite ?Hag; auto.
Qed.

(** Two agents served through one job pointer: the job queued for the
    second agent carries the identifier and the token drawn for the record
    of the first, while the record stored for the second agent has the
    identifier and the token of the second draw. *)
Lemma broadcast_second_job_reuses_first (rand : nat -> string * UUID)
  (w : World) (a1 a2 : UUID) (t : JobType) (p : Payload)
  (jobArgs : list string) (results : list ResultLine) :
  let id1 := fst (rand (entropy w)) in
  let tok1 := snd (rand (entropy w)) in
  let id2 := fst (rand (S (entropy w))) in
  let tok2 := snd (rand (S (entropy w))) in
  Exist w a1 = true -> Exist w a2 = true -> a1 <> a2 ->
  describable (typed t p) jobArgs = true ->
  id1 <> "" -> tok1 <> uuid_Nil -> id1 <> id2 ->
  memory.infos (jobRepo w) !! id1 = None ->
  memory.infos (jobRepo w) !! id2 = None ->
  memory.queue (jobRepo w) !! a2 = None ->
  exists results' job' w' info2,
    forAgents rand w [a1; a2] (typed t p) jobArgs results
    = (results', Ok tt, job', w')
    /\ memory.queue (jobRepo w') !! a2 = Some [mkJob id1 a2 tok1 t p]
    /\ memory.GetInfo (jobRepo w') id2 = Some info2
    /\ Info_AgentID info2 = a2 /\ Info_ID info2 = id2
    /\ Info_Token info2 = tok2.
Proof.
  intros id1 tok1 id2 tok2 Hex1 Hex2 Hne Hd Hid Htok Hids Hf1 Hf2 Hq.
  destruct (buildJob_fresh rand w a1 (typed t p) jobArgs Hex1 Hd Hf1)
    as (c1 & w1 & Hb1 & Hag1 & He1 & Hi1 & Hq1).
  cbn [typed Job_ID Job_Token Job_Type Job_Payload String.eqb] in Hb1, Hq1.
  rewrite bool_decide_eq_true_2 in Hb1, Hq1 by reflexivity.
  fold id1 tok1 in Hb1, Hq1, Hi1.
  cbn [forAgents]. rewrite Hb1. unfold Now. cbn [fst snd].
  set (w1' := mkWorld _ _ _ _ _ _ _ _ _ _ _ _).
  assert (Hex2' : Exist w1' a2 = true).
  { unfold Exist, w1'. simpl. rewrite Hag1. exact Hex2. }
  assert (Hf2' : memory.infos (jobRepo w1') !! fst (rand (entropy w1')) = None).
  { unfold w1'. simpl. rewrite He1, Hi1. fold id2.
    rewrite lookup_insert_ne by exact Hids. exact Hf2. }
  destruct (buildJob_fresh rand w1' a2 (mkJob id1 a1 tok1 t p) jobArgs
              Hex2' Hd Hf2')
    as (c2 & w2 & Hb2 & Hag2 & He2 & Hi2 & Hq2).
  cbn [Job_ID Job_Token Job_Type Job_Payload] in Hb2, Hq2.
  rewrite (proj2 (String.eqb_neq _ _) Hid) in Hb2, Hq2.
  rewrite (bool_decide_eq_false_2 _ Htok) in Hb2, Hq2.
  rewrite Hb2. cbn [fst snd].
  do 4 eexists. split; [reflexivity |].
  cbn [jobRepo]. unfold memory.GetInfo.
  rewrite Hq2, Hi2. unfold w1'. cbn [jobRepo entropy]. rewrite He1. fold id2 tok2.
  rewrite Hq1. rewrite !lookup_insert_eq.
  rewrite lookup_insert_ne by exact Hne. rewrite Hq.
  split; [reflexivity |]. split; [reflexivity |]. simpl. auto.
Qed.

(** C2: a broadcast of [ps] to the three known agents A, B and C creates
    three records with distinct identifiers and tokens, one for each agent,
    and queues one job for each agent; but the jobs queued for B and for C
    carry the identifier and the token of the record of A (the loop hands
    every agent the same job, whose identifier and token are set once),
    not those of the record of the agent they are queued for. *)
Theorem C2_broadcast_reuses_first_job :
  let ps := PCommand (mkCommand "ps" []) in
  let w := snd (Add demo_rand (demo_world [agentA; agentB; agentC])
                    broadcastID "ps" []) in
  fst (Add demo_rand (demo_world [agentA; agentB; agentC]) broadcastID "ps" [])
  = ([CreatingForAll; CreatedFor "job0" agentA 2; CreatedFor "job0" agentB 4;
      CreatedFor "job0" agentC 6], Ok tt)
  /\ size (memory.infos (jobRepo w)) = 3
  /\ memory.GetInfo (jobRepo w) "job0"
     = Some (mkInfo "job0" agentA "MODULE" 1000%N CREATED "ps " 1 0 0)
  /\ memory.GetInfo (jobRepo w) "job1"
     = Some (mkInfo "job1" agentB "MODULE" 1001%N CREATED "ps " 3 0 0)
  /\ memory.GetInfo (jobRepo w) "job2"
     = Some (mkInfo "job2" agentC "MODULE" 1002%N CREATED "ps " 5 0 0)
  /\ fst (Get w agentA) = [mkJob "job0" agentA 1000%N MODULE ps]
  /\ fst (Get w agentB) = [mkJob "job0" agentB 1000%N MODULE ps]
  /\ fst (Get w agentC) = [mkJob "job0" agentC 1000%N MODULE ps].
Proof.
  vm_compute. repeat split; reflexivity.
Qed.

(** What follows from it: the result agent B returns for the job it was
    sent completes the record of agent A, and the record of B stays as it
    was created. *)
Example C2_result_of_B_completes_record_of_A :
  let w := snd (Add demo_rand (demo_world [agentA; agentB]) broadcastID "ps" []) in
  let reply := mkJob "job0" agentB 1000%N RESULT (PResults (mkResults "1 init" "")) in
  let w' := snd (Handler w [reply]) in
  fst (Handler w [reply]) = Ok tt
  /\ (Info_AgentID <$> memory.GetInfo (jobRepo w') "job0") = Some agentA
  /\ (Info_Status <$> memory.GetInfo (jobRepo w') "job0") = Some COMPLETE
  /\ (Info_Status <$> memory.GetInfo (jobRepo w') "job1") = Some CREATED.
Proof.
  vm_compute. repeat split; reflexivity.
Qed.

Example S1_single_agent_job :
  let w := snd (Add demo_rand (demo_world [agentA]) agentA "sleep" ["sleep"; "30s"]) in
  fst (Get w agentA)
  = [mkJob "job0" agentA 1000%N CONTROL (PCommand (mkCommand "sleep" ["30s"]))]
  /\ (Info_Status <$> memory.GetInfo (jobRepo (snd (Get w agentA))) "job0")
     = Some SENT.
Proof.
  vm_compute. repeat split; reflexivity.
Qed.

(** * Further properties of the job service *)

(** ** The vocabulary of [Add] *)

Lemma build_unknown_kind (files : os.FileSystem) (kind : string)
  (args : list string) :
  build files kind args = Fail ErrUnknownKind <-> is_job_kind kind = false.
Proof.
  split.
  - intros H. unfold build in H. unfold is_job_kind, job_kinds.
    cbn [existsb]. refute_chain H kind. reflexivity.
  - unfold is_job_kind, job_kinds. cbn [existsb]. intros H.
    repeat (apply orb_false_iff in H; destruct H as [?E H]).
    unfold build.
    repeat match goal with
           | E : String.eqb kind _ = false |- _ => rewrite E; clear E
           end.
    reflexivity.
Qed.

(** ** Outcomes of [buildJob], [AddJobChannel] and [Add] *)

Lemma describable_shape (job job' : Job) (jobArgs : list string) :
  Job_Type job' = Job_Type job ->
  Job_Payload job' = Job_Payload job ->
  describable job' jobArgs = describable job jobArgs.
Proof. unfold describable. intros -> ->. reflexivity. Qed.

Section BuilderOutcomes.

Variable rand : nat -> string * UUID.

Lemma buildJob_shape (w w' : World) (a : UUID) (job job' : Job)
  (jobArgs : list string) (o : Outcome unit) :
  buildJob rand w a job jobArgs = (o, job', w') ->
  Job_Type job' = Job_Type job /\ Job_Payload job' = Job_Payload job
  /\ (forall e, o = Fail e -> e = ErrUnknownAgent a).
Proof.
  unfold buildJob, Agent.
  destruct (Exist w a).
  - destruct (describe _ _ _ _) as [[command | e | p] w1] eqn:Hd.
    + unfold NewInfo, Now. cbn [fst snd].
      destruct (bool_decide _); cbn [Job_ID]; destruct (String.eqb _ _);
        intros [= <- <- <-]; repeat split; intros e He; discriminate He.
    + destruct (describe_outcome _ _ _ _ _ _ Hd) as [_ Hnf].
      exfalso. exact (Hnf e eq_refl).
    + intros [= <- <- <-]. repeat split. intros e He. discriminate He.
  - intros [= <- <- <-]. repeat split. intros e [= <-]. reflexivity.
Qed.

Lemma forAgents_ok (known : list UUID) :
  forall (w : World) (job : Job) (jobArgs : list string)
         (results : list ResultLine),
    (forall a, a ∈ known -> a ∈ agents w) ->
    describable job jobArgs = true ->
    exists results' job' w',
      forAgents rand w known job jobArgs results = (results', Ok tt, job', w')
      /\ length results' = length results + length known
      /\ agents w' = agents w /\ fs w' = fs w.
Proof.
  induction known as [| a rest IH]; intros w job jobArgs results Hknown Hd.
  - do 3 eexists. split; [reflexivity |]. simpl. repeat split; lia.
  - cbn [forAgents].
    assert (Hex : Exist w a = true).
    { apply bool_decide_eq_true, Hknown, list_elem_of_here. }
    destruct (buildJob_ok rand w a job jobArgs Hex)
      as (c & job1 & w1 & Hb & Hag & Hfs & _).
    { rewrite <- Hd. now apply describable_shape. }
    rewrite Hb. unfold Now. cbn [fst snd].
    destruct (buildJob_shape _ _ _ _ _ _ _ Hb) as (Ht & Hp & _).
    edestruct (IH (mkWorld (jobRepo w1) (agents w1) (agentInfo w1)
                           (agentLog w1) (broadcast w1) (socksIn w1)
                           (stdout w1) (fs w1) (S (clock w1)) (entropy w1)
                           (coreDebug w1) (CurrentDir w1))
                  job1 jobArgs
                  (results ++ [CreatedFor (Job_ID job1) a (clock w1)]))
      as (r' & j' & w' & Hfa & Hlen & Hag' & Hfs').
    + intros x Hx. simpl. rewrite Hag. apply Hknown.
      now apply list_elem_of_further.
    + rewrite <- Hd. now apply describable_shape.
    + do 3 eexists. split; [exact Hfa |]. simpl in Hag', Hfs'.
      rewrite Hlen, length_app. simpl. repeat split; [lia | congruence ..].
Qed.

(** What [AddJobChannel] returns for a job [describe] can summarise. *)
Lemma AddJobChannel_outcome (w : World) (a : UUID) (job : Job)
  (jobArgs : list string) :
  describable job jobArgs = true ->
  snd (fst (fst (AddJobChannel rand w a job jobArgs)))
  = if String.eqb (UUID_String a) "ffffffff-ffff-ffff-ffff-ffffffffffff"
    then if Nat.leb (length (agents w)) 0 then Fail ErrNoAgents else Ok tt
    else if Exist w a then Ok tt else Fail (ErrUnknownAgent a).
Proof.
  intros Hd. unfold AddJobChannel, Agents.
  destruct (String.eqb (UUID_String a) _).
  - destruct (Nat.leb (length (agents w)) 0); [reflexivity |].
    destruct (forAgents_ok (agents w) w job jobArgs [CreatingForAll]
                (fun _ H => H) Hd) as (r & j & w' & -> & _).
    reflexivity.
  - destruct (Exist w a) eqn:Hex.
    + destruct (buildJob_ok rand w a job jobArgs Hex)
        as (c & job1 & w1 & -> & _).
      { rewrite <- Hd. now apply describable_shape. }
      reflexivity.
    + unfold buildJob, Agent. rewrite Hex. reflexivity.
Qed.

End BuilderOutcomes.

(** X1. [Add] answers with the invalid-job-type error, and changes
    nothing, exactly for the names that are not a case of its switch. *)
Theorem Add_unknown_kind (rand : nat -> string * UUID) (w : World)
  (a : UUID) (kind : string) (args : list string) :
  Add rand w a kind args = ([], Fail ErrUnknownKind, w)
  <-> is_job_kind kind = false.
Proof.
  split.
  - unfold Add.
    destruct (build (fs w) kind args) as [[job args'] | e | p] eqn:Hb.
    + pose proof (AddJobChannel_outcome rand w a job args'
                    (build_describable _ _ _ _ _ (Job_AgentID job) Hb)) as Ho.
      destruct (AddJobChannel rand w a job args') as [[[r o] j] w'].
      cbn [fst snd] in Ho. rewrite Ho.
      destruct (String.eqb _ _); [destruct (Nat.leb _ _) | destruct (Exist w a)];
        discriminate.
    + intros [= ->].
      exact (proj1 (build_unknown_kind (fs w) kind args) Hb).
    + discriminate.
  - intros H. unfold Add.
    rewrite (proj2 (build_unknown_kind (fs w) kind args) H). reflexivity.
Qed.

(** X2. Once the switch of [Add] has built a job, the call can only end
    in three ways: success, the no-agents error of an empty broadcast, or
    the unknown-agent error of a single target; [buildJob] never panics
    on a job [Add] built. *)
Theorem Add_outcome_after_build (rand : nat -> string * UUID) (w : World)
  (a : UUID) (kind : string) (args args' : list string) (job : Job) :
  build (fs w) kind args = Ok (job, args') ->
  snd (fst (Add rand w a kind args))
  = if String.eqb (UUID_String a) "ffffffff-ffff-ffff-ffff-ffffffffffff"
    then if Nat.leb (length (agents w)) 0 then Fail ErrNoAgents else Ok tt
    else if Exist w a then Ok tt else Fail (ErrUnknownAgent a).
Proof.
  intros Hb. unfold Add. rewrite Hb.
  pose proof (AddJobChannel_outcome rand w a job args'
                (build_describable _ _ _ _ _ (Job_AgentID job) Hb)) as Ho.
  destruct (AddJobChannel rand w a job args') as [[[r o] j] w'].
  exact Ho.
Qed.

Lemma Add_outcome_after_build_witness :
  snd (fst (Add demo_rand (demo_world [agentA]) agentB "ls" []))
  = Fail (ErrUnknownAgent agentB)
  /\ snd (fst (Add demo_rand (demo_world [agentA]) agentA "ls" [])) = Ok tt
  /\ snd (fst (Add demo_rand (demo_world []) broadcastID "ls" []))
     = Fail ErrNoAgents.
Proof.
  split; [| split].
  - exact (Add_outcome_after_build demo_rand (demo_world [agentA]) agentB "ls"
             [] [] (typed NATIVE (PCommand (mkCommand "ls" ["./"])))
             eq_refl).
  - exact (Add_outcome_after_build demo_rand (demo_world [agentA]) agentA "ls"
             [] [] (typed NATIVE (PCommand (mkCommand "ls" ["./"])))
             eq_refl).
  - exact (Add_outcome_after_build demo_rand (demo_world []) broadcastID "ls"
             [] [] (typed NATIVE (PCommand (mkCommand "ls" ["./"])))
             eq_refl).
Defined.

(** X3. The type of the job [Add] builds depends on the kind alone: every
    kind belongs to the list of its type, whatever the arguments. *)
Theorem build_type_of_kind (files : os.FileSystem) (kind : string)
  (args args' : list string) (job : Job) :
  build files kind args = Ok (job, args') ->
  In kind (kinds_of_type (Job_Type job)).
Proof.
  intros H. unfold build in H.
  build_chain H kind ltac:(cbn [Job_Type kinds_of_type];
                           auto 25 using in_eq, in_cons).
Qed.

Lemma build_type_of_kind_witness :
  build demo_fs "memfd" ["/tmp/x"; "-v"]
  = Ok (typed MODULE (PCommand (mkCommand "memfd" ["aGVsbG8="; "-v"])),
        ["/tmp/x"; "-v"])
  /\ In "memfd" (kinds_of_type MODULE).
Proof.
  split; [reflexivity |].
  exact (build_type_of_kind demo_fs "memfd" ["/tmp/x"; "-v"] _ _ eq_refl).
Defined.

(** X4. A job added for one known agent, when the identifier drawn for it
    is free: [Add] reports one created job, the record stored under that
    identifier is CREATED, belongs to the agent and has the token of the
    queued job, and the job goes to the end of the queue of the agent. *)
Theorem Add_single_agent (rand : nat -> string * UUID) (w : World)
  (a : UUID) (kind : string) (args args' : list string) (job : Job) :
  Exist w a = true ->
  UUID_String a <> "ffffffff-ffff-ffff-ffff-ffffffffffff" ->
  build (fs w) kind args = Ok (job, args') ->
  memory.infos (jobRepo w) !! fst (rand (entropy w)) = None ->
  let id := fst (rand (entropy w)) in
  let token := snd (rand (entropy w)) in
  exists command at_ w',
    Add rand w a kind args = ([CreatedFor id a at_], Ok tt, w')
    /\ memory.GetInfo (jobRepo w') id
       = Some (mkInfo id a (jobs_String (Job_Type job)) token CREATED command
                      (clock w) 0 0)
    /\ memory.queue (jobRepo w') !! a
       = Some (default [] (memory.queue (jobRepo w) !! a)
               ++ [mkJob id a token (Job_Type job) (Job_Payload job)])
    /\ (forall other, other <> id ->
        memory.GetInfo (jobRepo w') other = memory.GetInfo (jobRepo w) other).
Proof.
  intros Hex Hbc Hb Hfresh id token.
  destruct (build_zero_fields _ _ _ _ _ Hb) as [Hid Htok].
  destruct (buildJob_fresh rand w a job args' Hex
              (build_describable _ _ _ _ _ a Hb) Hfresh)
    as (command & w1 & Hbj & _ & _ & Hi & Hq).
  rewrite Hid, Htok in Hbj, Hq. cbn [String.eqb] in Hbj, Hq.
  rewrite bool_decide_eq_true_2 in Hbj, Hq by reflexivity.
  fold id token in Hbj, Hq, Hi.
  exists command. do 2 eexists.
  unfold Add. rewrite Hb. unfold AddJobChannel.
  rewrite (proj2 (String.eqb_neq _ _) Hbc), Hbj.
  unfold Now. cbn [fst snd Job_ID].
  split; [reflexivity |]. unfold memory.GetInfo. cbn [jobRepo].
  rewrite Hi, Hq. split; [apply lookup_insert_eq |].
  split; [apply lookup_insert_eq |].
  intros other Hne. now apply lookup_insert_ne.
Qed.

Lemma Add_single_agent_witness :
  exists command at_ w',
    Add demo_rand (demo_world [agentA]) agentA "sleep" ["sleep"; "30s"]
    = ([CreatedFor "job0" agentA at_], Ok tt, w')
    /\ memory.GetInfo (jobRepo w') "job0"
       = Some (mkInfo "job0" agentA "CONTROL" 1000%N CREATED command 1 0 0)
    /\ memory.queue (jobRepo w') !! agentA
       = Some [mkJob "job0" agentA 1000%N CONTROL
                     (PCommand (mkCommand "sleep" ["30s"]))]
    /\ (forall other, other <> "job0" ->
        memory.GetInfo (jobRepo w') other
        = memory.GetInfo (jobRepo (demo_world [agentA])) other).
Proof.
  apply (Add_single_agent demo_rand (demo_world [agentA]) agentA "sleep"
           ["sleep"; "30s"] ["sleep"; "30s"]
           (typed CONTROL (PCommand (mkCommand "sleep" ["30s"])))).
  - reflexivity.
  - vm_compute. discriminate.
  - reflexivity.
  - reflexivity.
Defined.

Lemma Add_failure_keeps_world_witness :
  snd (Add demo_rand (demo_world [agentA]) agentB "upload" ["/tmp/x"; "/c/x"])
  = demo_world [agentA].
Proof.
  apply (Add_failure_keeps_world demo_rand (demo_world [agentA]) _ agentB
           "upload" ["/tmp/x"; "/c/x"] [] (ErrUnknownAgent agentB)).
  vm_compute. reflexivity.
Defined.

(** ** The summary of a command *)

Lemma prefix_length (n : nat) (s : string) :
  String.length (Bytes.prefix n s) = Nat.min n (String.length s).
Proof.
  revert s. induction n as [| n IH]; intros [| c s]; simpl; auto.
Qed.

Lemma string_length_app (s t : string) :
  String.length (s ++ t) = String.length s + String.length t.
Proof. induction s as [| c s IH]; simpl; auto. Qed.

Lemma truncate30_length (args : string) :
  String.length (truncate30 args) <= 33.
Proof.
  unfold truncate30.
  destruct (Nat.ltb 30 (String.length args)) eqn:H.
  - apply Nat.ltb_lt in H.
    rewrite string_length_app, prefix_length.
    change (String.length "...") with 3. lia.
  - apply Nat.ltb_ge in H. lia.
Qed.

(** X5. The summary [buildJob] stores for a CONTROL, MODULE or NATIVE
    command is the command name, a space, and the arguments joined by
    spaces; the arguments are kept whole up to 30 bytes and are otherwise
    cut to their first 30 bytes followed by three dots, so that part never
    exceeds 33 bytes. *)
Theorem describe_command_summary (w w1 : World) (a : UUID) (job : Job)
  (cmd : Command) (jobArgs : list string) (command : string) :
  Job_Payload job = PCommand cmd ->
  Job_Type job = CONTROL \/ Job_Type job = MODULE \/ Job_Type job = NATIVE ->
  describe w a job jobArgs = (Ok command, w1) ->
  let joined := Bytes.Join (Command_Args cmd) " " in
  exists shown,
    command = (Command_Command cmd ++ " " ++ shown)%string
    /\ String.length shown <= 33
    /\ (String.length joined <= 30 -> shown = joined)
    /\ (30 < String.length joined ->
        shown = (Bytes.prefix 30 joined ++ "...")%string).
Proof.
  intros Hp Ht Hd joined.
  exists (truncate30 joined).
  split.
  - unfold describe in Hd. rewrite Hp in Hd.
    destruct Ht as [Ht | [Ht | Ht]]; rewrite Ht in Hd;
      cbn [bool_decide decide_rel JobType_eq_dec] in Hd.
    + simpl in Hd. injection Hd as <- _. reflexivity.
    + rewrite bool_decide_eq_true_2 in Hd by reflexivity.
      destruct (String.eqb (Bytes.ToLower (Command_Command cmd)) "clr").
      * destruct (Command_Args cmd) as [| a0 rest] eqn:Ha;
          [discriminate Hd |].
        destruct (String.eqb (Bytes.ToLower a0) "load-assembly");
          [destruct (Nat.ltb 2 (length jobArgs)) |];
          injection Hd as <- _; unfold joined; try rewrite Ha; reflexivity.
      * injection Hd as <- _. reflexivity.
    + simpl in Hd. injection Hd as <- _. reflexivity.
  - split; [apply truncate30_length |].
    unfold truncate30. split; intros Hl.
    + apply Nat.ltb_ge in Hl. rewrite Hl. reflexivity.
    + apply Nat.ltb_lt in Hl. rewrite Hl. reflexivity.
Qed.

Lemma describe_command_summary_witness :
  let cmd := mkCommand "ls" ["/a/very/long/path/that/goes/on/and/on"] in
  exists shown,
    "ls /a/very/long/path/that/goes/on..." = ("ls" ++ " " ++ shown)%string
    /\ String.length shown <= 33
    /\ (String.length "/a/very/long/path/that/goes/on/and/on" <= 30 ->
        shown = "/a/very/long/path/that/goes/on/and/on")
    /\ (30 < String.length "/a/very/long/path/that/goes/on/and/on" ->
        shown
        = (Bytes.prefix 30 "/a/very/long/path/that/goes/on/and/on" ++ "...")%string).
Proof.
  intros cmd.
  apply (describe_command_summary (demo_world [agentA]) (demo_world [agentA])
           agentA (typed NATIVE (PCommand cmd)) cmd []).
  - reflexivity.
  - right. right. reflexivity.
  - reflexivity.
Defined.

(** ** What [Handler] keeps *)

Lemma same_job_refl (i : JobInfo) : same_job i i.
Proof. unfold same_job. tauto. Qed.

Lemma same_job_trans (i j k : JobInfo) :
  same_job i j -> same_job j k -> same_job i k.
Proof. unfold same_job. intuition congruence. Qed.

Lemma Handler_invariant (R : World -> World -> Prop) :
  (forall w, R w w) ->
  (forall w1 w2 w3, R w1 w2 -> R w2 w3 -> R w1 w3) ->
  (forall w job o w', handleJob w job = (o, w') -> R w w') ->
  forall agentJobs w o w', Handler w agentJobs = (o, w') -> R w w'.
Proof.
  intros Hrefl Htrans Hstep agentJobs.
  induction agentJobs as [| job rest IH]; intros w o w'; simpl.
  - intros [= _ <-]. apply Hrefl.
  - destruct (handleJob w job) as [[[] | e | p] w1] eqn:Hh.
    + intros H. eapply Htrans; [eapply Hstep, Hh | eapply IH, H].
    + intros [= <- <-]. eapply Hstep, Hh.
    + intros [= <- <-]. eapply Hstep, Hh.
Qed.

Lemma advance_inv (w w' : World) (job : Job) (info : JobInfo)
  (o : Outcome unit) :
  advance w job info = (o, w') ->
  agents w' = agents w /\ entropy w' = entropy w
  /\ CurrentDir w' = CurrentDir w /\ coreDebug w' = coreDebug w
  /\ (jobRepo w' = jobRepo w
      \/ exists info',
           memory.UpdateInfo (jobRepo w) info' = Some (jobRepo w')
           /\ same_job info info').
Proof.
  unfold advance.
  assert (Hc : forall now, same_job info (Info_Complete info now))
    by (intros now; unfold same_job; simpl; tauto).
  assert (Ha : same_job info (Info_Active info))
    by (unfold same_job; simpl; tauto).
  destruct (bool_decide (Job_Type job = SOCKS)).
  - destruct (Job_Payload job) as [| | | | conn | |];
      try (intros [= <- <-]; tauto).
    destruct (Socks_Close conn); simpl;
      (destruct (memory.UpdateInfo _ _) as [r |] eqn:Hu;
       intros [= <- <-]; simpl; repeat split; eauto).
  - simpl. destruct (memory.UpdateInfo _ _) as [r |] eqn:Hu;
      intros [= <- <-]; simpl; repeat split; eauto.
Qed.

Lemma dispatch_inv (w w' : World) (a : UUID) (job : Job) (o : Outcome unit) :
  dispatch w a job = (o, w') ->
  entropy w' = entropy w /\ CurrentDir w' = CurrentDir w
  /\ coreDebug w' = coreDebug w.
Proof.
  unfold dispatch.
  destruct (Job_Type job); try (intros [= <- <-]; auto; fail).
  - destruct (Job_Payload job) as [| | p | | | |];
      try (intros [= <- <-]; auto; fail).
    unfold fileTransfer, log_and_fail, agentService_Log.
    destruct (negb (Exist w (Job_AgentID job))); [intros [= <- <-]; auto |].
    destruct (IsDownload p); [| intros [= <- <-]; auto].
    destruct (os.IsNotExist _ _).
    { destruct (Exist _ _); intros [= <- <-]; auto. }
    simpl.
    destruct (Base64.DecodeString _) as [blob |].
    2:{ destruct (Exist _ _); intros [= <- <-]; auto. }
    destruct (os.WriteFile _ _ _ _) as [fs' |].
    2:{ destruct (Exist _ _); intros [= <- <-]; auto. }
    destruct (Exist _ _); intros [= <- <-]; auto.
  - simpl.
    destruct (Job_Payload job) as [| | | | | r |];
      try (intros [= <- <-]; auto; fail).
    destruct (Nat.ltb 0 (String.length (Stdout r)));
      destruct (Nat.ltb 0 (String.length (Stderr r)));
      intros [= <- <-]; auto.
  - destruct (Job_Payload job); try (intros [= <- <-]; auto; fail).
    unfold UpdateAgentInfo.
    destruct (Exist w (Job_AgentID job)); intros [= <- <-]; auto.
Qed.

(** One turn of [Handler] ends in the world it started in, in a world
    that differs outside the repository only, or after one update of the
    record the job names. *)
Lemma handleJob_inv (w w' : World) (job : Job) (o : Outcome unit) :
  handleJob w job = (o, w') ->
  agents w' = agents w /\ entropy w' = entropy w
  /\ CurrentDir w' = CurrentDir w /\ coreDebug w' = coreDebug w
  /\ (jobRepo w' = jobRepo w
      \/ exists info info',
           memory.GetInfo (jobRepo w) (Job_ID job) = Some info
           /\ memory.UpdateInfo (jobRepo w) info' = Some (jobRepo w')
           /\ same_job info info').
Proof.
  unfold handleJob, Agent.
  destruct (Exist w (Job_AgentID job)); [| intros [= <- <-]; simpl; tauto].
  destruct (memory.GetInfo _ _) as [info |] eqn:Hg;
    [| intros [= <- <-]; tauto].
  set (checked := match checkJob w job with Some _ => _ | None => _ end).
  assert (Hck : (exists e, checked = Fail e)
                \/ (exists w1, checked = Ok w1 /\ agents w1 = agents w
                      /\ jobRepo w1 = jobRepo w /\ entropy w1 = entropy w
                      /\ CurrentDir w1 = CurrentDir w
                      /\ coreDebug w1 = coreDebug w)).
  { unfold checked. destruct (checkJob w job) as [err |].
    - destruct (negb _); [left; eauto |].
      destruct (coreDebug w) eqn:Hdbg; right; eexists;
        (split; [reflexivity |]); simpl; repeat split; auto.
    - right. eexists. split; [reflexivity |]. tauto. }
  destruct Hck as [[e ->] | (w1 & -> & Hag1 & Hr1 & He1 & Hd1 & Hc1)];
    [intros [= <- <-]; tauto |].
  destruct (dispatch w1 (Job_AgentID job) job) as [[[] | e | p] w2] eqn:Hd;
    destruct (dispatch_keeps _ _ _ _ _ Hd) as [Hr2 Hag2];
    destruct (dispatch_inv _ _ _ _ _ Hd) as (He2 & Hd2 & Hc2).
  - intros Ha. destruct (advance_inv _ _ _ _ _ Ha)
      as (Hag3 & He3 & Hd3 & Hc3 & Hrepo).
    repeat split; try congruence.
    destruct Hrepo as [Hsame | (info' & Hu & Hs)].
    + left. congruence.
    + right. exists info, info'. rewrite Hr2, Hr1 in Hu. auto.
  - intros [= <- <-]. repeat split; try congruence. left. congruence.
  - intros [= <- <-]. repeat split; try congruence. left. congruence.
Qed.

Lemma UpdateInfo_dom (r r' : memory.Repository) (i : JobInfo) :
  memory.UpdateInfo r i = Some r' ->
  memory.queue r' = memory.queue r
  /\ dom (memory.infos r') = dom (memory.infos r).
Proof.
  unfold memory.UpdateInfo.
  destruct (memory.infos r !! Info_ID i) eqn:Hl; [| discriminate].
  intros [= <-]. simpl. split; [reflexivity |].
  apply dom_insert_lookup_L. eauto.
Qed.

(** X6. [Handler] never creates or deletes a record and never touches a
    queue, the set of known agents or the random source, whatever the
    batch and however it ends. *)
Theorem Handler_frame (agentJobs : list Job) (w w' : World)
  (o : Outcome unit) :
  Handler w agentJobs = (o, w') -> handler_frame w w'.
Proof.
  revert agentJobs w o w'.
  apply (Handler_invariant handler_frame).
  - intros w. unfold handler_frame. tauto.
  - unfold handler_frame. intros w1 w2 w3 H12 H23.
    destruct H12 as (? & ? & ? & ? & ? & ?).
    destruct H23 as (? & ? & ? & ? & ? & ?).
    repeat split; congruence.
  - intros w job o w' Hh.
    destruct (handleJob_inv _ _ _ _ Hh) as (Hag & He & Hd & Hc & Hrepo).
    unfold handler_frame. repeat split; auto.
    + destruct Hrepo as [-> | (i & i' & _ & Hu & _)]; [reflexivity |].
      apply (UpdateInfo_dom _ _ _ Hu).
    + destruct Hrepo as [-> | (i & i' & _ & Hu & _)]; [reflexivity |].
      apply (UpdateInfo_dom _ _ _ Hu).
Qed.

Lemma Handler_frame_witness :
  handler_frame (world_with (tracked "job0" CMD SENT))
    (snd (Handler (world_with (tracked "job0" CMD SENT))
                  [result_job 1000%N; socks_job true])).
Proof.
  apply (Handler_frame [result_job 1000%N; socks_job true]
           (world_with (tracked "job0" CMD SENT)) _
           (fst (Handler (world_with (tracked "job0" CMD SENT))
                         [result_job 1000%N; socks_job true]))).
  vm_compute. reflexivity.
Defined.

(** X7. Over a repository that stores every record under its own
    identifier, [Handler] keeps it so, and every record it leaves is the
    job it was: same identifier, agent, type, token, summary and creation
    and sending instants; only the status and the completion instant of
    a record can change. *)
Theorem Handler_keeps_records (agentJobs : list Job) (w w' : World)
  (o : Outcome unit) :
  Handler w agentJobs = (o, w') -> records_kept w w'.
Proof.
  revert agentJobs w o w'.
  apply (Handler_invariant records_kept).
  - intros w Hwf. split; [exact Hwf |]. intros id i' H. exists i'.
    split; [exact H | apply same_job_refl].
  - intros w1 w2 w3 H12 H23 Hwf.
    destruct (H12 Hwf) as [Hwf2 H2]. destruct (H23 Hwf2) as [Hwf3 H3].
    split; [exact Hwf3 |]. intros id i3 Hl3.
    destruct (H3 _ _ Hl3) as (i2 & Hl2 & Hs23).
    destruct (H2 _ _ Hl2) as (i1 & Hl1 & Hs12).
    exists i1. split; [exact Hl1 | eapply same_job_trans; eauto].
  - intros w job o w' Hh Hwf.
    destruct (handleJob_inv _ _ _ _ Hh) as (_ & _ & _ & _ & Hrepo).
    destruct Hrepo as [-> | (info & info' & Hg & Hu & Hs)].
    + split; [exact Hwf |]. intros id i' H. exists i'.
      split; [exact H | apply same_job_refl].
    + split; [eapply wf_UpdateInfo; eauto |].
      intros id i' Hl. unfold memory.UpdateInfo in Hu.
      destruct (memory.infos (jobRepo w) !! Info_ID info'); [| discriminate].
      injection Hu as Hu. rewrite <- Hu in Hl. simpl in Hl.
      pose proof (Hwf _ _ Hg) as Hkey.
      assert (Hid : Info_ID info' = Job_ID job)
        by (destruct Hs as [Hs _]; congruence).
      rewrite Hid in Hl. rewrite lookup_insert in Hl.
      case_decide as Hk.
      * injection Hl as <-. subst id. exists info. split; [exact Hg | exact Hs].
      * exists i'. split; [exact Hl | apply same_job_refl].
Qed.

Lemma Handler_keeps_records_witness :
  records_kept (world_with (tracked "job0" CMD SENT))
    (snd (Handler (world_with (tracked "job0" CMD SENT))
                  [result_job 1000%N; socks_job true])).
Proof.
  apply (Handler_keeps_records [result_job 1000%N; socks_job true]
           (world_with (tracked "job0" CMD SENT)) _
           (fst (Handler (world_with (tracked "job0" CMD SENT))
                         [result_job 1000%N; socks_job true]))).
  vm_compute. reflexivity.
Defined.

(** X8. Jobs of agents the server does not know never end a batch: each
    one costs a warning on the broadcast sink and nothing else. A batch
    made of such jobs only returns nil and leaves the repository, the
    agent logs and the files as they were. *)
Theorem Handler_unknown_agents (agentJobs : list Job) (w : World) :
  Forall (fun job => Exist w (Job_AgentID job) = false) agentJobs ->
  exists w',
    Handler w agentJobs = (Ok tt, w')
    /\ jobRepo w' = jobRepo w /\ agentLog w' = agentLog w /\ fs w' = fs w
    /\ agents w' = agents w
    /\ map (fun m => (UM_Level m, UM_Message m)) (broadcast w')
       = map (fun m => (UM_Level m, UM_Message m)) (broadcast w)
         ++ map (fun job =>
                   (Warn, TxtInvalidAgent (Job_ID job) (Job_AgentID job)))
                agentJobs.
Proof.
  revert w. induction agentJobs as [| job rest IH]; intros w Hall.
  - exists w. simpl. rewrite app_nil_r. tauto.
  - inversion Hall as [| ? ? Hj Hrest]; subst.
    cbn [Handler]. unfold handleJob. rewrite Hj. unfold Now. cbn [fst snd].
    set (w1 := SendBroadcastMessage _ _).
    destruct (IH w1) as (w' & Hh & Hr & Hl & Hf & Hag & Hb).
    { eapply Forall_impl; [exact Hrest |]. intros j Hjx. exact Hjx. }
    exists w'. split; [exact Hh |].
    rewrite Hr, Hl, Hf, Hag, Hb. unfold w1. simpl.
    rewrite map_app. simpl. rewrite <- app_assoc. tauto.
Qed.

Lemma Handler_unknown_agents_witness :
  let stray := mkJob "job0" agentB 1000%N RESULT
                     (PResults (mkResults "out" "")) in
  let w := world_with (tracked "job0" CMD SENT) in
  exists w',
    Handler w [stray; stray] = (Ok tt, w')
    /\ jobRepo w' = jobRepo w /\ agentLog w' = agentLog w /\ fs w' = fs w
    /\ agents w' = agents w
    /\ map (fun m => (UM_Level m, UM_Message m)) (broadcast w')
       = [(Warn, TxtInvalidAgent "job0" agentB);
          (Warn, TxtInvalidAgent "job0" agentB)].
Proof.
  intros stray w.
  apply (Handler_unknown_agents [stray; stray] w).
  repeat constructor.
Defined.

(** X9. A record that is COMPLETE or CANCELED is closed to every job
    that is not a RESULT: such a job of a known agent ends its batch with
    an error and leaves the world as it was. For a canceled record and
    the right token the error is the already-terminal one. *)
Theorem terminal_record_is_closed (w : World) (job : Job) (rest : list Job)
  (info : JobInfo) :
  Exist w (Job_AgentID job) = true ->
  memory.GetInfo (jobRepo w) (Job_ID job) = Some info ->
  Info_Status info = COMPLETE \/ Info_Status info = CANCELED ->
  Job_Type job <> RESULT ->
  (exists e, Handler w (job :: rest) = (Fail e, w))
  /\ (Info_Status info = CANCELED -> Job_Token job = Info_Token info ->
      Handler w (job :: rest)
      = (Fail (ErrAlreadyTerminal (Job_ID job) (Job_AgentID job) CANCELED 0),
         w)).
Proof.
  intros Hex Hg Hs Ht.
  assert (Hc : exists e, checkJob w job = Some e
                 /\ (Info_Status info = CANCELED ->
                     Job_Token job = Info_Token info ->
                     e = ErrAlreadyTerminal (Job_ID job) (Job_AgentID job)
                                            CANCELED 0)).
  { unfold checkJob. rewrite Hex, Hg. simpl.
    destruct (bool_decide (Job_Token job = Info_Token info)) eqn:Htok; simpl.
    - destruct Hs as [Hs | Hs]; rewrite Hs; simpl.
      + eexists. split; [reflexivity |]. intros Hx. discriminate Hx.
      + eexists. split; [reflexivity |]. reflexivity.
    - eexists. split; [reflexivity |]. intros _ Heq.
      apply bool_decide_eq_false in Htok. contradiction. }
  destruct Hc as (e & Hc & He).
  cbn [Handler].
  rewrite (handleJob_check_fails w job info e Hex Hg Hc Ht).
  split; [eauto |]. intros H1 H2. rewrite (He H1 H2). reflexivity.
Qed.

Lemma terminal_record_is_closed_witness :
  let w := world_with (tracked "job0" SOCKS CANCELED) in
  (exists e, Handler w [socks_job false; result_job 1000%N] = (Fail e, w))
  /\ (CANCELED = CANCELED -> 1000%N = 1000%N ->
      Handler w [socks_job false; result_job 1000%N]
      = (Fail (ErrAlreadyTerminal "job0" agentA CANCELED 0), w)).
Proof.
  intros w.
  apply (terminal_record_is_closed w (socks_job false) [result_job 1000%N]
           (tracked "job0" SOCKS CANCELED)).
  - reflexivity.
  - reflexivity.
  - right. reflexivity.
  - discriminate.
Defined.

(** ** Files sent by an agent, continued *)

(** X10. Whatever a file transfer of a known agent carries and however it
    ends, [fileTransfer] creates no directory and changes no file other
    than the one destination [downloadFile] names. *)
Theorem fileTransfer_touches_one_file (w w' : World) (a : UUID)
  (p : FileTransfer) (o : Outcome unit) :
  fileTransfer w a p = (o, w') ->
  os.dirs (fs w') = os.dirs (fs w)
  /\ forall name, name <> downloadFile w a p ->
       os.files (fs w') !! name = os.files (fs w) !! name.
Proof.
  unfold fileTransfer, log_and_fail, agentService_Log.
  destruct (negb (Exist w a)); [intros [= <- <-]; auto |].
  destruct (IsDownload p); [| intros [= <- <-]; auto].
  fold (agentsDir w).
  destruct (os.IsNotExist _ _).
  { destruct (Exist _ _); intros [= <- <-]; auto. }
  simpl.
  destruct (Base64.DecodeString _) as [blob |].
  2:{ destruct (Exist _ _); intros [= <- <-]; auto. }
  fold (downloadFile w a p).
  unfold os.WriteFile. simpl.
  destruct (bool_decide (downloadFile w a p ∈ os.dirs (fs w))).
  { destruct (Exist _ _); intros [= <- <-]; auto. }
  destruct (negb (bool_decide _)).
  { destruct (Exist _ _); intros [= <- <-]; auto. }
  destruct (Exist _ _); intros [= <- <-]; simpl;
    (split; [reflexivity |]); intros name Hne; now apply lookup_insert_ne.
Qed.

Lemma fileTransfer_touches_one_file_witness :
  let w := world_with (tracked "job0" FILETRANSFER SENT) in
  let w' := snd (fileTransfer w agentA
                   (mkFileTransfer "../../etc/cron.d/x" "Zm9v" true)) in
  downloadFile w agentA (mkFileTransfer "../../etc/cron.d/x" "Zm9v" true)
  = "/srv/merlin/data/agents/0a0a0a0a-0a0a-0a0a-0a0a-0a0a0a0a0a0a/x"
  /\ os.dirs (fs w') = os.dirs (fs w)
  /\ forall name,
       name <> downloadFile w agentA
                 (mkFileTransfer "../../etc/cron.d/x" "Zm9v" true) ->
       os.files (fs w') !! name = os.files (fs w) !! name.
Proof.
  intros w w'. split; [vm_compute; reflexivity |].
  apply (fileTransfer_touches_one_file w w' agentA
           (mkFileTransfer "../../etc/cron.d/x" "Zm9v" true)
           (fst (fileTransfer w agentA
                   (mkFileTransfer "../../etc/cron.d/x" "Zm9v" true)))).
  vm_compute. reflexivity.
Defined.

(** X11. A blob that is not valid base64 writes no file: the transfer
    ends with the decoding error, the error goes to the log of the agent,
    the file system is unchanged; the one broadcast message sent by then
    is the success-level notice that results arrived. *)
Theorem fileTransfer_corrupt_blob (w : World) (a : UUID) (p : FileTransfer) :
  Exist w a = true ->
  IsDownload p = true ->
  os.IsNotExist (fs w) (agentsDir w) = false ->
  Base64.DecodeString (FileBlob p) = None ->
  exists w',
    fileTransfer w a p = (Fail ErrDecodeBlob, w')
    /\ fs w' = fs w
    /\ jobRepo w' = jobRepo w
    /\ agentLog w' = agentLog w ++ [(a, TxtError ErrDecodeBlob)]
    /\ broadcast w'
       = broadcast w
         ++ [mkUserMessage Success (clock w) (TxtResultsFor a (S (clock w)))].
Proof.
  intros Hex Hdl Hdir Hdec. unfold fileTransfer.
  rewrite Hex, Hdl. simpl negb. cbv iota. fold (agentsDir w).
  rewrite Hdir. simpl. rewrite Hdec.
  unfold log_and_fail, agentService_Log, Exist. simpl.
  unfold Exist in Hex. rewrite Hex.
  eexists. split; [reflexivity |]. simpl. tauto.
Qed.

Lemma fileTransfer_corrupt_blob_witness :
  let w := world_with (tracked "job0" FILETRANSFER SENT) in
  exists w',
    fileTransfer w agentA (mkFileTransfer "/etc/passwd" "Zm9" true)
    = (Fail ErrDecodeBlob, w')
    /\ fs w' = fs w
    /\ jobRepo w' = jobRepo w
    /\ agentLog w' = agentLog w ++ [(agentA, TxtError ErrDecodeBlob)]
    /\ broadcast w'
       = broadcast w
         ++ [mkUserMessage Success (clock w) (TxtResultsFor agentA (S (clock w)))].
Proof.
  intros w.
  apply (fileTransfer_corrupt_blob w agentA
           (mkFileTransfer "/etc/passwd" "Zm9" true)).
  - reflexivity.
  - reflexivity.
  - vm_compute. reflexivity.
  - reflexivity.
Defined.

(** ** Base64: what the builder encodes, the handler decodes *)

Lemma all_ascii_complete (c : ascii) : c ∈ all_ascii.
Proof.
  apply list_elem_of_In. unfold all_ascii.
  rewrite <- (ascii_nat_embedding c). apply in_map, in_seq.
  pose proof (nat_ascii_bounded c). lia.
Qed.

Lemma for_all_ascii (P : ascii -> Prop) `{forall c, Decision (P c)} :
  bool_decide (Forall P all_ascii) = true -> forall c, P c.
Proof.
  intros Hb c. apply bool_decide_eq_true in Hb.
  rewrite Forall_forall in Hb. apply Hb, all_ascii_complete.
Qed.

Lemma one_ok (a : ascii) :
  sextet_ok (q1 a) /\ sextet_ok (q4 a)
  /\ sextet_ok (N.shiftl (N.land (N_of_ascii a) 3) 4)
  /\ sextet_ok (N.shiftl (N.land (N_of_ascii a) 15) 2)
  /\ Base64.byte1 (q1 a) (N.shiftl (N.land (N_of_ascii a) 3) 4) = a.
Proof.
  revert a.
  match goal with
  | |- forall a : ascii, @?P a => apply (for_all_ascii P)
  end.
  vm_compute. reflexivity.
Qed.

Lemma for_all_ascii2 (P : ascii -> ascii -> Prop)
  `{forall a b, Decision (P a b)} :
  bool_decide (Forall (fun a => Forall (P a) all_ascii) all_ascii) = true ->
  forall a b, P a b.
Proof.
  intros Hb a b. apply bool_decide_eq_true in Hb.
  rewrite Forall_forall in Hb. specialize (Hb a (all_ascii_complete a)).
  rewrite Forall_forall in Hb. apply Hb, all_ascii_complete.
Qed.

Lemma two_ok (a b : ascii) :
  sextet_ok (q2 a b) /\ sextet_ok (q3 a b)
  /\ Base64.byte1 (q1 a) (q2 a b) = a
  /\ N.land (q2 a b) 15 = N.shiftr (N_of_ascii b) 4
  /\ N.shiftr (q3 a b) 2 = N.land (N_of_ascii a) 15
  /\ Base64.byte3 (q3 a b) (q4 b) = b.
Proof.
  revert a b.
  match goal with
  | |- forall a b : ascii, @?P a b => apply (for_all_ascii2 P)
  end.
  vm_compute. reflexivity.
Qed.

Lemma byte2_ok (b : ascii) :
  ascii_of_N (N.lor (N.shiftl (N.shiftr (N_of_ascii b) 4) 4)
                    (N.land (N_of_ascii b) 15)) = b
  /\ N.shiftr (N.shiftl (N.land (N_of_ascii b) 15) 2) 2
     = N.land (N_of_ascii b) 15.
Proof.
  revert b.
  match goal with
  | |- forall a : ascii, @?P a => apply (for_all_ascii P)
  end.
  vm_compute. reflexivity.
Qed.

Lemma string_ind3 (P : string -> Prop) :
  P "" ->
  (forall a, P (String a "")) ->
  (forall a b, P (String a (String b ""))) ->
  (forall a b c s, P s -> P (String a (String b (String c s)))) ->
  forall s, P s.
Proof.
  intros H0 H1 H2 H3 s.
  enough (H : P s /\ (forall a, P (String a s))
              /\ (forall a b, P (String a (String b s)))) by tauto.
  induction s as [| c s (IHa & IHb & IHc)]; [tauto |].
  split; [apply IHb |]. split; [intros x; apply IHc |].
  intros x y. now apply H3.
Qed.

Lemma strip_cons (c : ascii) (s : string) :
  Base64.strip_newlines (String c "") = String c "" ->
  Base64.strip_newlines (String c s) = String c (Base64.strip_newlines s).
Proof.
  simpl. destruct ((N_of_ascii c =? 10)%N || (N_of_ascii c =? 13)%N);
    [discriminate | reflexivity].
Qed.

Lemma encode_has_no_newline (s : string) :
  Base64.strip_newlines (Base64.EncodeToString s) = Base64.EncodeToString s.
Proof.
  induction s as [| a | a b | a b c s IH] using string_ind3.
  - reflexivity.
  - destruct (one_ok a) as ((_ & _ & S1) & _ & (_ & _ & S2) & _).
    cbn [Base64.EncodeToString]. fold (q1 a).
    rewrite (strip_cons _ _ S1), (strip_cons _ _ S2). reflexivity.
  - destruct (one_ok a) as ((_ & _ & S1) & _).
    destruct (one_ok b) as (_ & _ & _ & (_ & _ & S3) & _).
    destruct (two_ok a b) as ((_ & _ & S2) & _).
    cbn [Base64.EncodeToString]. fold (q1 a) (q2 a b).
    rewrite (strip_cons _ _ S1), (strip_cons _ _ S2), (strip_cons _ _ S3).
    reflexivity.
  - destruct (one_ok a) as ((_ & _ & S1) & _).
    destruct (one_ok c) as (_ & (_ & _ & S4) & _).
    destruct (two_ok a b) as ((_ & _ & S2) & _).
    destruct (two_ok b c) as (_ & (_ & _ & S3) & _).
    cbn [Base64.EncodeToString]. fold (q1 a) (q2 a b) (q3 b c) (q4 c).
    rewrite (strip_cons _ _ S1), (strip_cons _ _ S2), (strip_cons _ _ S3),
      (strip_cons _ _ S4), IH.
    reflexivity.
Qed.

Lemma decode_quanta_encode (s : string) :
  Base64.decode_quanta (Base64.EncodeToString s) = Some s.
Proof.
  induction s as [| a | a b | a b c s IH] using string_ind3.
  - reflexivity.
  - destruct (one_ok a) as ((D1 & _) & _ & (D2 & _) & _ & B1).
    cbn [Base64.EncodeToString Base64.decode_quanta]. fold (q1 a).
    rewrite D1, D2. cbn. rewrite B1. reflexivity.
  - destruct (one_ok a) as ((D1 & _) & _).
    destruct (one_ok b) as (_ & _ & _ & (D3 & E3 & _) & _).
    destruct (two_ok a b) as ((D2 & _) & _ & B1 & L & _).
    destruct (byte2_ok b) as (B2 & R).
    cbn [Base64.EncodeToString Base64.decode_quanta]. fold (q1 a) (q2 a b).
    rewrite D1, D2, E3, D3. cbn [Ascii.eqb Bool.eqb].
    unfold Base64.byte2. rewrite B1, L, R, B2. reflexivity.
  - destruct (one_ok a) as ((D1 & _) & _).
    destruct (one_ok c) as (_ & (D4 & E4 & _) & _).
    destruct (two_ok a b) as ((D2 & _) & _ & B1 & L & _).
    destruct (two_ok b c) as (_ & (D3 & E3 & _) & _ & _ & R & B3).
    destruct (byte2_ok b) as (B2 & _).
    cbn [Base64.EncodeToString Base64.decode_quanta].
    fold (q1 a) (q2 a b) (q3 b c) (q4 c).
    rewrite D1, D2, E3, D3, E4, D4, IH.
    unfold Base64.byte2. rewrite B1, L, R, B2, B3. reflexivity.
Qed.

Lemma base64_round_trip (s : string) :
  Base64.DecodeString (Base64.EncodeToString s) = Some s.
Proof.
  unfold Base64.DecodeString.
  rewrite encode_has_no_newline. apply decode_quanta_encode.
Qed.

(** ** The broadcast identifier *)

(** The two hexadecimal digits of a byte are both [f] only for 255. *)
Lemma hex_digits_f (c : ascii) :
  Hex.digit (N.shiftr (N_of_ascii c) 4) = "f"%char ->
  Hex.digit (N.land (N_of_ascii c) 15) = "f"%char ->
  N_of_ascii c = 255%N.
Proof.
  revert c.
  apply (for_all_ascii
           (fun c => Hex.digit (N.shiftr (N_of_ascii c) 4) = "f"%char ->
                     Hex.digit (N.land (N_of_ascii c) 15) = "f"%char ->
                     N_of_ascii c = 255%N)).
  vm_compute. reflexivity.
Qed.

(** An identifier whose text is all [f] has all sixteen bytes at 255. *)
Lemma UUID_String_all_ones (u : UUID) :
  UUID_String u = "ffffffff-ffff-ffff-ffff-ffffffffffff" ->
  Forall (fun c => N_of_ascii c = 255%N)
         (map ascii_of_N (SHA256.be_bytes 16 u)).
Proof.
  unfold UUID_String, Bytes.to_string. cbv [SHA256.be_bytes map].
  repeat match goal with
         | |- context [ascii_of_N ?x] => generalize (ascii_of_N x); intro
         end.
  cbv [string_of_list_ascii Hex.encode substring append].
  intros H.
  repeat match goal with
         | E : String _ _ = String _ _ |- _ => injection E; clear E; intros
         end.
  repeat (apply Forall_cons; split; [apply hex_digits_f; assumption |]).
  constructor.
Qed.

Lemma land_255_byte (x : N) :
  N_of_ascii (ascii_of_N (N.land x 255)) = N.land x 255.
Proof.
  apply N_ascii_embedding.
  change 255%N with (N.ones 8). rewrite N.land_ones.
  apply N.mod_upper_bound. discriminate.
Qed.

Lemma byte_bits (u k j : N) :
  N.land (N.shiftr u (8 * k)) 255 = 255%N ->
  (j < 8)%N ->
  N.testbit u (8 * k + j) = true.
Proof.
  intros H Hj.
  assert (Hb : N.testbit (N.land (N.shiftr u (8 * k)) 255) j = true).
  { rewrite H. change 255%N with (N.ones 8). now apply N.ones_spec_low. }
  rewrite N.land_spec, N.shiftr_spec' in Hb.
  apply andb_true_iff in Hb as [Hb _].
  rewrite N.add_comm. exact Hb.
Qed.

(** [AddJobChannel] recognises the broadcast by the text of the
    identifier; for a 128-bit identifier that text is the all-f one only
    for the all-ones value. *)
Lemma UUID_String_broadcast (u : UUID) :
  (u < 2 ^ 128)%N ->
  UUID_String u = "ffffffff-ffff-ffff-ffff-ffffffffffff" <-> u = broadcastID.
Proof.
  intros Hlt. split; [| intros ->; exact broadcastID_text].
  intros H. apply UUID_String_all_ones in H.
  cbv [SHA256.be_bytes map] in H.
  assert (Hk : forall k, (k < 16)%N ->
                 N.land (N.shiftr u (8 * k)) 255 = 255%N).
  { repeat match goal with
           | F : Forall _ (_ :: _) |- _ =>
               let E := fresh "E" in
               apply Forall_cons in F as [E F]; rewrite land_255_byte in E
           end.
    intros k Hk.
    assert (Hcases : In k (map N.of_nat (seq 0 16))).
    { replace k with (N.of_nat (N.to_nat k)) by apply N2Nat.id.
      apply in_map, in_seq. lia. }
    cbv [map seq] in Hcases.
    repeat (destruct Hcases as [<- | Hcases]; [assumption |]).
    contradiction. }
  apply N.bits_inj. intros n.
  change broadcastID with (N.ones 128).
  destruct (N.lt_ge_cases n 128) as [Hn | Hn].
  - rewrite N.ones_spec_low by exact Hn.
    rewrite (N.div_mod n 8) by discriminate.
    apply byte_bits.
    + apply Hk. apply N.Div0.div_lt_upper_bound; exact Hn.
    + apply N.mod_upper_bound. discriminate.
  - rewrite N.ones_spec_high by exact Hn.
    apply N.bits_above_log2.
    destruct (N.eq_dec u 0%N) as [-> | Hu]; [simpl; lia |].
    apply N.log2_lt_pow2 in Hlt; lia.
Qed.

Section Broadcast.

Variable rand : nat -> string * UUID.

(** The only error the loop over the agents can end with is the
    unknown-agent error of [buildJob]. *)
Lemma forAgents_fail_shape (known : list UUID) :
  forall (w w' : World) (job job' : Job) (jobArgs : list string)
         (results results' : list ResultLine) (e : Error),
    forAgents rand w known job jobArgs results = (results', Fail e, job', w') ->
    exists a, e = ErrUnknownAgent a.
Proof.
  induction known as [| a rest IH]; intros w w' job job' jobArgs results
    results' e; cbn [forAgents].
  - intros H. discriminate H.
  - destruct (buildJob rand w a job jobArgs) as [[[[] | e1 | p] job1] w1] eqn:Hb.
    + unfold Now. cbn [fst snd]. apply IH.
    + intros [= _ <- _ _].
      destruct (buildJob_shape _ _ _ _ _ _ _ _ Hb) as (_ & _ & Hf).
      exists a. exact (Hf e1 eq_refl).
    + intros H. discriminate H.
Qed.

(** X13. For a 128-bit identifier, [AddJobChannel] ends with the
    no-agents error exactly when the identifier is the broadcast one and
    the agent service knows no agent; no job, however it is built, and no
    other target gives that error. *)
Theorem AddJobChannel_no_agents (w : World) (a : UUID) (job : Job)
  (jobArgs : list string) :
  (a < 2 ^ 128)%N ->
  snd (fst (fst (AddJobChannel rand w a job jobArgs))) = Fail ErrNoAgents
  <-> a = broadcastID /\ agents w = [].
Proof.
  intros Hlt. unfold AddJobChannel, Agents.
  destruct (String.eqb (UUID_String a) _) eqn:Htxt.
  - apply String.eqb_eq, (UUID_String_broadcast a Hlt) in Htxt.
    destruct (agents w) as [| a1 rest] eqn:Hag; cbn [length Nat.leb].
    + cbn. tauto.
    + split; [| intros [_ H]; discriminate H].
      destruct (forAgents rand w (a1 :: rest) job jobArgs [CreatingForAll])
        as [[[r o] j] w1] eqn:Hfa.
      cbn [fst snd]. intros ->.
      destruct (forAgents_fail_shape _ _ _ _ _ _ _ _ _ Hfa) as [x Hx].
      discriminate Hx.
  - apply String.eqb_neq in Htxt.
    assert (Hne : a <> broadcastID).
    { intros ->. apply Htxt. now apply UUID_String_broadcast. }
    split; [| intros [H _]; contradiction].
    destruct (buildJob rand w a job jobArgs) as [[[[] | e | p] job1] w1] eqn:Hb;
      cbn [fst snd]; unfold Now; cbn [fst snd]; intros H;
      try discriminate H.
    injection H as ->.
    destruct (buildJob_shape _ _ _ _ _ _ _ _ Hb) as (_ & _ & Hf).
    discriminate (Hf _ eq_refl).
Qed.

End Broadcast.

Lemma AddJobChannel_no_agents_witness :
  snd (fst (fst (AddJobChannel demo_rand (demo_world []) broadcastID zeroJob
                               [])))
  = Fail ErrNoAgents
  <-> broadcastID = broadcastID /\ agents (demo_world []) = [].
Proof.
  apply (AddJobChannel_no_agents demo_rand (demo_world []) broadcastID
           zeroJob []).
  vm_compute. reflexivity.
Defined.

(** ** An uploaded file, echoed back

    X14. The blob [Add] builds for [upload] decodes to the bytes of the
    file it read; handed to [fileTransfer] for a known agent whose
    directory exists, the payload writes exactly those bytes to the
    destination. *)
Theorem upload_blob_round_trip (w : World) (a : UUID) (src dst : string)
  (rest : list string) (data : string) :
  Exist w a = true ->
  os.IsNotExist (fs w) (agentsDir w) = false ->
  os.ReadFile (fs w) src = Some data ->
  exists p args',
    build (fs w) "upload" (src :: dst :: rest)
    = Ok (typed FILETRANSFER (PFileTransfer p), args')
    /\ FileLocation p = dst /\ IsDownload p = true
    /\ Base64.DecodeString (FileBlob p) = Some data
    /\ (filepath.parent (downloadFile w a p) ∈ os.dirs (fs w) ->
        downloadFile w a p ∉ os.dirs (fs w) ->
        exists w',
          fileTransfer w a p = (Ok tt, w')
          /\ os.ReadFile (fs w') (downloadFile w a p) = Some data).
Proof.
  intros Hex Hyes Hread.
  exists (mkFileTransfer dst (Base64.EncodeToString data) true).
  assert (Hb : exists args',
             build (fs w) "upload" (src :: dst :: rest)
             = Ok (typed FILETRANSFER
                     (PFileTransfer
                        (mkFileTransfer dst (Base64.EncodeToString data) true)),
                   args')).
  { unfold build. cbn [String.eqb Ascii.eqb Bool.eqb orb].
    cbn [length Nat.ltb Nat.leb nth]. rewrite Hread.
    destruct rest as [| a2 [| a3 rest']]; eexists; reflexivity. }
  destruct Hb as [args' Hb]. exists args'.
  split; [exact Hb |]. cbn [FileLocation IsDownload FileBlob].
  repeat split; [apply base64_round_trip |].
  intros Hpar Hdst.
  destruct (fileTransfer_lands w a
              (mkFileTransfer dst (Base64.EncodeToString data) true)
              Hex eq_refl data Hyes
              (base64_round_trip data) Hpar Hdst) as (w' & Hft & Hfile & _).
  exists w'. split; [exact Hft |].
  unfold os.ReadFile. rewrite Hfile. reflexivity.
Qed.

Lemma upload_blob_round_trip_witness :
  exists p args',
    build (fs (demo_world [agentA])) "upload" ["/tmp/x"; "/c/x"]
    = Ok (typed FILETRANSFER (PFileTransfer p), args')
    /\ FileLocation p = "/c/x" /\ IsDownload p = true
    /\ Base64.DecodeString (FileBlob p) = Some "hello"
    /\ (filepath.parent (downloadFile (demo_world [agentA]) agentA p)
          ∈ os.dirs (fs (demo_world [agentA])) ->
        downloadFile (demo_world [agentA]) agentA p
          ∉ os.dirs (fs (demo_world [agentA])) ->
        exists w',
          fileTransfer (demo_world [agentA]) agentA p = (Ok tt, w')
          /\ os.ReadFile (fs w') (downloadFile (demo_world [agentA]) agentA p)
             = Some "hello").
Proof.
  apply (upload_blob_round_trip (demo_world [agentA]) agentA "/tmp/x" "/c/x"
           [] "hello"); vm_compute; reflexivity.
Defined.

(** ** Where a file sent by an agent can land *)

(** ** Reversal *)

Lemma string_app_cons (c : ascii) (s t : string) :
  (String c s ++ t)%string = String c (s ++ t).
Proof. reflexivity. Qed.

Lemma string_app_nil_l (s : string) : ("" ++ s)%string = s.
Proof. reflexivity. Qed.

Lemma string_app_assoc (s t u : string) :
  ((s ++ t) ++ u = s ++ (t ++ u))%string.
Proof.
  induction s as [| c s IH]; [reflexivity |].
  rewrite !string_app_cons, IH. reflexivity.
Qed.

Lemma string_app_nil_r (s : string) : (s ++ "")%string = s.
Proof.
  induction s as [| c s IH]; [reflexivity |].
  rewrite string_app_cons, IH. reflexivity.
Qed.

Lemma rev_string_acc (s acc : string) :
  Bytes.rev_string acc s = (Bytes.rev_string "" s ++ acc)%string.
Proof.
  revert acc. induction s as [| c s IH]; intros acc; [reflexivity |].
  cbn [Bytes.rev_string]. rewrite (IH (String c acc)), (IH (String c "")).
  rewrite string_app_assoc. reflexivity.
Qed.

Lemma rev_string_app (s t : string) :
  Bytes.rev_string "" (s ++ t)
  = (Bytes.rev_string "" t ++ Bytes.rev_string "" s)%string.
Proof.
  induction s as [| c s IH].
  - change ("" ++ t)%string with t. cbn [Bytes.rev_string].
    now rewrite string_app_nil_r.
  - rewrite string_app_cons. cbn [Bytes.rev_string].
    rewrite (rev_string_acc (s ++ t)), (rev_string_acc s), IH.
    now rewrite string_app_assoc.
Qed.

Lemma rev_string_invol (s : string) :
  Bytes.rev_string "" (Bytes.rev_string "" s) = s.
Proof.
  induction s as [| c s IH]; [reflexivity |].
  cbn [Bytes.rev_string]. rewrite (rev_string_acc s), rev_string_app, IH.
  reflexivity.
Qed.

Lemma slash_free_app (s t : string) :
  slash_free (s ++ t) = slash_free s && slash_free t.
Proof.
  induction s as [| c s IH]; [reflexivity |].
  rewrite string_app_cons. cbn [slash_free]. rewrite IH.
  now rewrite andb_assoc.
Qed.

Lemma slash_free_rev (s acc : string) :
  slash_free (Bytes.rev_string acc s) = slash_free s && slash_free acc.
Proof.
  revert acc. induction s as [| c s IH]; intros acc; [reflexivity |].
  cbn [Bytes.rev_string slash_free]. rewrite IH. cbn [slash_free].
  destruct (Ascii.eqb c "/"), (slash_free s), (slash_free acc); reflexivity.
Qed.

(** ** [filepath.Split] *)

Lemma split_rev_slash_free (s acc : string) :
  slash_free acc = true -> slash_free (snd (filepath.split_rev acc s)) = true.
Proof.
  revert acc. induction s as [| c s IH]; intros acc Hacc; [exact Hacc |].
  cbn [filepath.split_rev]. destruct (Ascii.eqb c "/") eqn:E; [exact Hacc |].
  apply IH. cbn [slash_free]. now rewrite E.
Qed.

Lemma Split_file_slash_free (path : string) :
  slash_free (snd (filepath.Split path)) = true.
Proof.
  unfold filepath.Split.
  pose proof (split_rev_slash_free (Bytes.rev_string "" path) "" eq_refl) as H.
  destruct (filepath.split_rev "" (Bytes.rev_string "" path)). exact H.
Qed.

Lemma split_rev_app (g r acc : string) :
  slash_free g = true ->
  filepath.split_rev acc (g ++ String "/" r)
  = (String "/" r, Bytes.rev_string acc g).
Proof.
  revert acc. induction g as [| c g IH]; intros acc Hg; [reflexivity |].
  cbn [slash_free] in Hg. apply andb_true_iff in Hg as [Hc Hg].
  rewrite string_app_cons. cbn [filepath.split_rev].
  apply negb_true_iff in Hc. rewrite Hc.
  now rewrite IH.
Qed.

Lemma Split_app (X f : string) :
  slash_free f = true ->
  filepath.Split (X ++ String "/" f) = ((X ++ "/")%string, f).
Proof.
  intros Hf. unfold filepath.Split.
  rewrite rev_string_app. cbn [Bytes.rev_string].
  rewrite (rev_string_acc f "/"), string_app_assoc.
  change ("/" ++ Bytes.rev_string "" X)%string
    with (String "/" (Bytes.rev_string "" X)).
  rewrite split_rev_app by (rewrite slash_free_rev, Hf; reflexivity).
  rewrite rev_string_invol. cbn [Bytes.rev_string].
  rewrite rev_string_acc, rev_string_invol. reflexivity.
Qed.

Lemma parent_app (X f : string) :
  slash_free f = true -> X <> "" ->
  filepath.parent (X ++ String "/" f) = X.
Proof.
  intros Hf HX. unfold filepath.parent. rewrite Split_app by exact Hf.
  cbn [fst].
  destruct X as [| c X]; [contradiction |].
  replace (String.eqb (String c X ++ "/") "/") with false.
  2:{ rewrite string_app_cons. cbn [String.eqb].
      destruct (Ascii.eqb c "/"); [| reflexivity].
      destruct X; reflexivity. }
  rewrite rev_string_app. change (Bytes.rev_string "" "/") with "/".
  rewrite string_app_cons, string_app_nil_l. cbv iota beta.
  apply rev_string_invol.
Qed.

(** ** [filepath.Clean] *)

Lemma components_slash_free (f cur : string) :
  slash_free f = true ->
  filepath.components cur f = [Bytes.rev_string "" (Bytes.rev_string cur f)].
Proof.
  revert cur. induction f as [| c f IH]; intros cur Hf; [reflexivity |].
  cbn [slash_free] in Hf. apply andb_true_iff in Hf as [Hc Hf].
  apply negb_true_iff in Hc.
  cbn [filepath.components Bytes.rev_string]. rewrite Hc. now apply IH.
Qed.

Lemma components_app (X f cur : string) :
  slash_free f = true ->
  filepath.components cur (X ++ String "/" f)
  = filepath.components cur X ++ [f].
Proof.
  intros Hf. revert cur. induction X as [| c X IH]; intros cur.
  - rewrite string_app_nil_l. cbn [filepath.components].
    change (Ascii.eqb "/" "/") with true. cbv iota.
    rewrite (components_slash_free f "" Hf), rev_string_invol. reflexivity.
  - rewrite string_app_cons. cbn [filepath.components].
    destruct (Ascii.eqb c "/"); rewrite IH; reflexivity.
Qed.

Lemma plain_name_spec (f : string) :
  plain_name f = true ->
  slash_free f = true
  /\ (String.eqb f "" || String.eqb f ".")%bool = false
  /\ String.eqb f ".." = false.
Proof.
  unfold plain_name. intros H.
  repeat (apply andb_true_iff in H as [H ?]).
  repeat match goal with
         | E : negb _ = true |- _ => apply negb_true_iff in E
         end.
  repeat split; try assumption.
  apply orb_false_iff. now split.
Qed.

Lemma clean_components_snoc (rooted : bool) (f : string) (cs : list string) :
  plain_name f = true ->
  forall stack,
    filepath.clean_components rooted stack (cs ++ [f])
    = filepath.clean_components rooted stack cs ++ [f].
Proof.
  intros Hf. destruct (plain_name_spec f Hf) as (_ & Hd & Hdd).
  induction cs as [| c cs IH]; intros stack.
  - cbn [app filepath.clean_components]. rewrite Hd, Hdd. reflexivity.
  - cbn [app filepath.clean_components].
    destruct (String.eqb c "" || String.eqb c ".")%bool; [apply IH |].
    destruct (String.eqb c ".."); [| apply IH].
    destruct stack as [| top stack]; [destruct rooted; apply IH |].
    destruct (String.eqb top ".."); apply IH.
Qed.

Lemma clean_components_dot (rooted : bool) (cs : list string) :
  forall stack,
    filepath.clean_components rooted stack (cs ++ ["."])
    = filepath.clean_components rooted stack cs.
Proof.
  induction cs as [| c cs IH]; intros stack.
  - reflexivity.
  - cbn [app filepath.clean_components].
    destruct (String.eqb c "" || String.eqb c ".")%bool; [apply IH |].
    destruct (String.eqb c ".."); [| apply IH].
    destruct stack as [| top stack]; [destruct rooted; apply IH |].
    destruct (String.eqb top ".."); apply IH.
Qed.

Lemma clean_components_pop (rooted : bool) (u : string) (cs : list string) :
  plain_name u = true ->
  forall stack,
    filepath.clean_components rooted stack (cs ++ [u; ".."])
    = filepath.clean_components rooted stack cs.
Proof.
  intros Hu. destruct (plain_name_spec u Hu) as (_ & Hd & Hdd).
  induction cs as [| c cs IH]; intros stack.
  - cbn [app filepath.clean_components]. rewrite Hd, Hdd.
    reflexivity.
  - cbn [app filepath.clean_components].
    destruct (String.eqb c "" || String.eqb c ".")%bool; [apply IH |].
    destruct (String.eqb c ".."); [| apply IH].
    destruct stack as [| top stack]; [destruct rooted; apply IH |].
    destruct (String.eqb top ".."); apply IH.
Qed.

Lemma rooted_app (X s : string) :
  X <> "" -> rooted (X ++ s) = rooted X.
Proof. destruct X; [contradiction | reflexivity]. Qed.

Lemma cleaned_snoc (X f : string) :
  X <> "" -> plain_name f = true ->
  cleaned (X ++ String "/" f) = cleaned X ++ [f].
Proof.
  intros HX Hf. unfold cleaned. fold (rooted (X ++ String "/" f)) (rooted X).
  rewrite rooted_app by exact HX.
  rewrite components_app by apply (plain_name_spec f Hf).
  now apply clean_components_snoc.
Qed.

Lemma cleaned_dot (X : string) :
  X <> "" -> cleaned (X ++ "/.") = cleaned X.
Proof.
  intros HX. unfold cleaned. fold (rooted (X ++ "/.")) (rooted X).
  rewrite rooted_app by exact HX.
  rewrite components_app by reflexivity.
  apply clean_components_dot.
Qed.

Lemma cleaned_pop (X u : string) :
  X <> "" -> plain_name u = true ->
  cleaned (X ++ String "/" (u ++ "/..")) = cleaned X.
Proof.
  intros HX Hu. unfold cleaned.
  fold (rooted (X ++ String "/" (u ++ "/.."))) (rooted X).
  rewrite rooted_app by exact HX.
  change (String "/" (u ++ "/.."))%string with ("/" ++ (u ++ "/.."))%string.
  rewrite <- !string_app_assoc.
  change ((X ++ "/") ++ u)%string with ((X ++ "/") ++ u)%string.
  rewrite string_app_assoc with (s := X).
  change ("/" ++ u)%string with (String "/" u).
  rewrite components_app by reflexivity.
  rewrite components_app by apply (plain_name_spec u Hu).
  rewrite <- app_assoc. cbn [app].
  now apply clean_components_pop.
Qed.

Lemma Clean_cleaned (path : string) :
  filepath.Clean path
  = if rooted path then ("/" ++ Bytes.Join (cleaned path) "/")%string
    else if String.eqb (Bytes.Join (cleaned path) "/") "" then "."
         else Bytes.Join (cleaned path) "/".
Proof. reflexivity. Qed.

Lemma Clean_nonempty (path : string) : filepath.Clean path <> "".
Proof.
  rewrite Clean_cleaned. destruct (rooted path); [discriminate |].
  destruct (String.eqb _ "") eqn:E; [discriminate |].
  now apply String.eqb_neq in E.
Qed.

Lemma Join_snoc (cs : list string) (f sep : string) :
  cs <> [] ->
  Bytes.Join (cs ++ [f]) sep = (Bytes.Join cs sep ++ sep ++ f)%string.
Proof.
  induction cs as [| c cs IH]; [contradiction |]. intros _.
  destruct cs as [| c' cs]; [reflexivity |].
  change (Bytes.Join ((c :: c' :: cs) ++ [f]) sep)
    with (c ++ sep ++ Bytes.Join ((c' :: cs) ++ [f]) sep)%string.
  rewrite IH by discriminate.
  change (Bytes.Join (c :: c' :: cs) sep)
    with (c ++ sep ++ Bytes.Join (c' :: cs) sep)%string.
  now rewrite !string_app_assoc.
Qed.

Lemma string_app_nonempty_r (s t : string) : t <> "" -> (s ++ t)%string <> "".
Proof.
  intros Ht. destruct s; [exact Ht |]. rewrite string_app_cons. discriminate.
Qed.

Lemma Join_last_nonempty (cs : list string) (u sep : string) :
  u <> "" -> Bytes.Join (cs ++ [u]) sep <> "".
Proof.
  intros Hu. destruct cs as [| c cs]; [exact Hu |].
  rewrite Join_snoc by discriminate.
  now apply string_app_nonempty_r, string_app_nonempty_r.
Qed.

(** A path whose last element is a name: cleaning keeps a further name
    appended to it. *)
Lemma Clean_snoc (X f u : string) (cs : list string) :
  X <> "" -> cleaned X = cs ++ [u] -> u <> "" -> plain_name f = true ->
  filepath.Clean (X ++ String "/" f)
  = (filepath.Clean X ++ String "/" f)%string.
Proof.
  intros HX Hcs Hu Hf. rewrite !Clean_cleaned.
  rewrite rooted_app by exact HX.
  rewrite cleaned_snoc by assumption.
  rewrite Join_snoc by (rewrite Hcs; now destruct cs).
  pose proof (Join_last_nonempty cs u "/" Hu) as Hne. rewrite <- Hcs in Hne.
  destruct (rooted X).
  - now rewrite string_app_assoc.
  - apply String.eqb_neq in Hne. rewrite Hne.
    replace (String.eqb (Bytes.Join (cleaned X) "/" ++ "/" ++ f) "")
      with false; [reflexivity |].
    symmetry. apply String.eqb_neq, string_app_nonempty_r. discriminate.
Qed.

Lemma Clean_same (X Y : string) :
  rooted X = rooted Y -> cleaned X = cleaned Y ->
  filepath.Clean X = filepath.Clean Y.
Proof. intros Hr Hc. rewrite !Clean_cleaned, Hr, Hc. reflexivity. Qed.

Lemma plain_name_cases (f : string) :
  slash_free f = true ->
  plain_name f = true \/ f = "" \/ f = "." \/ f = "..".
Proof.
  intros Hf. unfold plain_name. rewrite Hf.
  destruct (String.eqb f "") eqn:E1; [apply String.eqb_eq in E1; auto |].
  destruct (String.eqb f ".") eqn:E2; [apply String.eqb_eq in E2; auto |].
  destruct (String.eqb f "..") eqn:E3; [apply String.eqb_eq in E3; auto |].
  left. reflexivity.
Qed.

Lemma plain_name_nonempty (f : string) : plain_name f = true -> f <> "".
Proof.
  intros H ->. discriminate H.
Qed.

Lemma Join2 (A U : string) :
  A <> "" -> U <> "" ->
  filepath.Join [A; U] = filepath.Clean (A ++ String "/" U).
Proof.
  intros HA HU. destruct A; [contradiction |]. destruct U; [contradiction |].
  reflexivity.
Qed.

Lemma Join3 (A U f : string) :
  A <> "" -> U <> "" -> f <> "" ->
  filepath.Join [A; U; f]
  = filepath.Clean ((A ++ String "/" U) ++ String "/" f).
Proof.
  intros HA HU Hf. destruct A; [contradiction |]. destruct U; [contradiction |].
  destruct f; [contradiction |].
  rewrite string_app_assoc. reflexivity.
Qed.

Lemma Join3_empty (A U : string) :
  filepath.Join [A; U; ""] = filepath.Join [A; U].
Proof. destruct A, U; reflexivity. Qed.

(** Where [filepath.Join] puts a file name under a directory [A/U]: in
    that directory when the name is a path element, and otherwise on the
    directory itself or on the directory above. *)
Lemma Join_under (A U f u : string) (cs : list string) :
  A <> "" -> cleaned A = cs ++ [u] -> u <> "" ->
  plain_name U = true -> slash_free f = true ->
  filepath.parent (filepath.Join [A; U; f]) = filepath.Join [A; U]
  \/ filepath.Join [A; U; f] = filepath.Join [A; U]
  \/ filepath.Join [A; U; f] = filepath.parent (filepath.Join [A; U]).
Proof.
  intros HA Hcs Hu HU Hf.
  pose proof (plain_name_nonempty U HU) as HUne.
  assert (HAU : (A ++ String "/" U)%string <> "").
  { destruct A; [contradiction | discriminate]. }
  assert (HD : filepath.Join [A; U]
               = (filepath.Clean A ++ String "/" U)%string).
  { rewrite Join2 by assumption.
    exact (Clean_snoc A U u cs HA Hcs Hu HU). }
  destruct (plain_name_cases f Hf) as [Hp | [-> | [-> | ->]]].
  - left. rewrite Join3 by (try assumption; now apply plain_name_nonempty).
    rewrite (Clean_snoc (A ++ String "/" U) f U (cleaned A) HAU
               (cleaned_snoc A U HA HU) HUne Hp).
    rewrite parent_app; [| apply (plain_name_spec f Hp) | apply Clean_nonempty].
    symmetry. now apply Join2.
  - right. left. apply Join3_empty.
  - right. left. rewrite Join3, Join2 by (assumption || discriminate).
    apply Clean_same; [now rewrite rooted_app | now apply cleaned_dot].
  - right. right. rewrite Join3 by (assumption || discriminate). rewrite HD.
    rewrite parent_app;
      [| apply (plain_name_spec U HU) | apply Clean_nonempty].
    rewrite string_app_assoc. rewrite string_app_cons.
    apply Clean_same.
    + now rewrite rooted_app.
    + now apply cleaned_pop.
Qed.

(** ** The directories of the service *)

Lemma agentsDir_shape (w : World) :
  agentsDir w <> ""
  /\ exists cs, cleaned (agentsDir w) = cs ++ ["agents"].
Proof.
  unfold agentsDir. destruct (CurrentDir w) as [| c cwd] eqn:Hcwd.
  - split; [discriminate |]. exists ["data"]. reflexivity.
  - rewrite Join3 by discriminate.
    rewrite (Clean_snoc (String c cwd ++ "/data") "agents" "data"
               (cleaned (String c cwd)));
      [| discriminate | now apply cleaned_snoc | discriminate | reflexivity].
    split.
    + apply string_app_nonempty_r. discriminate.
    + eexists. apply cleaned_snoc; [apply Clean_nonempty | reflexivity].
Qed.

Lemma slash_free_substring (s : string) :
  slash_free s = true -> forall n m, slash_free (substring n m s) = true.
Proof.
  induction s as [| c s IH]; intros Hs n m.
  - destruct n, m; reflexivity.
  - cbn [slash_free] in Hs. apply andb_true_iff in Hs as [Hc Hs].
    destruct n as [| n]; cbn [substring].
    + destruct m as [| m]; [reflexivity |].
      cbn [slash_free]. rewrite Hc. now apply IH.
    + now apply IH.
Qed.

Lemma hex_digits_slash_free (c : ascii) :
  negb (Ascii.eqb (Hex.digit (N.shiftr (N_of_ascii c) 4)) "/")
  && negb (Ascii.eqb (Hex.digit (N.land (N_of_ascii c) 15)) "/") = true.
Proof.
  revert c.
  apply (for_all_ascii
           (fun c =>
              negb (Ascii.eqb (Hex.digit (N.shiftr (N_of_ascii c) 4)) "/")
              && negb (Ascii.eqb (Hex.digit (N.land (N_of_ascii c) 15)) "/")
              = true)).
  vm_compute. reflexivity.
Qed.

Lemma Hex_encode_slash_free (s : string) : slash_free (Hex.encode s) = true.
Proof.
  induction s as [| c s IH]; [reflexivity |].
  cbn [Hex.encode slash_free]. rewrite IH, andb_true_r.
  apply hex_digits_slash_free.
Qed.

Lemma UUID_String_plain (u : UUID) : plain_name (UUID_String u) = true.
Proof.
  assert (Hs : slash_free (UUID_String u) = true).
  { unfold UUID_String. cbv zeta.
    rewrite !slash_free_app.
    rewrite !slash_free_substring by apply Hex_encode_slash_free.
    reflexivity. }
  assert (Hl : 4 <= String.length (UUID_String u)).
  { unfold UUID_String. cbv zeta. rewrite !string_length_app.
    change (String.length "-") with 1. lia. }
  unfold plain_name. rewrite Hs.
  destruct (UUID_String u) as [| c1 [| c2 [| c3 s]]]; cbn in Hl; try lia.
  cbn [String.eqb]. destruct (Ascii.eqb c1 "."); [| reflexivity].
  destruct (Ascii.eqb c2 "."); reflexivity.
Qed.

(** Where a file sent by an agent can land. *)
Lemma downloadFile_under (w : World) (a : UUID) (p : FileTransfer) :
  filepath.parent (downloadFile w a p) = agentDir w a
  \/ downloadFile w a p = agentDir w a
  \/ downloadFile w a p = filepath.parent (agentDir w a).
Proof.
  destruct (agentsDir_shape w) as [HA [cs Hcs]].
  unfold downloadFile, agentDir.
  apply (Join_under _ _ _ "agents" cs HA Hcs); [discriminate | |].
  - apply UUID_String_plain.
  - apply Split_file_slash_free.
Qed.

(** [fileTransfer] leaves the file system alone or makes the one write to
    the destination. *)
Lemma fileTransfer_fs (w w' : World) (a : UUID) (p : FileTransfer)
  (o : Outcome unit) :
  fileTransfer w a p = (o, w') ->
  fs w' = fs w
  \/ exists blob,
       os.WriteFile (fs w) (downloadFile w a p) blob mode_0600 = Some (fs w').
Proof.
  unfold fileTransfer, log_and_fail, agentService_Log.
  destruct (negb (Exist w a)); [intros [= <- <-]; auto |].
  destruct (IsDownload p); [| intros [= <- <-]; auto].
  fold (agentsDir w).
  destruct (os.IsNotExist _ _).
  { destruct (Exist _ _); intros [= <- <-]; auto. }
  simpl.
  destruct (Base64.DecodeString _) as [blob |].
  2:{ destruct (Exist _ _); intros [= <- <-]; auto. }
  fold (downloadFile w a p).
  destruct (os.WriteFile (fs w) (downloadFile w a p) blob mode_0600)
    as [fs' |] eqn:Hw.
  - simpl. destruct (Exist _ _); intros [= <- <-]; right; exists blob;
      exact Hw.
  - simpl. destruct (Exist _ _); intros [= <- <-]; auto.
Qed.

(** X15. When the directory of the agent and the directory above it
    exist, [fileTransfer] changes no file outside the directory of the
    agent, whatever location the agent names: the one file that can change
    is the destination, and it lies directly in that directory. *)
Theorem fileTransfer_confined (w w' : World) (a : UUID) (p : FileTransfer)
  (o : Outcome unit) :
  agentDir w a ∈ os.dirs (fs w) ->
  filepath.parent (agentDir w a) ∈ os.dirs (fs w) ->
  fileTransfer w a p = (o, w') ->
  forall name,
    os.files (fs w') !! name <> os.files (fs w) !! name ->
    name = downloadFile w a p /\ filepath.parent name = agentDir w a.
Proof.
  intros HD HP Hft name Hch.
  destruct (fileTransfer_fs _ _ _ _ _ Hft) as [Hsame | [blob Hw]].
  { rewrite Hsame in Hch. contradiction. }
  unfold os.WriteFile in Hw.
  destruct (bool_decide (downloadFile w a p ∈ os.dirs (fs w))) eqn:Hdir;
    [discriminate Hw |].
  apply bool_decide_eq_false in Hdir.
  destruct (negb (bool_decide _)); [discriminate Hw |].
  injection Hw as Hw. rewrite <- Hw in Hch. cbn [os.files] in Hch.
  assert (Hname : name = downloadFile w a p).
  { destruct (decide (name = downloadFile w a p)) as [E | E]; [exact E |].
    exfalso. apply Hch. apply lookup_insert_ne. congruence. }
  split; [exact Hname |]. subst name.
  destruct (downloadFile_under w a p) as [H | [H | H]]; [exact H | |];
    exfalso; apply Hdir; rewrite H; assumption.
Qed.

Lemma fileTransfer_confined_witness :
  let w := world_with (tracked "job0" FILETRANSFER SENT) in
  let p := mkFileTransfer "../../etc/cron.d/x" "Zm9v" true in
  agentDir w agentA
  = "/srv/merlin/data/agents/0a0a0a0a-0a0a-0a0a-0a0a-0a0a0a0a0a0a"
  /\ forall name,
       os.files (fs (snd (fileTransfer w agentA p))) !! name
       <> os.files (fs w) !! name ->
       name = downloadFile w agentA p
       /\ filepath.parent name = agentDir w agentA.
Proof.
  intros w p. split; [vm_compute; reflexivity |].
  apply (fileTransfer_confined w (snd (fileTransfer w agentA p)) agentA p
           (fst (fileTransfer w agentA p)));
    vm_compute; reflexivity.
Defined.

(** ** The job tables *)

Section TableProperties.

Variable RFC3339 : Instant -> string.
Variable status_number : Status -> N.

Lemma listed_spec (job : JobInfo) :
  listed job = true
  <-> Info_Status job <> COMPLETE /\ Info_Status job <> CANCELED.
Proof.
  unfold listed. rewrite andb_true_iff, !negb_true_iff.
  rewrite !bool_decide_eq_false. reflexivity.
Qed.

Lemma active_rows_spec (a : UUID) (entry : string * JobInfo)
  (row : list string) :
  row ∈ active_rows RFC3339 status_number a entry
  <-> Info_AgentID entry.2 = a /\ listed entry.2 = true
      /\ row = [entry.1; Info_Command entry.2;
                status_text_active status_number (Info_Status entry.2);
                RFC3339 (Info_Created entry.2); sent_text RFC3339 entry.2].
Proof.
  destruct entry as [id job]. unfold active_rows. cbn [fst snd].
  destruct (bool_decide (Info_AgentID job = a)) eqn:Ha.
  - apply bool_decide_eq_true in Ha.
    destruct (listed job).
    + rewrite list_elem_of_singleton. tauto.
    + split; [intros H; inversion H | intros (_ & H & _); discriminate H].
  - apply bool_decide_eq_false in Ha.
    split; [intros H; inversion H | intros (H & _); contradiction].
Qed.

(** X16. For a known agent [GetTableActive] returns one row for every
    record of that agent that is neither COMPLETE nor CANCELED, and no
    other row; the status column of a row is one of Active, Created, Sent
    and Returned, never the unknown-status text. *)
Theorem GetTableActive_rows (w : World) (a : UUID) :
  Exist w a = true ->
  exists rows,
    GetTableActive RFC3339 status_number w a = Ok rows
    /\ forall row,
         row ∈ rows
         <-> exists id job,
               memory.GetInfo (jobRepo w) id = Some job
               /\ Info_AgentID job = a
               /\ Info_Status job <> COMPLETE
               /\ Info_Status job <> CANCELED
               /\ status_text_active status_number (Info_Status job)
                  ∈ ["Active"; "Created"; "Sent"; "Returned"]
               /\ row = [id; Info_Command job;
                         status_text_active status_number (Info_Status job);
                         RFC3339 (Info_Created job);
                         sent_text RFC3339 job].
Proof.
  unfold GetTableActive. intros Hex; rewrite Hex.
  cbn [negb]. eexists. split; [reflexivity |]. intros row.
  rewrite list_elem_of_In, in_flat_map. split.
  - intros ([id job] & Hin & Hrow).
    apply list_elem_of_In, elem_of_map_to_list in Hin.
    apply list_elem_of_In, active_rows_spec in Hrow.
    cbn [fst snd] in Hrow. destruct Hrow as (Ha & Hl & ->).
    apply listed_spec in Hl as [Hc Hx].
    exists id, job. repeat split; try assumption.
    destruct (Info_Status job); try contradiction; set_solver.
  - intros (id & job & Hget & Ha & Hc & Hx & _ & ->).
    exists (id, job). split.
    + apply list_elem_of_In, elem_of_map_to_list. exact Hget.
    + apply list_elem_of_In, active_rows_spec. cbn [fst snd].
      repeat split; [exact Ha |]. apply listed_spec. now split.
Qed.

Lemma all_rows_spec (entry : string * JobInfo) (row : list string) :
  row ∈ all_rows RFC3339 status_number entry
  <-> listed entry.2 = true
      /\ row = [UUID_String (Info_AgentID entry.2); entry.1;
                Info_Command entry.2;
                status_text_all status_number (Info_Status entry.2);
                RFC3339 (Info_Created entry.2); sent_text RFC3339 entry.2].
Proof.
  destruct entry as [id job]. unfold all_rows. cbn [fst snd].
  destruct (listed job).
  - rewrite list_elem_of_singleton. tauto.
  - split; [intros H; inversion H | intros (H & _); discriminate H].
Qed.

(** X17. Every row of [GetTableActive] is, with the text of the agent
    identifier in front, a row of [GetTableAll], except for the status
    column of an ACTIVE record: [GetTableAll] has no case for ACTIVE and
    shows it as an unknown status with its number. *)
Theorem tables_differ_on_active (w : World) (a : UUID)
  (rows : list (list string)) (id command status created sent : string) :
  GetTableActive RFC3339 status_number w a = Ok rows ->
  [id; command; status; created; sent] ∈ rows ->
  [UUID_String a; id; command;
   if String.eqb status "Active"
   then ("Unknown job status: " ++ Bytes.decimal (status_number ACTIVE))%string
   else status;
   created; sent] ∈ GetTableAll RFC3339 status_number w.
Proof.
  unfold GetTableActive, GetTableAll.
  destruct (negb (Exist w a)); [discriminate |]. intros [= <-] Hrow.
  apply list_elem_of_In, in_flat_map in Hrow as ([i job] & Hin & Hrow).
  apply list_elem_of_In, active_rows_spec in Hrow.
  cbn [fst snd] in Hrow. destruct Hrow as (Ha & Hl & [= -> -> -> -> ->]).
  apply list_elem_of_In, in_flat_map. exists (i, job). split; [exact Hin |].
  apply list_elem_of_In, all_rows_spec. cbn [fst snd].
  split; [exact Hl |]. rewrite Ha.
  apply listed_spec in Hl as [Hc Hx].
  destruct (Info_Status job); try contradiction; reflexivity.
Qed.

End TableProperties.

Lemma GetTableActive_rows_witness :
  exists rows,
    GetTableActive demo_time demo_status_number
      (world_with (tracked "job0" SOCKS ACTIVE)) agentA = Ok rows
    /\ forall row,
         row ∈ rows
         <-> exists id job,
               memory.GetInfo (jobRepo (world_with (tracked "job0" SOCKS ACTIVE)))
                 id = Some job
               /\ Info_AgentID job = agentA
               /\ Info_Status job <> COMPLETE
               /\ Info_Status job <> CANCELED
               /\ status_text_active demo_status_number (Info_Status job)
                  ∈ ["Active"; "Created"; "Sent"; "Returned"]
               /\ row = [id; Info_Command job;
                         status_text_active demo_status_number
                           (Info_Status job);
                         demo_time (Info_Created job);
                         sent_text demo_time job].
Proof.
  apply (GetTableActive_rows demo_time demo_status_number
           (world_with (tracked "job0" SOCKS ACTIVE)) agentA).
  vm_compute. reflexivity.
Defined.

Lemma tables_differ_on_active_witness :
  ["0a0a0a0a-0a0a-0a0a-0a0a-0a0a0a0a0a0a"; "job0"; "";
   "Unknown job status: 6"; "1"; "2"]
  ∈ GetTableAll demo_time demo_status_number
      (world_with (tracked "job0" SOCKS ACTIVE)).
Proof.
  apply (tables_differ_on_active demo_time demo_status_number
           (world_with (tracked "job0" SOCKS ACTIVE)) agentA
           [["job0"; ""; "Active"; "1"; "2"]]
           "job0" "" "Active" "1" "2").
  - vm_compute. reflexivity.
  - apply list_elem_of_here.
Defined.

(** ** From the operator to the agent and back *)

(** Marking the drained jobs as sent leaves a record as it was or as sent
    at that instant. *)
Lemma fold_mark_sent (now : Instant) (k : string) (js : list Job) :
  forall (m : gmap string JobInfo) (i : JobInfo),
    m !! k = Some i ->
    fold_left (memory.mark (fun i => Info_sent_at i now)) js m !! k = Some i
    \/ fold_left (memory.mark (fun i => Info_sent_at i now)) js m !! k
       = Some (Info_sent_at i now).
Proof.
  induction js as [| j js IH]; intros m i Hk; [left; exact Hk |].
  cbn [fold_left]. unfold memory.mark at 2 4.
  destruct (decide (Job_ID j = k)) as [E | Hne].
  - rewrite E, Hk.
    assert (Hk' : <[k := Info_sent_at i now]> m !! k
                  = Some (Info_sent_at i now)) by apply lookup_insert_eq.
    destruct (IH _ _ Hk') as [H | H]; right; exact H.
  - destruct (m !! Job_ID j); [| now apply IH].
    apply IH. rewrite lookup_insert_ne by exact Hne. exact Hk.
Qed.

Lemma fold_mark_wf (f : JobInfo -> JobInfo) (js : list Job) :
  (forall i, Info_ID (f i) = Info_ID i) ->
  forall (m : gmap string JobInfo),
    (forall k i, m !! k = Some i -> Info_ID i = k) ->
    forall k i, fold_left (memory.mark f) js m !! k = Some i -> Info_ID i = k.
Proof.
  intros Hf. induction js as [| j js IH]; intros m Hwf; [exact Hwf |].
  cbn [fold_left]. apply IH. unfold memory.mark.
  destruct (m !! Job_ID j) as [x |] eqn:Hx; [| exact Hwf].
  intros k i. rewrite lookup_insert. case_decide as Hk.
  - intros [= <-]. rewrite Hf, <- Hk. now apply Hwf.
  - apply Hwf.
Qed.

(** What [Get] returns and leaves in the repository. *)
Lemma Get_spec (w : World) (a : UUID) :
  fst (Get w a) = default [] (memory.queue (jobRepo w) !! a)
  /\ jobRepo (snd (Get w a))
     = memory.mkRepo
         (delete a (memory.queue (jobRepo w)))
         (fold_left (memory.mark (fun i => Info_sent_at i (clock w)))
                    (default [] (memory.queue (jobRepo w) !! a))
                    (memory.infos (jobRepo w)))
  /\ agents (snd (Get w a)) = agents w.
Proof. repeat split. Qed.

Section Lifecycle.

Variable rand : nat -> string * UUID.

(** The world [Add] leaves for one known agent and a free identifier. *)
Lemma Add_single_agent_state (w : World) (a : UUID) (kind : string)
  (args args' : list string) (job : Job) :
  Exist w a = true ->
  UUID_String a <> "ffffffff-ffff-ffff-ffff-ffffffffffff" ->
  build (fs w) kind args = Ok (job, args') ->
  memory.infos (jobRepo w) !! fst (rand (entropy w)) = None ->
  exists command results w1,
    Add rand w a kind args = (results, Ok tt, w1)
    /\ agents w1 = agents w
    /\ memory.infos (jobRepo w1)
       = <[fst (rand (entropy w)) :=
             mkInfo (fst (rand (entropy w))) a (jobs_String (Job_Type job))
                    (snd (rand (entropy w))) CREATED command (clock w) 0 0]>
           (memory.infos (jobRepo w))
    /\ memory.queue (jobRepo w1)
       = <[a := default [] (memory.queue (jobRepo w) !! a)
                ++ [mkJob (fst (rand (entropy w))) a (snd (rand (entropy w)))
                          (Job_Type job) (Job_Payload job)]]>
           (memory.queue (jobRepo w)).
Proof.
  intros Hex Hbc Hb Hfresh.
  destruct (build_zero_fields _ _ _ _ _ Hb) as [Hid Htok].
  destruct (buildJob_fresh rand w a job args' Hex
              (build_describable _ _ _ _ _ a Hb) Hfresh)
    as (command & wb & Hbj & Hag & _ & Hi & Hq).
  rewrite Hid, Htok in Hbj, Hq. cbn [String.eqb] in Hbj, Hq.
  rewrite bool_decide_eq_true_2 in Hbj, Hq by reflexivity.
  exists command. do 2 eexists.
  unfold Add. rewrite Hb. unfold AddJobChannel.
  rewrite (proj2 (String.eqb_neq _ _) Hbc), Hbj.
  unfold Now. cbn [fst snd Job_ID].
  split; [reflexivity |]. cbn [jobRepo agents]. auto.
Qed.

Lemma dispatch_result (w : World) (agent : UUID) (job : Job) (r : Results) :
  Job_Type job = RESULT -> Job_Payload job = PResults r ->
  fst (dispatch w agent job) = Ok tt.
Proof.
  intros Ht Hp. unfold dispatch. rewrite Ht, Hp. unfold Now. cbn [fst snd].
  destruct (Nat.ltb 0 (String.length (Stdout r))),
    (Nat.ltb 0 (String.length (Stderr r))); reflexivity.
Qed.

(** A RESULT answer that names a record of a known agent with its token,
    while the record is open, is accepted and closes the record. *)
Lemma result_closes_record (w : World) (id : string) (a token : UUID)
  (result : Results) (info : JobInfo) :
  memory.wf (jobRepo w) ->
  Exist w a = true ->
  memory.GetInfo (jobRepo w) id = Some info ->
  Info_Token info = token ->
  Info_Status info <> COMPLETE -> Info_Status info <> CANCELED ->
  exists w' info',
    Handler w [mkJob id a token RESULT (PResults result)] = (Ok tt, w')
    /\ memory.GetInfo (jobRepo w') id = Some info'
    /\ Info_Status info' = COMPLETE
    /\ Info_Token info' = token.
Proof.
  intros Hwf Hex Hrec Htok Hc Hx.
  set (answer := mkJob id a token RESULT (PResults result)).
  assert (Hchk : checkJob w answer = None).
  { unfold checkJob. cbn [Job_AgentID Job_ID Job_Token answer].
    rewrite Hex, Hrec. cbn [negb].
    rewrite (bool_decide_eq_true_2 _ (eq_sym Htok)). cbn [negb].
    rewrite (bool_decide_eq_false_2 _ Hc), (bool_decide_eq_false_2 _ Hx).
    reflexivity. }
  destruct (dispatch w (Job_AgentID answer) answer) as [o wd] eqn:Hd.
  pose proof (dispatch_result w (Job_AgentID answer) answer result
                eq_refl eq_refl) as Ho.
  rewrite Hd in Ho. cbn [fst] in Ho. subst o.
  destruct (handleJob_accepts w wd answer info Hwf Hex Hrec Hchk Hd)
    as [w3 Hh]; [intros H; discriminate H |].
  destruct (handleJob_ok_record w w3 answer Hwf Hex Hh)
    as (i0 & i1 & Hg0 & Hg1 & Ht & Hs & _).
  cbn [Job_ID answer] in Hg0, Hg1. rewrite Hrec in Hg0.
  injection Hg0 as <-.
  exists w3, i1. cbn [Handler]. rewrite Hh.
  repeat split; [exact Hg1 | exact Hs | congruence].
Qed.

(** X18. A job from the operator to the agent and back: after [Add] for
    one known agent with a free identifier, [Get] hands the agent the job
    as the last of its queue and empties the queue, the record is SENT
    with the instant of the call, and a RESULT answer carrying the
    identifier and the token of the job is accepted by [Handler] and
    leaves the record COMPLETE. *)
Theorem job_lifecycle (w : World) (a : UUID) (kind : string)
  (args args' : list string) (job : Job) (result : Results) :
  memory.wf (jobRepo w) ->
  Exist w a = true ->
  UUID_String a <> "ffffffff-ffff-ffff-ffff-ffffffffffff" ->
  build (fs w) kind args = Ok (job, args') ->
  memory.infos (jobRepo w) !! fst (rand (entropy w)) = None ->
  let id := fst (rand (entropy w)) in
  let token := snd (rand (entropy w)) in
  let w1 := snd (Add rand w a kind args) in
  let sent := fst (Get w1 a) in
  let w2 := snd (Get w1 a) in
  last sent = Some (mkJob id a token (Job_Type job) (Job_Payload job))
  /\ memory.queue (jobRepo w2) !! a = None
  /\ (exists command,
        memory.GetInfo (jobRepo w2) id
        = Some (mkInfo id a (jobs_String (Job_Type job)) token SENT command
                       (clock w) (clock w1) 0))
  /\ exists w3 info,
       Handler w2 [mkJob id a token RESULT (PResults result)] = (Ok tt, w3)
       /\ memory.GetInfo (jobRepo w3) id = Some info
       /\ Info_Status info = COMPLETE
       /\ Info_Token info = token.
Proof.
  intros Hwf Hex Hbc Hb Hfresh.
  destruct (Add_single_agent_state w a kind args args' job Hex Hbc Hb Hfresh)
    as (command & results & w1 & HAdd & Hag1 & Hi & Hq).
  rewrite HAdd. cbn [snd].
  generalize dependent (fst (rand (entropy w))). intros jid Hfresh Hi Hq.
  generalize dependent (snd (rand (entropy w))). intros token Hi Hq.
  cbv zeta.
  destruct (Get_spec w1 a) as (Hsent & Hrepo2 & Hag2).
  generalize dependent (Get w1 a). intros [sent w2]. cbn [fst snd].
  intros -> Hrepo2 Hag2.
  rewrite Hq, lookup_insert_eq in Hrepo2 |- *.
  cbn [default from_option id] in *.
  set (queued := mkJob jid a token (Job_Type job) (Job_Payload job)) in *.
  set (rec := mkInfo jid a (jobs_String (Job_Type job)) token CREATED command
                     (clock w) 0 0) in *.
  set (old := default [] (memory.queue (jobRepo w) !! a)) in *.
  assert (Hwf1 : memory.wf (jobRepo w1)).
  { intros k i. rewrite Hi, lookup_insert.
    case_decide as Hk; [intros [= <-]; exact Hk | apply Hwf]. }
  assert (Hrec2 : memory.GetInfo (jobRepo w2) jid
                  = Some (Info_sent_at rec (clock w1))).
  { rewrite Hrepo2. unfold memory.GetInfo. cbn [memory.infos].
    rewrite fold_left_app. cbn [fold_left]. unfold memory.mark at 1.
    cbn [Job_ID queued].
    assert (H0 : memory.infos (jobRepo w1) !! jid = Some rec).
    { rewrite Hi. apply lookup_insert_eq. }
    destruct (fold_mark_sent (clock w1) jid old _ _ H0) as [H | H];
      rewrite H, lookup_insert_eq; reflexivity. }
  assert (Hwf2 : memory.wf (jobRepo w2)).
  { rewrite Hrepo2. intros k i. cbn [memory.infos].
    apply fold_mark_wf; [reflexivity | exact Hwf1]. }
  split; [apply last_snoc |].
  split; [rewrite Hrepo2; apply lookup_delete_eq |].
  split; [exists command; exact Hrec2 |].
  apply (result_closes_record w2 jid a token result
           (Info_sent_at rec (clock w1)) Hwf2);
    [unfold Exist in *; rewrite Hag2, Hag1; exact Hex | exact Hrec2 | reflexivity
    | discriminate | discriminate].
Qed.

End Lifecycle.

Lemma job_lifecycle_witness :
  let w := demo_world [agentA] in
  let w1 := snd (Add demo_rand w agentA "sleep" ["sleep"; "30s"]) in
  let sent := fst (Get w1 agentA) in
  let w2 := snd (Get w1 agentA) in
  last sent
  = Some (mkJob "job0" agentA 1000%N CONTROL
                (PCommand (mkCommand "sleep" ["30s"])))
  /\ memory.queue (jobRepo w2) !! agentA = None
  /\ (exists command,
        memory.GetInfo (jobRepo w2) "job0"
        = Some (mkInfo "job0" agentA "CONTROL" 1000%N SENT command 1 3 0))
  /\ exists w3 info,
       Handler w2 [mkJob "job0" agentA 1000%N RESULT
                         (PResults (mkResults "" ""))] = (Ok tt, w3)
       /\ memory.GetInfo (jobRepo w3) "job0" = Some info
       /\ Info_Status info = COMPLETE
       /\ Info_Token info = 1000%N.
Proof.
  apply (job_lifecycle demo_rand (demo_world [agentA]) agentA "sleep"
           ["sleep"; "30s"] ["sleep"; "30s"]
           (typed CONTROL (PCommand (mkCommand "sleep" ["30s"])))
           (mkResults "" "")).
  - apply wf_NewRepository.
  - reflexivity.
  - intros H. vm_compute in H. discriminate H.
  - vm_compute. reflexivity.
  - vm_compute. reflexivity.
Defined.

(** ** Frames of the SOCKS layer

    X19. A SOCKS frame that comes with its own identifier and token, for a
    known agent: one turn of [socksJobs] queues the frame as it is, and
    stores a CREATED record with the SOCKS summary under the identifier
    drawn for the record, with the token drawn for it; nothing is stored
    under the identifier of the frame. *)
Theorem socks_frame_queued (rand : nat -> string * UUID) (w : World)
  (job : Job) (conn : Socks) :
  Job_Type job = SOCKS ->
  Job_Payload job = PSocks conn ->
  Job_ID job <> "" ->
  Job_Token job <> uuid_Nil ->
  Exist w (Job_AgentID job) = true ->
  memory.infos (jobRepo w) !! fst (rand (entropy w)) = None ->
  exists w',
    socksJobs_step rand w job = (Ok tt, w')
    /\ memory.queue (jobRepo w') !! Job_AgentID job
       = Some (default [] (memory.queue (jobRepo w) !! Job_AgentID job)
               ++ [job])
    /\ memory.GetInfo (jobRepo w') (fst (rand (entropy w)))
       = Some (mkInfo (fst (rand (entropy w))) (Job_AgentID job)
                      (jobs_String SOCKS) (snd (rand (entropy w))) CREATED
                      ("SOCKS connection " ++ UUID_String (Socks_ID conn)
                         ++ " packet " ++ Bytes.decimal (Socks_Index conn))
                      (clock w) 0 0)
    /\ (Job_ID job <> fst (rand (entropy w)) ->
        memory.GetInfo (jobRepo w') (Job_ID job)
        = memory.GetInfo (jobRepo w) (Job_ID job)).
Proof.
  destruct job as [jid ja jtok jty jpl].
  cbn [Job_Type Job_Payload Job_ID Job_Token Job_AgentID].
  intros -> -> Hid Htok Hex Hfresh.
  unfold socksJobs_step, buildJob, Agent.
  cbn [Job_Type Job_Payload Job_ID Job_Token Job_AgentID].
  rewrite Hex. unfold describe, NewInfo, Now, memory.Add.
  cbn [Job_Type Job_Payload Job_ID Job_Token Job_AgentID fst snd jobRepo
       Info_ID Info_Token].
  rewrite (bool_decide_eq_false_2 _ Htok).
  cbn [Job_Type Job_Payload Job_ID Job_Token Job_AgentID].
  rewrite (proj2 (String.eqb_neq _ _) Hid).
  cbn [Job_Type Job_Payload Job_ID Job_Token Job_AgentID fst snd jobRepo
       Info_ID Info_Token].
  rewrite Hfresh. eexists. split; [reflexivity |].
  unfold memory.GetInfo. cbn [jobRepo agent_Log with_repo memory.queue
                               memory.infos].
  split; [apply lookup_insert_eq |]. split; [apply lookup_insert_eq |].
  intros Hne. now apply lookup_insert_ne.
Qed.

Lemma socks_frame_queued_witness :
  let w := world_with (tracked "job0" SOCKS ACTIVE) in
  exists w',
    socksJobs_step demo_rand w (socks_job false) = (Ok tt, w')
    /\ memory.queue (jobRepo w') !! agentA = Some ([] ++ [socks_job false])
    /\ memory.GetInfo (jobRepo w') "job1"
       = Some (mkInfo "job1" agentA "SOCKS" 1001%N CREATED
                      ("SOCKS connection "
                         ++ UUID_String 77%N ++ " packet " ++ "0")
                      5 0 0)
    /\ ("job0" <> "job1" ->
        memory.GetInfo (jobRepo w') "job0"
        = memory.GetInfo (jobRepo w) "job0").
Proof.
  apply (socks_frame_queued demo_rand (world_with (tracked "job0" SOCKS ACTIVE))
           (socks_job false) (mkSocks 77%N 0%N "" false)).
  - reflexivity.
  - reflexivity.
  - discriminate.
  - discriminate.
  - reflexivity.
  - vm_compute. reflexivity.
Defined.

(** * The agent menu *)

Section ConsoleProperties.

Import menu.

Variable confirm : string -> bool.
Variable GetAgents : list UUID.
Variable GetAgentInfo : UUID -> list (list string) * menu.UserMessage.
Variable GetJobsForAgent : UUID -> list (list string) * menu.UserMessage.
Variable GetAgentStatus : UUID -> string * menu.UserMessage.
Variable GetAgentsRows : list string * list (list string).
Variable FromString : string -> option UUID.
Variable colored : Color -> string -> string.

Local Abbreviation run :=
  (handlerAgent confirm GetAgents GetAgentInfo GetJobsForAgent GetAgentStatus
                GetAgentsRows FromString colored).

Lemma quiet_refl (st : CLI) : quiet st st.
Proof. exists []. split; [now rewrite app_nil_r | constructor]. Qed.

Lemma quiet_trans (st1 st2 st3 : CLI) :
  quiet st1 st2 -> quiet st2 st3 -> quiet st1 st3.
Proof.
  intros (n1 & H1 & F1) (n2 & H2 & F2). exists (n1 ++ n2). split.
  - rewrite H2, H1. now rewrite app_assoc.
  - apply Forall_app. now split.
Qed.

Lemma quiet_emit (st : CLI) (e : Event) :
  runs_on_host e = false -> quiet st (emit st e).
Proof.
  intros He. exists [e]. split; [reflexivity |].
  constructor; [exact He | constructor].
Qed.

Lemma quiet_same_trace (st st' : CLI) : trace st' = trace st -> quiet st st'.
Proof. intros H. exists []. split; [now rewrite app_nil_r | constructor]. Qed.

Lemma quiet_Set (st st' : CLI) (m : Menu) :
  quiet st st' -> quiet st (Set_ st' m).
Proof. intros (new & Ht & Hf). exists new. split; assumption. Qed.

Lemma quiet_emit_after (st st' : CLI) (e : Event) :
  quiet st st' -> runs_on_host e = false -> quiet st (emit st' e).
Proof.
  intros H He. apply (quiet_trans _ st'); [exact H | now apply quiet_emit].
Qed.

Lemma setAgent_loop_quiet (agentID : UUID) (agentList : list UUID) :
  forall st st',
    setAgent_loop GetAgentInfo st agentID agentList = Ok st' -> quiet st st'.
Proof.
  induction agentList as [| id rest IH]; intros st st'; cbn [setAgent_loop].
  - intros [= <-]. apply quiet_refl.
  - destruct (bool_decide (agentID = id)); [| apply IH].
    cbn [agent platform current trace].
    destruct (GetAgentInfo agentID) as [agentInfo m].
    destruct (UM_Error m).
    { intros [= <-]. exists [Send m]. split; [reflexivity |].
      repeat constructor. }
    destruct (scan_platform agentInfo (platform st)) as [p |];
      [| intros H; discriminate H].
    destruct (String.eqb p "").
    { intros [= <-]. eexists [_]. split; [reflexivity |].
      repeat constructor. }
    intros H. apply IH in H. destruct H as (new & Ht & Hf).
    exists new. split; [exact Ht | exact Hf].
Qed.

Lemma interactAgent_quiet (st st' : CLI) (id : string) :
  interactAgent GetAgents GetAgentInfo FromString st id = Ok st' ->
  quiet st st'.
Proof.
  unfold interactAgent, setAgent. destruct (FromString id) as [agentID |].
  - destruct (setAgent_loop _ _ _ _) as [st2 | e | p] eqn:Hl;
      try (intros H; discriminate H).
    intros [= <-]. apply setAgent_loop_quiet in Hl.
    destruct Hl as (new & Ht & Hf). exists new. split; assumption.
  - intros [= <-]. apply quiet_emit. reflexivity.
Qed.

Lemma handled_not (c : string) :
  forallb (fun l => negb (String.eqb c l)) handled = true -> c ∉ handled.
Proof.
  intros H Hin. apply list_elem_of_In in Hin.
  rewrite forallb_forall in H. specialize (H c Hin).
  rewrite String.eqb_refl in H. discriminate H.
Qed.

(** Where [handlerAgent] sends a command line: a word with a case of its
    own never reaches the host, any other word goes there with its
    arguments. *)
Lemma handlerAgent_dispatch (st st' : CLI) (c : string) (args : list string) :
  run st (c :: args) = Ok st' ->
  if bool_decide (c ∈ handled) then quiet st st'
  else st' = emit st (ExecuteCommand c args).
Proof.
  unfold handlerAgent. cbv zeta.
  repeat lazymatch goal with
         | |- context [String.eqb c ?l] =>
             let E := fresh "E" in
             destruct (String.eqb c l) eqn:E; cbn [orb];
             [ apply String.eqb_eq in E; subst c;
               match goal with
               | |- context [bool_decide (?x ∈ handled)] =>
                   replace (bool_decide (x ∈ handled)) with true
                     by (vm_compute; reflexivity)
               end;
               try (intros [= <-]; (unfold helpAgent, displayJobTable;
                     repeat first
                       [ apply quiet_refl
                       | apply quiet_Set
                       | apply quiet_emit_after; [| reflexivity] ]); fail)
             | ]
         end;
    try solve
      [ repeat match goal with
               | |- context [match ?x with (_, _) => _ end] => destruct x
               | |- context [if ?b then _ else _] => destruct b
               end;
        first [ apply interactAgent_quiet
              | intros [= <-]; (unfold helpAgent, displayJobTable;
                     repeat first
                       [ apply quiet_refl
                       | apply quiet_Set
                       | apply quiet_emit_after; [| reflexivity] ]) ] ].
  rewrite bool_decide_eq_false_2.
  - destruct args; cbn [length Nat.ltb Nat.leb tl]; intros [= <-];
      reflexivity.
  - apply handled_not. cbn [forallb handled].
    repeat match goal with
           | E : String.eqb c _ = false |- _ => rewrite E; clear E
           end.
    reflexivity.
Qed.


(** X20. [handlerAgent] runs a program on the host of the console for
    exactly the words that have no case in its switch: such a word is
    handed to [core.ExecuteCommand] with its arguments and nothing else
    happens, and a word with a case never reaches the host. *)
Theorem handlerAgent_host_commands (st st' : CLI) (c : string)
  (args : list string) :
  handlerAgent confirm GetAgents GetAgentInfo GetJobsForAgent GetAgentStatus
    GetAgentsRows FromString colored st (c :: args) = Ok st' ->
  (c ∈ handled -> quiet st st')
  /\ (c ∉ handled -> st' = emit st (ExecuteCommand c args)).
Proof.
  intros H. apply handlerAgent_dispatch in H.
  case_bool_decide; split; intros Hc; try contradiction; exact H.
Qed.

Lemma included_spec (skip l1 l2 : list string) (n : string) :
  included skip l1 l2 = true -> n ∈ l1 -> n ∉ skip -> n ∈ l2.
Proof.
  unfold included. rewrite forallb_forall. intros H Hin Hskip.
  specialize (H n (proj1 (list_elem_of_In _ _) Hin)).
  apply orb_true_iff in H as [H | H];
    apply existsb_exists in H as (x & Hx & E);
    apply String.eqb_eq in E; subst x;
    apply list_elem_of_In in Hx; [contradiction | exact Hx].
Qed.

Lemma offered_handled (st0 : CLI) (name : string) :
  name ∈ offered (completerAgent GetAgents st0) -> name ∈ handled.
Proof.
  intros Hin. unfold completerAgent in Hin.
  assert (Hnil : name ∉ @nil string) by (intros H; inversion H).
  destruct (String.eqb _ "linux");
    [| destruct (String.eqb _ "windows")];
    refine (included_spec [] _ handled name _ Hin Hnil); reflexivity.
Qed.

Lemma documented_handled (st0 : CLI) (name : string) :
  name ∈ documented (help_rows st0) -> name <> "*" -> name ∈ handled.
Proof.
  intros Hin Hstar. unfold help_rows in Hin.
  assert (Hskip : name ∉ ["*"]).
  { intros H. apply list_elem_of_singleton in H. contradiction. }
  destruct (String.eqb _ "windows");
    [| destruct (String.eqb _ "linux")];
    refine (included_spec ["*"] _ handled name _ Hin Hskip); reflexivity.
Qed.

(** X21. Every command the completion offers, on any platform, and every
    command the help table documents, its catch-all row apart, has a case
    of its own in [handlerAgent]: typing it never runs a program on the
    host. *)
Theorem offered_commands_stay_in_console (st0 st st' : CLI) (name : string)
  (args : list string) :
  name ∈ offered (completerAgent GetAgents st0)
  \/ (name ∈ documented (help_rows st0) /\ name <> "*") ->
  handlerAgent confirm GetAgents GetAgentInfo GetJobsForAgent GetAgentStatus
    GetAgentsRows FromString colored st (name :: args) = Ok st' ->
  quiet st st'.
Proof.
  intros Hname H. apply handlerAgent_dispatch in H.
  rewrite bool_decide_eq_true_2 in H; [exact H |].
  destruct Hname as [Ho | [Hd Hs]];
    [now apply (offered_handled st0) | now apply (documented_handled st0)].
Qed.

(** X22. The help table and the completion list: every documented command
    other than the catch-all row and [nslookup] is offered by the
    completion.  The converse fails on the spelling of the platform:
    [completerAgent] compares it in lower case and [helpAgent] as it is,
    so for a platform such as Windows written with a capital the Windows
    commands are offered and not documented. *)
Theorem help_and_completion (st : CLI) :
  (forall name,
     name ∈ documented (help_rows st) ->
     name <> "*" -> name <> "nslookup" ->
     name ∈ offered (completerAgent GetAgents st))
  /\ (Bytes.ToLower (platform st) = "windows" ->
      platform st <> "windows" ->
      "execute-assembly" ∈ offered (completerAgent GetAgents st)
      /\ "execute-assembly" ∉ documented (help_rows st)).
Proof.
  split.
  - intros name Hin Hstar Hns.
    assert (Hskip : name ∉ ["*"; "nslookup"]).
    { intros H. apply elem_of_cons in H as [H | H]; [contradiction |].
      apply list_elem_of_singleton in H. contradiction. }
    unfold help_rows in Hin. unfold completerAgent.
    destruct (String.eqb (platform st) "windows") eqn:Ew.
    { apply String.eqb_eq in Ew. rewrite Ew.
      refine (included_spec ["*"; "nslookup"] _ _ name _ Hin Hskip).
      reflexivity. }
    destruct (String.eqb (platform st) "linux") eqn:El.
    { apply String.eqb_eq in El. rewrite El.
      refine (included_spec ["*"; "nslookup"] _ _ name _ Hin Hskip).
      reflexivity. }
    destruct (String.eqb (Bytes.ToLower (platform st)) "linux");
      [| destruct (String.eqb (Bytes.ToLower (platform st)) "windows")];
      refine (included_spec ["*"; "nslookup"] _ _ name _ Hin Hskip);
      reflexivity.
  - intros Hlow Hne. unfold completerAgent, help_rows.
    rewrite Hlow. cbn [String.eqb Ascii.eqb Bool.eqb].
    apply String.eqb_neq in Hne. rewrite Hne. split.
    + apply list_elem_of_In. cbn. tauto.
    + destruct (String.eqb (platform st) "linux"); intros H;
        apply list_elem_of_In in H; cbn in H;
        repeat (destruct H as [H | H]; [discriminate H |]); exact H.
Qed.

Lemma setAgent_loop_unknown (agentID : UUID) (agentList : list UUID)
  (st : CLI) :
  agentID ∉ agentList ->
  setAgent_loop GetAgentInfo st agentID agentList = Ok st.
Proof.
  induction agentList as [| id rest IH]; intros Hno; [reflexivity |].
  cbn [setAgent_loop]. apply not_elem_of_cons in Hno as [Hne Hno].
  rewrite bool_decide_eq_false_2 by exact Hne. now apply IH.
Qed.

(** X23. [interact] with an identifier that parses and names no known
    agent: the identifier becomes the current agent and the menu becomes
    the agent menu, the platform of the previous agent stays and nothing
    is shown. *)
Theorem interact_unknown_agent (st : CLI) (id : string) (rest : list string)
  (agentID : UUID) :
  FromString id = Some agentID ->
  agentID ∉ GetAgents ->
  handlerAgent confirm GetAgents GetAgentInfo GetJobsForAgent GetAgentStatus
    GetAgentsRows FromString colored st ("interact" :: id :: rest)
  = Ok (mkCLI agentID (platform st) AGENT (trace st)).
Proof.
  intros Hid Hno. unfold handlerAgent. cbv zeta.
  cbn [String.eqb Ascii.eqb Bool.eqb orb length Nat.ltb Nat.leb nth].
  unfold interactAgent, setAgent. rewrite Hid.
  rewrite setAgent_loop_unknown by exact Hno. reflexivity.
Qed.

Lemma scan_platform_app (pre post : list (list string)) (p : string) :
  Forall (fun row => readable_row row = true) pre ->
  exists q,
    scan_platform (pre ++ post) p = scan_platform post q
    /\ (Forall (fun row => names_platform row = false) pre -> q = p).
Proof.
  intros Hpre. revert p.
  induction Hpre as [| row pre Hrow Hpre IH]; intros p.
  - exists p. split; [reflexivity | reflexivity].
  - cbn [app scan_platform].
    destruct row as [| key [| value more]]; [discriminate Hrow | |].
    + cbn [readable_row] in Hrow. apply negb_true_iff in Hrow. rewrite Hrow.
      destruct (IH p) as (q & Hq & Hsame). exists q. split; [exact Hq |].
      intros Hn. apply Hsame. now inversion Hn.
    + destruct (String.eqb (Bytes.ToLower key) "platform") eqn:Hk.
      * destruct (IH value) as (q & Hq & Hsame). exists q.
        split; [exact Hq |]. intros Hn. inversion Hn as [| ? ? Hx].
        cbn [names_platform] in Hx. congruence.
      * destruct (IH p) as (q & Hq & Hsame). exists q. split; [exact Hq |].
        intros Hn. apply Hsame. now inversion Hn.
Qed.

Lemma scan_platform_last (pre post : list (list string))
  (key value p : string) (more : list string) :
  Forall (fun row => readable_row row = true) pre ->
  Forall (fun row => readable_row row = true) post ->
  Forall (fun row => names_platform row = false) post ->
  String.eqb (Bytes.ToLower key) "platform" = true ->
  scan_platform (pre ++ (key :: value :: more) :: post) p = Some value.
Proof.
  intros Hpre Hpost Hno Hkey.
  destruct (scan_platform_app pre ((key :: value :: more) :: post) p Hpre)
    as (q & -> & _).
  cbn [scan_platform]. rewrite Hkey.
  destruct (scan_platform_app post [] value Hpost) as (q' & Hq & Hsame).
  rewrite app_nil_r in Hq. rewrite Hq, (Hsame Hno). reflexivity.
Qed.

Lemma setAgent_loop_settled (agentID : UUID) (value : string)
  (info : list (list string)) (m : menu.UserMessage)
  (agentList : list UUID) (st : CLI) :
  GetAgentInfo agentID = (info, m) ->
  UM_Error m = false ->
  scan_platform info value = Some value ->
  value <> "" ->
  agent st = agentID -> platform st = value ->
  setAgent_loop GetAgentInfo st agentID agentList = Ok st.
Proof.
  intros Hinfo Herr Hscan Hne Ha Hp.
  induction agentList as [| id rest IH]; [reflexivity |].
  cbn [setAgent_loop]. destruct (bool_decide (agentID = id)); [| exact IH].
  cbn [agent platform current trace]. rewrite Hinfo, Herr, Hp, Hscan.
  rewrite (proj2 (String.eqb_neq _ _) Hne).
  destruct st as [a p c t]. cbn in Ha, Hp. subst a p. exact IH.
Qed.

(** X24. [setAgent] for a known agent whose information comes without
    error: the platform becomes the value of the last row whose name is
    platform in any spelling of case, provided the rows before it can be
    read and that value is not empty; nothing is shown, and the other
    known agents do not matter. *)
Theorem setAgent_last_platform_row (st : CLI) (agentID : UUID)
  (pre post : list (list string)) (key value : string) (more : list string)
  (m : menu.UserMessage) :
  agentID ∈ GetAgents ->
  GetAgentInfo agentID = (pre ++ (key :: value :: more) :: post, m) ->
  UM_Error m = false ->
  Forall (fun row => readable_row row = true) pre ->
  Forall (fun row => readable_row row = true) post ->
  Forall (fun row => names_platform row = false) post ->
  Bytes.ToLower key = "platform" ->
  value <> "" ->
  setAgent GetAgents GetAgentInfo st agentID
  = Ok (mkCLI agentID value (current st) (trace st)).
Proof.
  intros Hin Hinfo Herr Hpre Hpost Hno Hkey Hne. unfold setAgent.
  apply String.eqb_eq in Hkey.
  revert st. induction GetAgents as [| id rest IH]; intros st;
    [inversion Hin |].
  cbn [setAgent_loop]. destruct (bool_decide (agentID = id)) eqn:Hid.
  - cbn [agent platform current trace]. rewrite Hinfo, Herr.
    rewrite (scan_platform_last pre post key value (platform st) more
               Hpre Hpost Hno Hkey).
    cbn [platform]. rewrite (proj2 (String.eqb_neq _ _) Hne).
    apply (setAgent_loop_settled agentID value _ m rest _ Hinfo Herr);
      [| exact Hne | reflexivity | reflexivity].
    apply (scan_platform_last pre post key value value more
             Hpre Hpost Hno Hkey).
  - apply bool_decide_eq_false in Hid.
    apply elem_of_cons in Hin as [Hin | Hin]; [contradiction |].
    now apply IH.
Qed.

(** X25. [exit] tells the agent to exit, and goes back to the main menu,
    exactly on consent: the flag [-y], in any case, as first argument, or
    a confirmed question when there is no argument.  With an argument
    that is not the flag nothing happens at all: no question is asked and
    nothing is sent. *)
Theorem exit_needs_consent (st : CLI) (args : list string) :
  let consent :=
    match args with
    | [] => confirm "Are you sure that you want to exit the agent?"
    | flag :: _ => String.eqb (Bytes.ToLower flag) "-y"
    end in
  exists st' new,
    handlerAgent confirm GetAgents GetAgentInfo GetJobsForAgent GetAgentStatus
    GetAgentsRows FromString colored st ("exit" :: args) = Ok st'
    /\ trace st' = trace st ++ new
    /\ agent st' = agent st /\ platform st' = platform st
    /\ current st' = (if consent then MAIN else current st)
    /\ (SendAPI Exit (agent st) ("exit" :: args) ∈ new <-> consent = true)
    /\ (args <> [] -> consent = false -> new = []).
Proof.
  unfold handlerAgent. cbv zeta.
  cbn [String.eqb Ascii.eqb Bool.eqb orb].
  destruct args as [| flag rest]; cbn [length Nat.ltb Nat.leb nth].
  - destruct (confirm _) eqn:Hc.
    + eexists. exists [Confirm "Are you sure that you want to exit the agent?" true;
                        SendAPI Exit (agent st) ["exit"]].
      split; [reflexivity |]. cbn [agent platform current trace emit Set_].
      rewrite <- app_assoc. repeat split; try reflexivity; try contradiction.
      intros _. apply list_elem_of_In. cbn. tauto.
    + eexists. exists [Confirm "Are you sure that you want to exit the agent?" false].
      split; [reflexivity |]. cbn [agent platform current trace emit Set_].
      repeat split; try reflexivity; try contradiction; try discriminate.
      intros H. apply list_elem_of_singleton in H. discriminate H.
  - destruct (String.eqb (Bytes.ToLower flag) "-y") eqn:Hy.
    + eexists. exists [SendAPI Exit (agent st) ("exit" :: flag :: rest)].
      split; [reflexivity |]. cbn [agent platform current trace emit Set_].
      repeat split; try reflexivity; try discriminate.
      intros _. apply list_elem_of_singleton. reflexivity.
    + exists st, []. split; [reflexivity |]. rewrite app_nil_r.
      repeat split; try reflexivity; try discriminate.
      intros H. inversion H.
Qed.

End ConsoleProperties.

Lemma handlerAgent_host_commands_witness :
  ("whoami" ∈ menu.handled ->
   menu.quiet menu.demo_console
     (menu.emit menu.demo_console (menu.ExecuteCommand "whoami" ["/all"])))
  /\ ("whoami" ∉ menu.handled ->
      menu.emit menu.demo_console (menu.ExecuteCommand "whoami" ["/all"])
      = menu.emit menu.demo_console (menu.ExecuteCommand "whoami" ["/all"])).
Proof.
  apply (handlerAgent_host_commands (fun _ => false) [agentA] menu.demo_info
           (fun _ => ([], menu.demo_message))
           (fun _ => ("Active", menu.demo_message)) ([], [])
           menu.demo_FromString (fun _ s => s) menu.demo_console
           (menu.emit menu.demo_console (menu.ExecuteCommand "whoami" ["/all"]))
           "whoami" ["/all"]).
  vm_compute. reflexivity.
Defined.

Lemma offered_commands_stay_in_console_witness :
  menu.quiet menu.demo_console
    (menu.emit menu.demo_console
       (menu.SendAPI menu.MEMFD agentA ["memfd"; "/bin/ls"])).
Proof.
  apply (offered_commands_stay_in_console (fun _ => false) [agentA]
           menu.demo_info (fun _ => ([], menu.demo_message))
           (fun _ => ("Active", menu.demo_message)) ([], [])
           menu.demo_FromString (fun _ s => s) menu.demo_console
           menu.demo_console
           (menu.emit menu.demo_console
              (menu.SendAPI menu.MEMFD agentA ["memfd"; "/bin/ls"]))
           "memfd" ["/bin/ls"]).
  - left. apply list_elem_of_In. vm_compute. tauto.
  - vm_compute. reflexivity.
Defined.

Lemma interact_unknown_agent_witness :
  menu.demo_run menu.demo_console
    ["interact"; "0b0b0b0b-0b0b-0b0b-0b0b-0b0b0b0b0b0b"]
  = Ok (menu.mkCLI agentB "linux" menu.AGENT []).
Proof.
  apply (interact_unknown_agent (fun _ => false) [agentA] menu.demo_info
           (fun _ => ([], menu.demo_message))
           (fun _ => ("Active", menu.demo_message)) ([], [])
           menu.demo_FromString (fun _ s => s) menu.demo_console
           "0b0b0b0b-0b0b-0b0b-0b0b-0b0b0b0b0b0b" [] agentB).
  - reflexivity.
  - intros H. apply list_elem_of_singleton in H. discriminate H.
Defined.

Lemma setAgent_last_platform_row_witness :
  menu.setAgent [agentA] menu.demo_info menu.demo_console agentA
  = Ok (menu.mkCLI agentA "linux/amd64" menu.AGENT []).
Proof.
  apply (setAgent_last_platform_row [agentA] menu.demo_info menu.demo_console
           agentA
           [["ID"; "0a0a0a0a-0a0a-0a0a-0a0a-0a0a0a0a0a0a"];
            ["platform"; "windows/amd64"]]
           [["Note"]] "Platform" "linux/amd64" [] menu.demo_message).
  - apply list_elem_of_here.
  - vm_compute. reflexivity.
  - reflexivity.
  - repeat constructor.
  - repeat constructor.
  - repeat constructor.
  - reflexivity.
  - discriminate.
Defined.

